(** * BrainCanary core: a shallow embedding of the rollout controller

    The development follows the TypeScript sources of [packages/core]:
    the lifecycle state machine ([state/machine.ts]), Welch's t-test
    ([statistics/welch.ts]), the gate evaluator
    ([statistics/evaluate-gate.ts]), the traffic router, the stage
    controller, the SQLite store ([db/store.ts]), the BTQL client
    ([braintrust/btql-client.ts]) and the score monitor
    ([monitor/score-monitor.ts]).

    JavaScript numbers that carry measurements (scores, p-values,
    thresholds) are IEEE-754 binary64 values and are modelled by Rocq's
    primitive floats, whose [+ - * / sqrt] and comparisons are the same
    operations.  Numbers that the program only ever uses as integers
    (counters, indices, weights, millisecond timestamps) are modelled by
    [Z] and [nat]; they stay far below 2^53, where JavaScript arithmetic
    on them is exact. *)

From Stdlib Require Import ZArith List String Ascii Bool Lia Floats.
From Stdlib Require Import DecimalString.
From Stdlib Require DecimalFacts DecimalNat.
Import ListNotations.

Set Warnings "-inexact-float".

#[local] Open Scope Z_scope.
#[local] Open Scope string_scope.

(** ** JavaScript values shared by all modules *)

(** What a [throw] carries.  [Error name message] stands for the built-in
    error classes (the class is recorded in [name]); [BTQLError] is the
    client's own subclass with its optional HTTP status. *)
Inductive exn : Type :=
| Error (name message : string)
| BTQLError (message : string) (status : option Z).

(** A call either returns a value or throws. *)
Inductive result (A : Type) : Type :=
| Return (a : A)
| Throw (e : exn).
Arguments Return {A} a.
Arguments Throw {A} e.

Definition returns {A : Type} (r : result A) : bool :=
  match r with Return _ => true | Throw _ => false end.

(** [x ?? d] on a value that may be null or undefined. *)
Definition nullish {A : Type} (x : option A) (d : A) : A :=
  match x with Some v => v | None => d end.

(** Truthiness of a string: only the empty string is falsy. *)
Definition truthy (s : string) : bool :=
  match s with EmptyString => false | String _ _ => true end.

(** Decimal rendering of an integer inside a template literal. *)
Definition show_Z (z : Z) : string := NilZero.string_of_int (Z.to_int z).
Definition show_nat (n : nat) : string := show_Z (Z.of_nat n).

(** The instant a [Date] denotes, in milliseconds since the epoch; an
    ISO-8601 string produced by [toISOString] is identified with the
    instant it prints. *)
Definition timestamp : Type := Z.

Module JsNumber.

#[local] Open Scope float_scope.

(** The number a non-negative integer counter denotes. *)
Definition of_Z (z : Z) : float :=
  if (z <? 0)%Z then - (PrimFloat.of_uint63 (Uint63.of_Z (- z)))
  else PrimFloat.of_uint63 (Uint63.of_Z z).

Definition of_nat (n : nat) : float := of_Z (Z.of_nat n).

(** [x >= y] and [x > y] are [y <= x] and [y < x], also on NaN. *)
Definition geb (x y : float) : bool := PrimFloat.leb y x.
Definition gtb (x y : float) : bool := PrimFloat.ltb y x.

(** [x ** 2].  The engine's [pow] returns [x * x] for the exponent 2. *)
Definition square (x : float) : float := x * x.

(** [Math.floor] of a finite number, as the integer it denotes.  The
    argument is decoded to sign, mantissa and exponent and divided with
    rounding towards minus infinity; NaN and the infinities, which have
    no integer floor, are sent to 0. *)
Definition floor (x : float) : Z :=
  match Prim2SF x with
  | S754_finite s m e =>
      let mag := if s then Z.neg m else Z.pos m in
      if (0 <=? e)%Z then (mag * 2 ^ e)%Z else (mag / 2 ^ (- e))%Z
  | _ => 0%Z
  end.

End JsNumber.

(** ** config/schema.ts *)

Module Schema.

Inductive GateComparison : Type :=
| not_worse_than_baseline
| better_than_baseline
| absolute_only.

Record Gate : Type := {
  scorer : string;
  threshold : float;
  comparison : GateComparison;
  confidence : float
}.

Record DeploymentStage : Type := {
  weight : Z;
  duration : option string;
  min_samples : Z;
  gates : list Gate
}.

Record RollbackConfig : Type := {
  on_score_drop : float;
  on_error_rate : float;
  cooldown : string
}.

(** Of the deployment block only the fields the core consults are kept
    (the runtime, version, notification and server blocks are read by
    the proxy alone). *)
Record Deployment : Type := {
  name : string;
  project : string;
  stages : list DeploymentStage;
  rollback : RollbackConfig
}.

Record DeploymentConfig : Type := {
  deployment : Deployment
}.

(** A segment of an issue's path: an object key or an array index. *)
Inductive PathItem : Type :=
| Key (k : string)
| Index (i : nat).

(** What [ctx.addIssue] is given (the code is [custom] throughout). *)
Record Issue : Type := {
  message : string;
  path : list PathItem
}.

(** [stages[stages.length - 1]], undefined for an empty array. *)
Definition last_stage (all : list DeploymentStage) : option DeploymentStage :=
  match all with
  | [] => None
  | _ :: _ => nth_error all (List.length all - 1)
  end.

(** The loop over [i = 1 .. stages.length - 1], entered at index [i]
    with [prev] the stage at [i - 1] and [rest] the stages from [i] on. *)
Fixpoint increasing_issues (i : nat) (prev : DeploymentStage)
    (rest : list DeploymentStage) : list Issue :=
  match rest with
  | [] => []
  | stage :: rest' =>
      (if (weight stage <=? weight prev)%Z then
         [{| message := "Stage weights must be strictly increasing";
             path := [Key "stages"; Index i; Key "weight"] |}]
       else [])
      ++ increasing_issues (S i) stage rest'
  end.

(** The callback given to [superRefine] on the deployment block: the
    issues it adds, in order. *)
Definition superRefine (d : Deployment) : list Issue :=
  let all := stages d in
  (match last_stage all with
   | Some last =>
       if negb (weight last =? 100)%Z then
         [{| message := "Last stage must have weight=100";
             path := [Key "stages"] |}]
       else []
   | None => []
   end)
  ++ (match all with
      | [] => []
      | first :: rest => increasing_issues 1 first rest
      end)
  ++ (let nonFinal := removelast all in
      let hasAnyGate :=
        existsb (fun stage => (0 <? List.length (gates stage))%nat)
          nonFinal in
      if negb hasAnyGate then
        [{| message :=
              "At least one non-final stage must define at least one gate";
            path := [Key "stages"] |}]
      else []).

End Schema.

(** ** state/types.ts *)

Module Types.

Inductive DeploymentLifecycleState : Type :=
| IDLE
| PENDING
| STAGE
| PAUSED
| ROLLING_BACK
| ROLLED_BACK
| PROMOTED.

Definition state_eqb (a b : DeploymentLifecycleState) : bool :=
  match a, b with
  | IDLE, IDLE | PENDING, PENDING | STAGE, STAGE | PAUSED, PAUSED
  | ROLLING_BACK, ROLLING_BACK | ROLLED_BACK, ROLLED_BACK
  | PROMOTED, PROMOTED => true
  | _, _ => false
  end.

(** The string each state is at run time. *)
Definition state_name (s : DeploymentLifecycleState) : string :=
  match s with
  | IDLE => "IDLE"
  | PENDING => "PENDING"
  | STAGE => "STAGE"
  | PAUSED => "PAUSED"
  | ROLLING_BACK => "ROLLING_BACK"
  | ROLLED_BACK => "ROLLED_BACK"
  | PROMOTED => "PROMOTED"
  end.

(** [Array.prototype.includes] on an array of states. *)
Definition includes (l : list DeploymentLifecycleState)
    (s : DeploymentLifecycleState) : bool :=
  existsb (state_eqb s) l.

(** The type of [finalState]: ["PROMOTED" | "ROLLED_BACK"]. *)
Inductive FinalState : Type :=
| FinalPromoted
| FinalRolledBack.

Record VersionScoreStats : Type := {
  mean : float;
  std : float;
  n : Z
}.

Record ScoreSummary : Type := {
  baseline : VersionScoreStats;
  canary : VersionScoreStats
}.

(** An object keyed by scorer name, in insertion order. *)
Definition ScoreSnapshot : Type := list (string * ScoreSummary).

(** [pausedStageIndex] is read only through [??], which does not tell
    [null] from [undefined]: both are [None]. *)
Record DeploymentSnapshot : Type := {
  id : string;
  name : string;
  config : Schema.DeploymentConfig;
  state : DeploymentLifecycleState;
  stageIndex : nat;
  stageEnteredAt : timestamp;
  startedAt : timestamp;
  completedAt : option timestamp;
  finalState : option FinalState;
  pausedStageIndex : option nat;
  canaryWeight : Z;
  reason : option string
}.

(** [Partial<DeploymentSnapshot>]: [None] is a key the patch does not
    name.  For the optional fields of the snapshot a named key may
    itself hold no value. *)
Record Patch : Type := {
  p_id : option string;
  p_name : option string;
  p_config : option Schema.DeploymentConfig;
  p_state : option DeploymentLifecycleState;
  p_stageIndex : option nat;
  p_stageEnteredAt : option timestamp;
  p_startedAt : option timestamp;
  p_completedAt : option (option timestamp);
  p_finalState : option (option FinalState);
  p_pausedStageIndex : option (option nat);
  p_canaryWeight : option Z;
  p_reason : option (option string)
}.

(** The default argument [{}]. *)
Definition empty_patch : Patch :=
  {| p_id := None; p_name := None; p_config := None; p_state := None;
     p_stageIndex := None; p_stageEnteredAt := None; p_startedAt := None;
     p_completedAt := None; p_finalState := None;
     p_pausedStageIndex := None; p_canaryWeight := None;
     p_reason := None |}.

End Types.

(** ** state/machine.ts *)

Module Machine.
Import Types.

Definition ALLOWED (from : DeploymentLifecycleState)
    : list DeploymentLifecycleState :=
  match from with
  | IDLE => [PENDING]
  | PENDING => [STAGE; ROLLING_BACK]
  | STAGE => [STAGE; PAUSED; ROLLING_BACK; PROMOTED]
  | PAUSED => [STAGE; ROLLING_BACK]
  | ROLLING_BACK => [ROLLED_BACK]
  | ROLLED_BACK => []
  | PROMOTED => []
  end.

Definition InvalidTransition (from to : DeploymentLifecycleState) : exn :=
  Error "Error"
    ("Invalid transition: " ++ state_name from ++ " -> " ++ state_name to).

Definition assertTransitionAllowed (from to : DeploymentLifecycleState)
    : result unit :=
  if negb (includes (ALLOWED from) to)
  then Throw (InvalidTransition from to)
  else Return tt.

(** A key of an object spread: the later source wins when it names
    the key. *)
Definition spread {A : Type} (later : option A) (earlier : A) : A :=
  match later with Some v => v | None => earlier end.

(** [{ ...snapshot, state: to, ...patch }], a fresh object. *)
Definition transitionSnapshot (snapshot : DeploymentSnapshot)
    (to : DeploymentLifecycleState) (patch : Patch)
    : result DeploymentSnapshot :=
  match assertTransitionAllowed (state snapshot) to with
  | Throw e => Throw e
  | Return _ =>
      Return
        {| id := spread (p_id patch) (id snapshot);
           name := spread (p_name patch) (name snapshot);
           config := spread (p_config patch) (config snapshot);
           state := spread (p_state patch) to;
           stageIndex := spread (p_stageIndex patch) (stageIndex snapshot);
           stageEnteredAt :=
             spread (p_stageEnteredAt patch) (stageEnteredAt snapshot);
           startedAt := spread (p_startedAt patch) (startedAt snapshot);
           completedAt :=
             spread (p_completedAt patch) (completedAt snapshot);
           finalState := spread (p_finalState patch) (finalState snapshot);
           pausedStageIndex :=
             spread (p_pausedStageIndex patch) (pausedStageIndex snapshot);
           canaryWeight :=
             spread (p_canaryWeight patch) (canaryWeight snapshot);
           reason := spread (p_reason patch) (reason snapshot) |}
  end.

End Machine.

(** ** statistics/distributions.ts *)

Module Distributions.

#[local] Open Scope float_scope.

(** The body of [regularizedIncompleteBeta] past its two range guards:
    the symmetry step and Lentz's continued fraction over [lnGamma].
    It is built on [Math.exp], [Math.log] and [Math.sin], whose values
    the language leaves to the engine, so it enters the model as a
    total function that the development never looks into. *)
Class BetaKernel : Type := {
  betaInterior : float -> float -> float -> float
}.

Section WithKernel.
Context `{BetaKernel}.

Definition regularizedIncompleteBeta (x a b : float) : float :=
  if PrimFloat.leb x 0 then 0
  else if JsNumber.geb x 1 then 1
  else betaInterior x a b.

Definition tDistCDF (t df : float) : float :=
  let x := df / (df + t * t) in
  let p := 0.5 * regularizedIncompleteBeta x (df / 2) 0.5 in
  if JsNumber.geb t 0 then 1 - p else p.

(** The bisection loop, [i] iterations from the bracket [(lo, hi)]. *)
Fixpoint bisect (i : nat) (lo hi p df : float) : float * float :=
  match i with
  | O => (lo, hi)
  | S i' =>
      let mid := (lo + hi) / 2 in
      if PrimFloat.ltb (tDistCDF mid df) p
      then bisect i' mid hi p df
      else bisect i' lo mid p df
  end.

Definition tDistQuantile (p df : float) : float :=
  let '(lo, hi) := bisect 120 (-50) 50 p df in
  (lo + hi) / 2.

End WithKernel.

#[global] Arguments tDistCDF : simpl never.
#[global] Arguments tDistQuantile : simpl never.

End Distributions.

(** ** statistics/welch.ts *)

Module Welch.
Import Distributions.

#[local] Open Scope float_scope.

Record TTestResult : Type := {
  tStatistic : float;
  degreesOfFreedom : float;
  pValueTwoSided : float;
  pValueOneSided : float;
  baselineMean : float;
  canaryMean : float;
  baselineStd : float;
  canaryStd : float;
  baselineN : nat;
  canaryN : nat;
  meanDifference : float;
  confidenceInterval95 : float * float
}.

(** [xs.reduce((sum, value) => sum + value, 0) / xs.length] *)
Definition sample_mean (xs : list float) : float :=
  fold_left (fun sum value => sum + value) xs 0
  / JsNumber.of_nat (List.length xs).

(** [xs.reduce((sum, value) => sum + (value - mean) ** 2, 0) / (n - 1)] *)
Definition sample_var (xs : list float) (mean : float) : float :=
  fold_left (fun sum value => sum + JsNumber.square (value - mean)) xs 0
  / JsNumber.of_Z (Z.of_nat (List.length xs) - 1).

(** [Math.sqrt(var1 / n1 + var2 / n2)] *)
Definition standard_error (baseline canary : list float) : float :=
  let n1 := JsNumber.of_nat (List.length baseline) in
  let n2 := JsNumber.of_nat (List.length canary) in
  let var1 := sample_var baseline (sample_mean baseline) in
  let var2 := sample_var canary (sample_mean canary) in
  PrimFloat.sqrt (var1 / n1 + var2 / n2).

Definition InsufficientSamples : exn :=
  Error "Error" "Need at least 2 samples for each group".

Section WithKernel.
Context `{BetaKernel}.

Definition welchTTest (baseline canary : list float)
    : result TTestResult :=
  let n1 := List.length baseline in
  let n2 := List.length canary in
  if (n1 <? 2)%nat || (n2 <? 2)%nat then Throw InsufficientSamples
  else
    let mean1 := sample_mean baseline in
    let mean2 := sample_mean canary in
    let var1 := sample_var baseline mean1 in
    let var2 := sample_var canary mean2 in
    let f1 := JsNumber.of_nat n1 in
    let f2 := JsNumber.of_nat n2 in
    let se := PrimFloat.sqrt (var1 / f1 + var2 / f2) in
    if PrimFloat.eqb se 0 then
      Return
        {| tStatistic := 0;
           degreesOfFreedom :=
             JsNumber.of_Z (Z.of_nat n1 + Z.of_nat n2 - 2);
           pValueTwoSided := 1;
           pValueOneSided := 0.5;
           baselineMean := mean1;
           canaryMean := mean2;
           baselineStd := PrimFloat.sqrt var1;
           canaryStd := PrimFloat.sqrt var2;
           baselineN := n1;
           canaryN := n2;
           meanDifference := mean2 - mean1;
           confidenceInterval95 := (0, 0) |}
    else
      let tStatistic := (mean2 - mean1) / se in
      let numerator := JsNumber.square (var1 / f1 + var2 / f2) in
      let denominator :=
        JsNumber.square (var1 / f1) / JsNumber.of_Z (Z.of_nat n1 - 1)
        + JsNumber.square (var2 / f2) / JsNumber.of_Z (Z.of_nat n2 - 1) in
      let degreesOfFreedom := numerator / denominator in
      let pValueTwoSided :=
        2 * tDistCDF (- (PrimFloat.abs tStatistic)) degreesOfFreedom in
      let pValueOneSided := tDistCDF tStatistic degreesOfFreedom in
      let critical := tDistQuantile 0.975 degreesOfFreedom in
      let delta := critical * se in
      Return
        {| tStatistic := tStatistic;
           degreesOfFreedom := degreesOfFreedom;
           pValueTwoSided := pValueTwoSided;
           pValueOneSided := pValueOneSided;
           baselineMean := mean1;
           canaryMean := mean2;
           baselineStd := PrimFloat.sqrt var1;
           canaryStd := PrimFloat.sqrt var2;
           baselineN := n1;
           canaryN := n2;
           meanDifference := mean2 - mean1;
           confidenceInterval95 :=
             (mean2 - mean1 - delta, mean2 - mean1 + delta) |}.

End WithKernel.

End Welch.

(** ** statistics/evaluate-gate.ts *)

Module EvaluateGate.
Import Distributions.

#[local] Open Scope float_scope.

Record StatsLike : Type := {
  count : Z;
  average : float;
  rawSamples : list float
}.

Inductive GateStatus : Type :=
| passing
| failing
| insufficient_data.

Record GateResult : Type := {
  scorer : string;
  status : GateStatus;
  pValue : option float;
  baselineMean : float;
  canaryMean : float;
  baselineN : Z;
  canaryN : Z;
  absoluteCheck : bool;
  comparisonCheck : bool;
  confidenceRequired : float
}.

Section WithKernel.
Context `{BetaKernel}.

Definition evaluateGate (gate : Schema.Gate)
    (baselineStats canaryStats : StatsLike) (minSamples : Z)
    : result GateResult :=
  let baselineMean := average baselineStats in
  let canaryMean := average canaryStats in
  let baselineN := count baselineStats in
  let canaryN := count canaryStats in
  if (canaryN <? minSamples)%Z || (baselineN <? 10)%Z then
    Return
      {| scorer := Schema.scorer gate;
         status := insufficient_data;
         pValue := None;
         baselineMean := baselineMean;
         canaryMean := canaryMean;
         baselineN := baselineN;
         canaryN := canaryN;
         absoluteCheck := false;
         comparisonCheck := false;
         confidenceRequired := Schema.confidence gate |}
  else
    let absoluteCheck := JsNumber.geb canaryMean (Schema.threshold gate) in
    let finish (comparisonCheck : bool) (pValue : option float) :=
      Return
        {| scorer := Schema.scorer gate;
           status :=
             if absoluteCheck && comparisonCheck then passing
             else failing;
           pValue := pValue;
           baselineMean := baselineMean;
           canaryMean := canaryMean;
           baselineN := baselineN;
           canaryN := canaryN;
           absoluteCheck := absoluteCheck;
           comparisonCheck := comparisonCheck;
           confidenceRequired := Schema.confidence gate |} in
    match Schema.comparison gate with
    | Schema.absolute_only => finish true None
    | cmp =>
        match Welch.welchTTest (rawSamples baselineStats)
                (rawSamples canaryStats) with
        | Throw e => Throw e
        | Return result =>
            let pValue := Welch.pValueOneSided result in
            match cmp with
            | Schema.not_worse_than_baseline =>
                finish
                  (JsNumber.geb pValue (1 - Schema.confidence gate))
                  (Some pValue)
            | _ =>
                finish
                  (JsNumber.geb (1 - pValue) (Schema.confidence gate))
                  (Some pValue)
            end
        end
    end.

End WithKernel.

End EvaluateGate.

(** ** The router: [chooseVersion] *)

Module Router.

Inductive Version : Type :=
| baseline
| canary.


Section WithHash.

(** [utils/hash.ts] is not part of the sources at hand; the router
    only needs [stableHash] as some fixed function from strings to
    integers. *)
Variable stableHash : string -> Z.


End WithHash.

End Router.

(** ** Keyed collections

    A [Map<string, V>] and a plain object used as a dictionary both keep
    their keys in insertion order; assigning to a key that is already
    there keeps its place. *)

Module Dict.

Section WithValue.
Context {V : Type}.

Fixpoint get (k : string) (d : list (string * V)) : option V :=
  match d with
  | [] => None
  | (k', v) :: d' => if String.eqb k k' then Some v else get k d'
  end.

Fixpoint set (k : string) (v : V) (d : list (string * V))
    : list (string * V) :=
  match d with
  | [] => [(k, v)]
  | (k', v') :: d' =>
      if String.eqb k k' then (k', v) :: d' else (k', v') :: set k v d'
  end.

End WithValue.

End Dict.

(** The results of successive [Math.random()] calls still to come. *)
Definition Tape : Type := list float.

Definition Math_random (tape : Tape) : float * Tape :=
  match tape with
  | [] => (0%float, [])
  | r :: tape' => (r, tape')
  end.

(** ** statistics/running.ts *)

Module Running.

#[local] Open Scope float_scope.

Record RunningStats : Type := {
  n : Z;
  mean : float;
  m2 : float;
  samples : list float
}.

Definition MAX_SAMPLES : Z := 10000.

(** [new RunningStats()] *)
Definition empty : RunningStats :=
  {| n := 0; mean := 0; m2 := 0; samples := [] |}.

(** [samples[index] = value] for an index inside the array. *)
Fixpoint store_at (index : nat) (value : float) (xs : list float)
    : list float :=
  match xs, index with
  | [], _ => []
  | _ :: xs', O => value :: xs'
  | x :: xs', S i => x :: store_at i value xs'
  end.

Definition add (value : float) (stats : RunningStats) (tape : Tape)
    : RunningStats * Tape :=
  let n' := (n stats + 1)%Z in
  let delta := value - mean stats in
  let mean' := mean stats + delta / JsNumber.of_Z n' in
  let delta2 := value - mean' in
  let m2' := m2 stats + delta * delta2 in
  if (Z.of_nat (List.length (samples stats)) <? MAX_SAMPLES)%Z then
    ({| n := n'; mean := mean'; m2 := m2';
        samples := samples stats ++ [value] |}, tape)
  else
    let '(r, tape') := Math_random tape in
    let index := JsNumber.floor (r * JsNumber.of_Z n') in
    if (index <? MAX_SAMPLES)%Z then
      ({| n := n'; mean := mean'; m2 := m2';
          samples := store_at (Z.to_nat index) value (samples stats) |},
       tape')
    else
      ({| n := n'; mean := mean'; m2 := m2'; samples := samples stats |},
       tape').

Definition count (stats : RunningStats) : Z := n stats.
Definition average (stats : RunningStats) : float := mean stats.

Definition variance (stats : RunningStats) : float :=
  if (1 <? n stats)%Z then m2 stats / JsNumber.of_Z (n stats - 1) else 0.

Definition standardDeviation (stats : RunningStats) : float :=
  PrimFloat.sqrt (variance stats).

Definition rawSamples (stats : RunningStats) : list float := samples stats.

End Running.

(** A [Date] object: a valid one holds its instant, an invalid one holds
    NaN. *)
Inductive JsDate : Type :=
| DateMs (ms : timestamp)
| InvalidDate.

(** [a > b] on dates compares their time values; NaN compares false. *)
Definition date_gtb (a b : JsDate) : bool :=
  match a, b with
  | DateMs x, DateMs y => (y <? x)%Z
  | _, _ => false
  end.

(** ** braintrust/btql-client.ts *)

Module Btql.

Record BTQLClientConfig : Type := {
  apiKey : string;
  apiUrl : string;
  path : string;
  queryTimeoutMs : Z;
  maxRetries : nat
}.

(** [created] holds the value of [new Date(row.created)], the only way
    the monitor reads the field; [metadata] is never read. *)
Record BTQLRow : Type := {
  id : option string;
  scores : list (string * option float);
  created : JsDate;
  error : option string
}.

Inductive HealthStatus : Type :=
| healthy
| degraded.

Record MonitorDiagnostics : Type := {
  status : HealthStatus;
  consecutiveFailures : nat;
  totalRequests : nat;
  totalRateLimited : nat;
  lastSuccessAt : option timestamp;
  lastErrorAt : option timestamp;
  lastError : option string;
  lastBackoffMs : option Z
}.

Record BTQLClient : Type := {
  config : BTQLClientConfig;
  diagnostics : MonitorDiagnostics
}.

(** [new BTQLClient(config)] *)
Definition create (cfg : BTQLClientConfig) : BTQLClient :=
  {| config := cfg;
     diagnostics :=
       {| status := healthy; consecutiveFailures := 0; totalRequests := 0;
          totalRateLimited := 0; lastSuccessAt := None; lastErrorAt := None;
          lastError := None; lastBackoffMs := None |} |}.

Definition getDiagnostics (client : BTQLClient) : MonitorDiagnostics :=
  diagnostics client.

(** The statement sent to the backend, kept as the values the monitor
    interpolates into its one SQL template. *)
Record Query : Type := {
  q_project : string;
  q_deploymentId : string;
  q_version : string;
  q_createdAfter : timestamp
}.

(** What one [fetch] comes to: the promise rejects (transport failure,
    or an [AbortError] when the timeout fires), or a response arrives
    with its status, its body as text and the outcome of parsing that
    body as JSON (the [data] member may be missing). *)
Inductive HttpOutcome : Type :=
| Rejected (e : exn)
| Response (status : Z) (text : string)
    (json : result (option (list BTQLRow))).

(** The world outside the process: what the [k]-th request of a client
    is answered, and what the clock shows when that answer is
    recorded. *)
Record Backend : Type := {
  respond : nat -> Query -> HttpOutcome;
  clock : nat -> timestamp
}.

Definition exn_name (e : exn) : string :=
  match e with
  | Error name _ => name
  | BTQLError _ _ => "BTQLError"
  end.

Definition exn_message (e : exn) : string :=
  match e with
  | Error _ message => message
  | BTQLError message _ => message
  end.

Definition isRetryable (e : exn) : bool :=
  if String.eqb (exn_name e) "AbortError" then true
  else
    match e with
    | BTQLError _ st =>
        match st with
        | None => true
        | Some s => if (s =? 0)%Z then true
                    else (s =? 429)%Z || (500 <=? s)%Z
        end
    | Error _ _ => true
    end.

Definition computeBackoffMs (attempt : nat) (r : float) : Z :=
  let base := Z.min (1000 * 2 ^ (Z.of_nat attempt - 1)) 16000 in
  let jitter := JsNumber.floor (r * 400)%float in
  base + jitter.

Definition recordSuccess (now : timestamp) (d : MonitorDiagnostics)
    : MonitorDiagnostics :=
  {| status := healthy; consecutiveFailures := 0;
     totalRequests := totalRequests d;
     totalRateLimited := totalRateLimited d;
     lastSuccessAt := Some now; lastErrorAt := None; lastError := None;
     lastBackoffMs := lastBackoffMs d |}.

Definition recordFailure (now : timestamp) (message : string)
    (d : MonitorDiagnostics) : MonitorDiagnostics :=
  {| status := degraded; consecutiveFailures := S (consecutiveFailures d);
     totalRequests := totalRequests d;
     totalRateLimited := totalRateLimited d;
     lastSuccessAt := lastSuccessAt d; lastErrorAt := Some now;
     lastError := Some message; lastBackoffMs := lastBackoffMs d |}.

Definition count_request (d : MonitorDiagnostics) : MonitorDiagnostics :=
  {| status := status d; consecutiveFailures := consecutiveFailures d;
     totalRequests := S (totalRequests d);
     totalRateLimited := totalRateLimited d;
     lastSuccessAt := lastSuccessAt d; lastErrorAt := lastErrorAt d;
     lastError := lastError d; lastBackoffMs := lastBackoffMs d |}.

Definition count_rate_limited (d : MonitorDiagnostics)
    : MonitorDiagnostics :=
  {| status := status d; consecutiveFailures := consecutiveFailures d;
     totalRequests := totalRequests d;
     totalRateLimited := S (totalRateLimited d);
     lastSuccessAt := lastSuccessAt d; lastErrorAt := lastErrorAt d;
     lastError := lastError d; lastBackoffMs := lastBackoffMs d |}.

Definition note_backoff (backoff : Z) (d : MonitorDiagnostics)
    : MonitorDiagnostics :=
  {| status := status d; consecutiveFailures := consecutiveFailures d;
     totalRequests := totalRequests d;
     totalRateLimited := totalRateLimited d;
     lastSuccessAt := lastSuccessAt d; lastErrorAt := lastErrorAt d;
     lastError := lastError d; lastBackoffMs := Some backoff |}.

(** What the [try] block of one loop iteration comes to: the rows, or
    the error that reaches the [catch] clause. *)
Definition attempt_once (outcome : HttpOutcome) (d : MonitorDiagnostics)
    : result (list BTQLRow) * MonitorDiagnostics :=
  match outcome with
  | Rejected e => (Throw e, d)
  | Response st text json =>
      if (st =? 429)%Z then
        (Throw (BTQLError "BTQL rate limited" (Some 429)),
         count_rate_limited d)
      else if negb ((200 <=? st)%Z && (st <=? 299)%Z) then
        (Throw (BTQLError
                  ("BTQL query failed (" ++ show_Z st ++ "): " ++ text)
                  (Some st)), d)
      else
        match json with
        | Throw e => (Throw e, d)
        | Return data => (Return (nullish data []), d)
        end
  end.

(** The [while (true)] loop of [query], entered with [attempt] failed
    attempts behind it.  [retriesLeft] is [maxRetries - attempt]: the
    test [attempt > maxRetries] after the increment succeeds exactly
    when it is 0, which is what makes the loop end. *)
Fixpoint query_loop (backend : Backend) (q : Query)
    (retriesLeft attempt : nat) (d : MonitorDiagnostics) (tape : Tape)
    : result (list BTQLRow) * MonitorDiagnostics * Tape :=
  let d1 := count_request d in
  let k := totalRequests d1 in
  match attempt_once (respond backend k q) d1 with
  | (Return rows, d2) => (Return rows, recordSuccess (clock backend k) d2, tape)
  | (Throw err, d2) =>
      let attempt' := S attempt in
      match retriesLeft with
      | O => (Throw err, recordFailure (clock backend k) (exn_message err) d2,
              tape)
      | S retriesLeft' =>
          if negb (isRetryable err) then
            (Throw err,
             recordFailure (clock backend k) (exn_message err) d2, tape)
          else
            let '(r, tape') := Math_random tape in
            let backoff := computeBackoffMs attempt' r in
            query_loop backend q retriesLeft' attempt'
              (note_backoff backoff d2) tape'
      end
  end.

Definition query (backend : Backend) (q : Query) (client : BTQLClient)
    (tape : Tape) : result (list BTQLRow) * BTQLClient * Tape :=
  let '(r, d, tape') :=
    query_loop backend q (maxRetries (config client)) 0
      (diagnostics client) tape in
  (r, {| config := config client; diagnostics := d |}, tape').

End Btql.

(** ** monitor/score-monitor.ts: [ScoreMonitor] *)

Module Monitor.
Import Btql.

Record ScoreMonitorConfig : Type := {
  deploymentId : string;
  projectName : string;
  pollInterval : string;
  stageStartTime : JsDate;
  scorerNames : list string;
  scorerLagGrace : string
}.

(** The interval timer is left out: when ticks fire is the caller's
    business, what a tick does is [poll]. *)
Record ScoreMonitor : Type := {
  btql : BTQLClient;
  config : ScoreMonitorConfig;
  baselineStats : list (string * Running.RunningStats);
  canaryStats : list (string * Running.RunningStats);
  baselineWatermark : JsDate;
  canaryWatermark : JsDate;
  inFlight : bool;
  canaryTotal : Z;
  canaryErrors : Z
}.

(** What the monitor emits to its listeners. *)
Inductive MonitorEvent : Type :=
| score_update (snapshot : Types.ScoreSnapshot)
| monitor_health (health : MonitorDiagnostics)
| error (e : exn).

Definition fresh_stats (names : list string)
    : list (string * Running.RunningStats) :=
  fold_left (fun stats scorer => Dict.set scorer Running.empty stats)
    names [].

Definition resetStats (m : ScoreMonitor) : ScoreMonitor :=
  {| btql := btql m; config := config m;
     baselineStats := fresh_stats (scorerNames (config m));
     canaryStats := fresh_stats (scorerNames (config m));
     baselineWatermark := baselineWatermark m;
     canaryWatermark := canaryWatermark m;
     inFlight := inFlight m;
     canaryTotal := canaryTotal m; canaryErrors := canaryErrors m |}.

(** [new ScoreMonitor(btql, config)] *)
Definition create (client : BTQLClient) (cfg : ScoreMonitorConfig)
    : ScoreMonitor :=
  resetStats
    {| btql := client; config := cfg;
       baselineStats := []; canaryStats := [];
       baselineWatermark := stageStartTime cfg;
       canaryWatermark := stageStartTime cfg;
       inFlight := false; canaryTotal := 0; canaryErrors := 0 |}.

Definition resetForStage (stageStart : JsDate) (m : ScoreMonitor)
    : ScoreMonitor :=
  resetStats
    {| btql := btql m; config := config m;
       baselineStats := baselineStats m; canaryStats := canaryStats m;
       baselineWatermark := stageStart;
       canaryWatermark := stageStart;
       inFlight := inFlight m;
       canaryTotal := 0; canaryErrors := 0 |}.

(** [getStats().errorRateCanary] *)
Definition errorRateCanary (m : ScoreMonitor) : float :=
  if (0 <? canaryTotal m)%Z
  then (JsNumber.of_Z (canaryErrors m) / JsNumber.of_Z (canaryTotal m))%float
  else 0%float.

Definition with_inFlight (b : bool) (m : ScoreMonitor) : ScoreMonitor :=
  {| btql := btql m; config := config m;
     baselineStats := baselineStats m; canaryStats := canaryStats m;
     baselineWatermark := baselineWatermark m;
     canaryWatermark := canaryWatermark m;
     inFlight := b;
     canaryTotal := canaryTotal m; canaryErrors := canaryErrors m |}.

Definition with_btql (client : BTQLClient) (m : ScoreMonitor)
    : ScoreMonitor :=
  {| btql := client; config := config m;
     baselineStats := baselineStats m; canaryStats := canaryStats m;
     baselineWatermark := baselineWatermark m;
     canaryWatermark := canaryWatermark m;
     inFlight := inFlight m;
     canaryTotal := canaryTotal m; canaryErrors := canaryErrors m |}.

Definition with_baselineWatermark (w : JsDate) (m : ScoreMonitor)
    : ScoreMonitor :=
  {| btql := btql m; config := config m;
     baselineStats := baselineStats m; canaryStats := canaryStats m;
     baselineWatermark := w;
     canaryWatermark := canaryWatermark m;
     inFlight := inFlight m;
     canaryTotal := canaryTotal m; canaryErrors := canaryErrors m |}.

Definition with_canaryWatermark (w : JsDate) (m : ScoreMonitor)
    : ScoreMonitor :=
  {| btql := btql m; config := config m;
     baselineStats := baselineStats m; canaryStats := canaryStats m;
     baselineWatermark := baselineWatermark m;
     canaryWatermark := w;
     inFlight := inFlight m;
     canaryTotal := canaryTotal m; canaryErrors := canaryErrors m |}.

(** [watermark.toISOString()] throws on an invalid date, before any
    request is made. *)
Definition fetchRows (backend : Backend) (version : Router.Version)
    (watermark : JsDate) (m : ScoreMonitor) (tape : Tape)
    : result (list BTQLRow) * ScoreMonitor * Tape :=
  match watermark with
  | InvalidDate => (Throw (Error "RangeError" "Invalid time value"), m, tape)
  | DateMs after =>
      let q := {| q_project := projectName (config m);
                  q_deploymentId := deploymentId (config m);
                  q_version := match version with
                               | Router.baseline => "baseline"
                               | Router.canary => "canary"
                               end;
                  q_createdAfter := after |} in
      let '(r, client, tape') := query backend q (btql m) tape in
      (r, with_btql client m, tape')
  end.

(** The inner loop of [consumeRows]: one row's scores into the stats of
    one version. *)
Fixpoint consume_scores (row : BTQLRow) (names : list string)
    (target : list (string * Running.RunningStats)) (tape : Tape)
    : list (string * Running.RunningStats) * Tape :=
  match names with
  | [] => (target, tape)
  | scorer :: names' =>
      match Dict.get scorer (scores row) with
      | Some (Some score) =>
          match Dict.get scorer target with
          | Some stats =>
              let '(stats', tape') := Running.add score stats tape in
              consume_scores row names' (Dict.set scorer stats' target) tape'
          | None => consume_scores row names' target tape
          end
      | _ => consume_scores row names' target tape
      end
  end.

(** [if (row.error)]: a non-empty error string. *)
Definition has_error (row : BTQLRow) : bool :=
  match Btql.error row with Some e => truthy e | None => false end.

Fixpoint consumeRows (version : Router.Version) (rows : list BTQLRow)
    (m : ScoreMonitor) (tape : Tape) : ScoreMonitor * Tape :=
  match rows with
  | [] => (m, tape)
  | row :: rows' =>
      match version with
      | Router.baseline =>
          let '(stats, tape') :=
            consume_scores row (scorerNames (config m)) (baselineStats m)
              tape in
          consumeRows version rows'
            {| btql := btql m; config := config m;
               baselineStats := stats; canaryStats := canaryStats m;
               baselineWatermark := baselineWatermark m;
               canaryWatermark := canaryWatermark m;
               inFlight := inFlight m;
               canaryTotal := canaryTotal m;
               canaryErrors := canaryErrors m |} tape'
      | Router.canary =>
          let '(stats, tape') :=
            consume_scores row (scorerNames (config m)) (canaryStats m)
              tape in
          consumeRows version rows'
            {| btql := btql m; config := config m;
               baselineStats := baselineStats m; canaryStats := stats;
               baselineWatermark := baselineWatermark m;
               canaryWatermark := canaryWatermark m;
               inFlight := inFlight m;
               canaryTotal := canaryTotal m + 1;
               canaryErrors := if has_error row then canaryErrors m + 1
                               else canaryErrors m |} tape'
      end
  end.

Definition maxCreatedAt (current : JsDate) (rows : list BTQLRow) : JsDate :=
  fold_left
    (fun max row => if date_gtb (created row) max then created row else max)
    rows current.

Definition summary_of (stats : Running.RunningStats)
    : Types.VersionScoreStats :=
  {| Types.mean := Running.average stats;
     Types.std := Running.standardDeviation stats;
     Types.n := Running.count stats |}.

(** [get(scorer)!] on a missing key yields [undefined], whose
    [.average] is a [TypeError]. *)
Fixpoint build_from (m : ScoreMonitor) (names : list string)
    (snapshot : Types.ScoreSnapshot) : result Types.ScoreSnapshot :=
  match names with
  | [] => Return snapshot
  | scorer :: names' =>
      match Dict.get scorer (baselineStats m),
            Dict.get scorer (canaryStats m) with
      | Some b, Some c =>
          build_from m names'
            (Dict.set scorer
               {| Types.baseline := summary_of b;
                  Types.canary := summary_of c |} snapshot)
      | _, _ =>
          Throw (Error "TypeError"
                   "Cannot read properties of undefined (reading 'average')")
      end
  end.

Definition buildSnapshot (m : ScoreMonitor) : result Types.ScoreSnapshot :=
  build_from m (scorerNames (config m)) [].

(** The [try] block of [poll], up to the snapshot it is about to emit. *)
Definition poll_try (backend : Backend) (m : ScoreMonitor) (tape : Tape)
    : result Types.ScoreSnapshot * ScoreMonitor * Tape :=
  match fetchRows backend Router.baseline (baselineWatermark m) m tape with
  | (Throw e, m1, t1) => (Throw e, m1, t1)
  | (Return baselineRows, m1, t1) =>
      let '(m2, t2) := consumeRows Router.baseline baselineRows m1 t1 in
      let m3 :=
        with_baselineWatermark
          (maxCreatedAt (baselineWatermark m2) baselineRows) m2 in
      match fetchRows backend Router.canary (canaryWatermark m3) m3 t2 with
      | (Throw e, m4, t4) => (Throw e, m4, t4)
      | (Return canaryRows, m4, t4) =>
          let '(m5, t5) := consumeRows Router.canary canaryRows m4 t4 in
          let m6 :=
            with_canaryWatermark
              (maxCreatedAt (canaryWatermark m5) canaryRows) m5 in
          (buildSnapshot m6, m6, t5)
      end
  end.

(** One tick.  The events are listed in the order they are emitted;
    listeners are taken to return normally. *)
Definition poll (backend : Backend) (m : ScoreMonitor) (tape : Tape)
    : ScoreMonitor * Tape * list MonitorEvent :=
  if inFlight m then (m, tape, [])
  else
    let '(r, m1, tape') := poll_try backend (with_inFlight true m) tape in
    let events :=
      match r with
      | Return snapshot =>
          [score_update snapshot; monitor_health (getDiagnostics (btql m1))]
      | Throw e =>
          [error e; monitor_health (getDiagnostics (btql m1))]
      end in
    (with_inFlight false m1, tape', events).

End Monitor.

(** ** utils/duration.ts *)

Module Duration.

Definition is_digit (c : ascii) : bool :=
  (48 <=? nat_of_ascii c)%nat && (nat_of_ascii c <=? 57)%nat.

(** The ASCII part of what [String.prototype.trim] strips. *)
Definition is_space (c : ascii) : bool :=
  let k := nat_of_ascii c in
  (k =? 32)%nat || ((9 <=? k)%nat && (k <=? 13)%nat).

Fixpoint trim_start (s : string) : string :=
  match s with
  | String c rest => if is_space c then trim_start rest else s
  | EmptyString => EmptyString
  end.

Fixpoint trim_end (s : string) : string :=
  match s with
  | EmptyString => EmptyString
  | String c rest =>
      match trim_end rest with
      | EmptyString => if is_space c then EmptyString
                       else String c EmptyString
      | rest' => String c rest'
      end
  end.

Definition trim (s : string) : string := trim_end (trim_start s).

(** The longest prefix matched by [\d+], read as a decimal number, the
    number of digits in it, and what follows it. *)
Fixpoint leading_digits (acc : Z) (seen : nat) (s : string)
    : Z * nat * string :=
  match s with
  | String c rest =>
      if is_digit c
      then leading_digits (10 * acc + (Z.of_nat (nat_of_ascii c) - 48))
             (S seen) rest
      else (acc, seen, s)
  | EmptyString => (acc, seen, s)
  end.

(** [MULTIPLIER], defined on the four units the pattern admits. *)
Definition MULTIPLIER (unit : string) : option Z :=
  if String.eqb unit "ms" then Some 1
  else if String.eqb unit "s" then Some 1000
  else if String.eqb unit "m" then Some 60000
  else if String.eqb unit "h" then Some 3600000
  else None.

Definition parseDuration (input : string) : result Z :=
  let invalid :=
    Throw (Error "Error"
             ("Invalid duration: " ++ input
              ++ ". Use formats like 30s, 10m, 1h.")) in
  let '(value, seen, unit) := leading_digits 0 0 (trim input) in
  match seen with
  | O => invalid
  | S _ =>
      match MULTIPLIER unit with
      | Some k => Return (value * k)
      | None => invalid
      end
  end.

End Duration.

(** ** contracts/events.ts *)

Module Events.

Inductive DeploymentEventType : Type :=
| deployment_started
| score_update
| gate_status
| stage_change
| rollback_triggered
| deployment_complete
| paused
| resumed
| monitor_health.

Inductive NextAction : Type :=
| hold
| auto_promote
| rollback.

(** The payload objects the controller builds, one shape per call
    site of [emit]. *)
Inductive EventData : Type :=
| DeploymentStarted (deployment_id name : string) (stage_index : nat)
    (canary_weight : Z)
| ScoreUpdate (scores : Types.ScoreSnapshot)
| GateStatus (gates : list EvaluateGate.GateResult)
    (next_action : NextAction) (time_remaining_ms : Z)
| StageChange (from to : nat) (canary_weight : Z)
| RollbackTriggered (reason : string) (stage_index : nat)
    (canary_weight : Z)
| DeploymentComplete (final_state : Types.FinalState)
| Paused (stage_index : nat)
| Resumed (stage_index : nat)
| MonitorHealth (status : Btql.HealthStatus)
    (consecutive_failures total_requests total_rate_limited : nat)
    (last_error : option string)
    (last_error_at last_success_at : option timestamp)
    (last_backoff_ms : Z)
| MonitorError (status : Btql.HealthStatus) (error : string).

Record DeploymentEventEnvelope : Type := {
  type : DeploymentEventType;
  timestamp_ : timestamp;
  deployment_id_ : string;
  data : EventData
}.

End Events.

(** ** db/store.ts

    The four tables are lists of rows in insertion order.  Of SQLite's
    constraints the primary key of [deployments] is modelled; JSON
    columns hold the value that was serialised. *)

Module Store.

Record DeploymentRow : Type := {
  id : string;
  name : string;
  config_json : Schema.DeploymentConfig;
  state : Types.DeploymentLifecycleState;
  stage_index : nat;
  stage_entered_at : timestamp;
  started_at : timestamp;
  completed_at : option timestamp;
  final_state : option Types.FinalState;
  paused_stage_index : option nat;
  canary_weight : Z;
  reason : option string
}.

Record TransitionRow : Type := {
  t_deployment_id : string;
  from_state : Types.DeploymentLifecycleState;
  to_state : Types.DeploymentLifecycleState;
  t_reason : option string;
  scores_snapshot : option Types.ScoreSnapshot
}.

Record ScoreSnapshotRow : Type := {
  s_deployment_id : string;
  s_stage_index : nat;
  scorer : string;
  baseline_mean : float;
  baseline_std : float;
  baseline_n : Z;
  canary_mean : float;
  canary_std : float;
  canary_n : Z
}.

Record SqliteStateStore : Type := {
  deployments : list DeploymentRow;
  state_transitions : list TransitionRow;
  score_snapshots : list ScoreSnapshotRow;
  events : list Events.DeploymentEventEnvelope
}.

(** A database file just initialised. *)
Definition empty : SqliteStateStore :=
  {| deployments := []; state_transitions := []; score_snapshots := [];
     events := [] |}.

Definition toRow (snapshot : Types.DeploymentSnapshot) : DeploymentRow :=
  {| id := Types.id snapshot;
     name := Types.name snapshot;
     config_json := Types.config snapshot;
     state := Types.state snapshot;
     stage_index := Types.stageIndex snapshot;
     stage_entered_at := Types.stageEnteredAt snapshot;
     started_at := Types.startedAt snapshot;
     completed_at := Types.completedAt snapshot;
     final_state := Types.finalState snapshot;
     paused_stage_index := Types.pausedStageIndex snapshot;
     canary_weight := Types.canaryWeight snapshot;
     reason := Types.reason snapshot |}.

Definition has_deployment (key : string) (db : SqliteStateStore) : bool :=
  existsb (fun row => String.eqb (id row) key) (deployments db).

Definition createDeployment (snapshot : Types.DeploymentSnapshot)
    (db : SqliteStateStore) : result SqliteStateStore :=
  if has_deployment (Types.id snapshot) db then
    Throw (Error "SqliteError" "UNIQUE constraint failed: deployments.id")
  else
    Return
      {| deployments := deployments db ++ [toRow snapshot];
         state_transitions := state_transitions db;
         score_snapshots := score_snapshots db;
         events := events db |}.

(** The [UPDATE ... SET ... WHERE id = @id]: name, config and start
    time of the stored row are not among the columns set. *)
Definition update_row (new old : DeploymentRow) : DeploymentRow :=
  if String.eqb (id old) (id new) then
    {| id := id old;
       name := name old;
       config_json := config_json old;
       state := state new;
       stage_index := stage_index new;
       stage_entered_at := stage_entered_at new;
       started_at := started_at old;
       completed_at := completed_at new;
       final_state := final_state new;
       paused_stage_index := paused_stage_index new;
       canary_weight := canary_weight new;
       reason := reason new |}
  else old.

Definition updateDeployment (snapshot : Types.DeploymentSnapshot)
    (db : SqliteStateStore) : SqliteStateStore :=
  {| deployments := map (update_row (toRow snapshot)) (deployments db);
     state_transitions := state_transitions db;
     score_snapshots := score_snapshots db;
     events := events db |}.

Definition recordTransition (deploymentId : string)
    (fromState toState : Types.DeploymentLifecycleState)
    (why : option string) (scoresSnapshot : option Types.ScoreSnapshot)
    (db : SqliteStateStore) : SqliteStateStore :=
  {| deployments := deployments db;
     state_transitions :=
       state_transitions db
       ++ [{| t_deployment_id := deploymentId;
              from_state := fromState;
              to_state := toState;
              t_reason := why;
              scores_snapshot := scoresSnapshot |}];
     score_snapshots := score_snapshots db;
     events := events db |}.

(** One row per entry of [Object.entries(scores)]. *)
Definition score_rows (deploymentId : string) (stageIndex : nat)
    (scores : Types.ScoreSnapshot) : list ScoreSnapshotRow :=
  map (fun '(name, summary) =>
         {| s_deployment_id := deploymentId;
            s_stage_index := stageIndex;
            scorer := name;
            baseline_mean := Types.mean (Types.baseline summary);
            baseline_std := Types.std (Types.baseline summary);
            baseline_n := Types.n (Types.baseline summary);
            canary_mean := Types.mean (Types.canary summary);
            canary_std := Types.std (Types.canary summary);
            canary_n := Types.n (Types.canary summary) |})
    scores.

Definition recordScoreSnapshot (deploymentId : string) (stageIndex : nat)
    (scores : Types.ScoreSnapshot) (db : SqliteStateStore)
    : SqliteStateStore :=
  {| deployments := deployments db;
     state_transitions := state_transitions db;
     score_snapshots :=
       score_snapshots db ++ score_rows deploymentId stageIndex scores;
     events := events db |}.

Definition recordEvent (event : Events.DeploymentEventEnvelope)
    (db : SqliteStateStore) : SqliteStateStore :=
  {| deployments := deployments db;
     state_transitions := state_transitions db;
     score_snapshots := score_snapshots db;
     events := events db ++ [event] |}.

(** [completed_at] and [final_state], when not null, hold a non-empty
    string and so are truthy; [reason] may hold the empty string, which
    is dropped like a null. *)
Definition fromRow (row : DeploymentRow) : Types.DeploymentSnapshot :=
  {| Types.id := id row;
     Types.name := name row;
     Types.config := config_json row;
     Types.state := state row;
     Types.stageIndex := stage_index row;
     Types.stageEnteredAt := stage_entered_at row;
     Types.startedAt := started_at row;
     Types.completedAt := completed_at row;
     Types.finalState := final_state row;
     Types.pausedStageIndex := paused_stage_index row;
     Types.canaryWeight := canary_weight row;
     Types.reason :=
       match reason row with
       | Some why => if truthy why then Some why else None
       | None => None
       end |}.

(** [SELECT * FROM deployments WHERE id = ?] *)
Definition getDeployment (key : string) (db : SqliteStateStore)
    : option Types.DeploymentSnapshot :=
  match find (fun row => String.eqb (id row) key) (deployments db) with
  | Some row => Some (fromRow row)
  | None => None
  end.

End Store.

(** ** The stage controller: [StageController] *)

Module Controller.
Import Distributions.

(** [StageDecision] of [state/types.ts]. *)
Record StageDecision : Type := {
  d_promote : bool;
  d_rollback : bool;
  d_nextAction : Events.NextAction;
  d_reason : option string;
  d_gateResults : list EvaluateGate.GateResult;
  d_timeRemainingMs : Z
}.

(** The fields of a [StageController], the store and the event bus it
    was constructed with, and the monitor it holds a reference to.
    [bus] lists the events handed to the bus so far, oldest first. *)
Record StageController : Type := {
  snapshot : option Types.DeploymentSnapshot;
  latestScores : Types.ScoreSnapshot;
  latestGates : list EvaluateGate.GateResult;
  nextAction : Events.NextAction;
  timeRemainingMs : option Z;
  monitor : option Monitor.ScoreMonitor;
  store : Store.SqliteStateStore;
  bus : list Events.DeploymentEventEnvelope
}.

(** [new StageController(store)] *)
Definition create (db : Store.SqliteStateStore) : StageController :=
  {| snapshot := None; latestScores := []; latestGates := [];
     nextAction := Events.hold; timeRemainingMs := None; monitor := None;
     store := db; bus := [] |}.

(** A method body: it runs on the controller's fields, returns or
    throws, and leaves the fields as they were at that point. *)
Definition M (A : Type) : Type :=
  StageController -> result A * StageController.

Definition ret {A : Type} (a : A) : M A := fun c => (Return a, c).

Definition throw {A : Type} (e : exn) : M A := fun c => (Throw e, c).

Definition bind {A B : Type} (m : M A) (k : A -> M B) : M B :=
  fun c =>
    match m c with
    | (Return a, c') => k a c'
    | (Throw e, c') => (Throw e, c')
    end.

Notation "x <- m ;; k" := (bind m (fun x => k))
  (at level 61, m at next level, right associativity).
Notation "m ;;; k" := (bind m (fun _ => k))
  (at level 61, right associativity).

Definition lift {A : Type} (r : result A) : M A := fun c => (r, c).

Definition with_snapshot (s : option Types.DeploymentSnapshot)
    (c : StageController) : StageController :=
  {| snapshot := s; latestScores := latestScores c;
     latestGates := latestGates c; nextAction := nextAction c;
     timeRemainingMs := timeRemainingMs c; monitor := monitor c;
     store := store c; bus := bus c |}.

Definition with_latestScores (scores : Types.ScoreSnapshot)
    (c : StageController) : StageController :=
  {| snapshot := snapshot c; latestScores := scores;
     latestGates := latestGates c; nextAction := nextAction c;
     timeRemainingMs := timeRemainingMs c; monitor := monitor c;
     store := store c; bus := bus c |}.

Definition with_decision (d : StageDecision) (c : StageController)
    : StageController :=
  {| snapshot := snapshot c; latestScores := latestScores c;
     latestGates := d_gateResults d; nextAction := d_nextAction d;
     timeRemainingMs := Some (d_timeRemainingMs d); monitor := monitor c;
     store := store c; bus := bus c |}.

Definition with_monitor (m : option Monitor.ScoreMonitor)
    (c : StageController) : StageController :=
  {| snapshot := snapshot c; latestScores := latestScores c;
     latestGates := latestGates c; nextAction := nextAction c;
     timeRemainingMs := timeRemainingMs c; monitor := m;
     store := store c; bus := bus c |}.

Definition with_store (db : Store.SqliteStateStore) (c : StageController)
    : StageController :=
  {| snapshot := snapshot c; latestScores := latestScores c;
     latestGates := latestGates c; nextAction := nextAction c;
     timeRemainingMs := timeRemainingMs c; monitor := monitor c;
     store := db; bus := bus c |}.

Definition with_bus (events : list Events.DeploymentEventEnvelope)
    (c : StageController) : StageController :=
  {| snapshot := snapshot c; latestScores := latestScores c;
     latestGates := latestGates c; nextAction := nextAction c;
     timeRemainingMs := timeRemainingMs c; monitor := monitor c;
     store := store c; bus := events |}.

(** [emit]: silently nothing without a deployment; otherwise the event
    is written to the store and handed to the bus. *)
Definition emit (now : timestamp) (type : Events.DeploymentEventType)
    (data : Events.EventData) : M unit :=
  fun c =>
    match snapshot c with
    | None => (Return tt, c)
    | Some s =>
        let event :=
          {| Events.type := type;
             Events.timestamp_ := now;
             Events.deployment_id_ := Types.id s;
             Events.data := data |} in
        (Return tt,
         with_bus (bus c ++ [event])
           (with_store (Store.recordEvent event (store c)) c))
    end.

Definition transition (to : Types.DeploymentLifecycleState)
    (why : string) (patch : Types.Patch) : M unit :=
  fun c =>
    match snapshot c with
    | None => (Throw (Error "Error" "No active deployment"), c)
    | Some s =>
        let from := Types.state s in
        match Machine.transitionSnapshot s to patch with
        | Throw e => (Throw e, c)
        | Return s' =>
            let c1 := with_snapshot (Some s') c in
            let c2 := with_store (Store.updateDeployment s' (store c1)) c1 in
            (Return tt,
             with_store
               (Store.recordTransition (Types.id s') from to (Some why)
                  (Some (latestScores c2)) (store c2)) c2)
        end
    end.

Definition undefined_property (prop : string) : exn :=
  Error "TypeError"
    ("Cannot read properties of undefined (reading '" ++ prop ++ "')").

Definition stages_of (s : Types.DeploymentSnapshot)
    : list Schema.DeploymentStage :=
  Schema.stages (Schema.deployment (Types.config s)).

(** [deploymentId] is the second argument, which callers may leave to
    its default [randomUUID()]; [now] is what [new Date()] shows. *)
Definition startDeployment (now : timestamp)
    (config : Schema.DeploymentConfig) (deploymentId : string)
    : M Types.DeploymentSnapshot :=
  match nth_error (Schema.stages (Schema.deployment config)) 0 with
  | None => throw (undefined_property "weight")
  | Some firstStage =>
      let pending :=
        {| Types.id := deploymentId;
           Types.name := Schema.name (Schema.deployment config);
           Types.config := config;
           Types.state := Types.PENDING;
           Types.stageIndex := 0;
           Types.stageEnteredAt := now;
           Types.startedAt := now;
           Types.completedAt := None;
           Types.finalState := None;
           Types.pausedStageIndex := None;
           Types.canaryWeight := Schema.weight firstStage;
           Types.reason := None |} in
      (fun c =>
         match Store.createDeployment pending (store c) with
         | Throw e => (Throw e, c)
         | Return db =>
             (Return tt, with_snapshot (Some pending) (with_store db c))
         end) ;;;
      emit now Events.deployment_started
        (Events.DeploymentStarted deploymentId (Types.name pending) 0
           (Schema.weight firstStage)) ;;;
      transition Types.STAGE "deployment_initialized"
        {| Types.p_id := None; Types.p_name := None;
           Types.p_config := None; Types.p_state := None;
           Types.p_stageIndex := None;
           Types.p_stageEnteredAt := Some now;
           Types.p_startedAt := None; Types.p_completedAt := None;
           Types.p_finalState := None; Types.p_pausedStageIndex := None;
           Types.p_canaryWeight := Some (Schema.weight firstStage);
           Types.p_reason := None |} ;;;
      (fun c =>
         match snapshot c with
         | Some s => (Return s, c)
         | None => (Return pending, c)
         end)
  end.

Definition attachMonitor (m : Monitor.ScoreMonitor) : M unit :=
  fun c => (Return tt, with_monitor (Some m) c).

Definition pause (now : timestamp) : M unit :=
  fun c =>
    match snapshot c with
    | Some s =>
        if negb (Types.state_eqb (Types.state s) Types.STAGE) then
          (Throw (Error "Error" "Cannot pause when deployment is not in STAGE"),
           c)
        else
          (transition Types.PAUSED "manual_pause"
             {| Types.p_id := None; Types.p_name := None;
                Types.p_config := None; Types.p_state := None;
                Types.p_stageIndex := None;
                Types.p_stageEnteredAt := None;
                Types.p_startedAt := None; Types.p_completedAt := None;
                Types.p_finalState := None;
                Types.p_pausedStageIndex := Some (Some (Types.stageIndex s));
                Types.p_canaryWeight := None;
                Types.p_reason := None |} ;;;
           (fun c' =>
              match snapshot c' with
              | Some s' =>
                  emit now Events.paused
                    (Events.Paused (Types.stageIndex s')) c'
              | None => (Return tt, c')
              end)) c
    | None =>
        (Throw (Error "Error" "Cannot pause when deployment is not in STAGE"),
         c)
    end.

Definition resume (now : timestamp) : M unit :=
  fun c =>
    match snapshot c with
    | Some s =>
        if negb (Types.state_eqb (Types.state s) Types.PAUSED) then
          (Throw (Error "Error" "Cannot resume when deployment is not paused"),
           c)
        else
          let stageIndex :=
            nullish (Types.pausedStageIndex s) (Types.stageIndex s) in
          match nth_error (stages_of s) stageIndex with
          | None => (Throw (undefined_property "weight"), c)
          | Some stage =>
              (transition Types.STAGE "manual_resume"
                 {| Types.p_id := None; Types.p_name := None;
                    Types.p_config := None; Types.p_state := None;
                    Types.p_stageIndex := Some stageIndex;
                    Types.p_stageEnteredAt := Some now;
                    Types.p_startedAt := None;
                    Types.p_completedAt := None;
                    Types.p_finalState := None;
                    Types.p_pausedStageIndex := Some None;
                    Types.p_canaryWeight := Some (Schema.weight stage);
                    Types.p_reason := None |} ;;;
               emit now Events.resumed (Events.Resumed stageIndex)) c
          end
    | None =>
        (Throw (Error "Error" "Cannot resume when deployment is not paused"),
         c)
    end.

(** [reason] is the argument, [None] when the caller leaves it to its
    default ["manual_rollback"]. *)
Definition rollback (now : timestamp) (reason : option string) : M unit :=
  fun c =>
    let why := nullish reason "manual_rollback" in
    let no_active :=
      (Throw (Error "Error" "No active deployment to rollback"), c) in
    match snapshot c with
    | None => no_active
    | Some s =>
        if Types.includes [Types.ROLLED_BACK; Types.PROMOTED; Types.IDLE]
             (Types.state s)
        then no_active
        else
          (transition Types.ROLLING_BACK why
             {| Types.p_id := None; Types.p_name := None;
                Types.p_config := None; Types.p_state := None;
                Types.p_stageIndex := None;
                Types.p_stageEnteredAt := None;
                Types.p_startedAt := None; Types.p_completedAt := None;
                Types.p_finalState := None;
                Types.p_pausedStageIndex := None;
                Types.p_canaryWeight := Some 0;
                Types.p_reason := Some (Some why) |} ;;;
           transition Types.ROLLED_BACK why
             {| Types.p_id := None; Types.p_name := None;
                Types.p_config := None; Types.p_state := None;
                Types.p_stageIndex := None;
                Types.p_stageEnteredAt := None;
                Types.p_startedAt := None;
                Types.p_completedAt := Some (Some now);
                Types.p_finalState := Some (Some Types.FinalRolledBack);
                Types.p_pausedStageIndex := None;
                Types.p_canaryWeight := Some 0;
                Types.p_reason := Some (Some why) |} ;;;
           (fun c' =>
              match snapshot c' with
              | Some s' =>
                  emit now Events.rollback_triggered
                    (Events.RollbackTriggered why (Types.stageIndex s') 0)
                    c'
              | None => (Throw (undefined_property "stageIndex"), c')
              end) ;;;
           emit now Events.deployment_complete
             (Events.DeploymentComplete Types.FinalRolledBack)) c
    end.

Definition advanceStage (now : timestamp) (why : string) : M unit :=
  fun c =>
    match snapshot c with
    | None => (Return tt, c)
    | Some s =>
        let stages := stages_of s in
        let nextIndex := S (Types.stageIndex s) in
        if (List.length stages <=? nextIndex)%nat then
          (transition Types.PROMOTED why
             {| Types.p_id := None; Types.p_name := None;
                Types.p_config := None; Types.p_state := None;
                Types.p_stageIndex := None;
                Types.p_stageEnteredAt := None;
                Types.p_startedAt := None;
                Types.p_completedAt := Some (Some now);
                Types.p_finalState := Some (Some Types.FinalPromoted);
                Types.p_pausedStageIndex := None;
                Types.p_canaryWeight := Some 100;
                Types.p_reason := None |} ;;;
           emit now Events.deployment_complete
             (Events.DeploymentComplete Types.FinalPromoted)) c
        else
          match nth_error stages nextIndex with
          | None => (Throw (undefined_property "weight"), c)
          | Some next =>
              let from := Types.stageIndex s in
              (transition Types.STAGE why
                 {| Types.p_id := None; Types.p_name := None;
                    Types.p_config := None; Types.p_state := None;
                    Types.p_stageIndex := Some nextIndex;
                    Types.p_stageEnteredAt := Some now;
                    Types.p_startedAt := None;
                    Types.p_completedAt := None;
                    Types.p_finalState := None;
                    Types.p_pausedStageIndex := None;
                    Types.p_canaryWeight := Some (Schema.weight next);
                    Types.p_reason := None |} ;;;
               (fun c' =>
                  match monitor c', snapshot c' with
                  | Some m, Some s' =>
                      (Return tt,
                       with_monitor
                         (Some (Monitor.resetForStage
                                  (DateMs (Types.stageEnteredAt s')) m)) c')
                  | _, _ => (Return tt, c')
                  end) ;;;
               emit now Events.stage_change
                 (Events.StageChange from nextIndex (Schema.weight next))) c
          end
    end.

(** [makeRunningStats], the stand-in built from a summary: [n] copies
    of the mean, pushed alternately up and down by the deviation. *)
Fixpoint synthetic_samples (mean std : float) (i : Z) (todo : nat)
    : list float :=
  match todo with
  | O => []
  | S todo' =>
      let offset := if (Z.rem i 2 =? 0)%Z then std else (- std)%float in
      (mean + offset)%float :: synthetic_samples mean std (i + 1) todo'
  end.

Definition makeRunningStats (mean std : float) (n : Z)
    : EvaluateGate.StatsLike :=
  let samples :=
    if (n <=? 1)%Z then (if (n =? 1)%Z then [mean] else [])
    else synthetic_samples mean std 0 (Z.to_nat n) in
  {| EvaluateGate.count := n;
     EvaluateGate.average := mean;
     EvaluateGate.rawSamples :=
       if (1 <? List.length samples)%nat then samples else [mean; mean] |}.

Definition is_regressing (gate : EvaluateGate.GateResult) : bool :=
  match EvaluateGate.status gate, EvaluateGate.pValue gate with
  | EvaluateGate.failing, Some p => PrimFloat.ltb p 0.01
  | _, _ => false
  end.

Definition is_absolute_drop (rollbackConfig : Schema.RollbackConfig)
    (gate : EvaluateGate.GateResult) : bool :=
  JsNumber.gtb
    (EvaluateGate.baselineMean gate - EvaluateGate.canaryMean gate)%float
    (Schema.on_score_drop rollbackConfig).

Definition evaluateRollback (c : StageController)
    (gates : list EvaluateGate.GateResult) (canaryErrorRate : float)
    : option string :=
  match snapshot c with
  | None => None
  | Some s =>
      let rollbackConfig :=
        Schema.rollback (Schema.deployment (Types.config s)) in
      match find is_regressing gates with
      | Some regressing =>
          Some ("score_regression:" ++ EvaluateGate.scorer regressing)
      | None =>
          match find (is_absolute_drop rollbackConfig) gates with
          | Some absoluteDrop =>
              Some ("absolute_drop:" ++ EvaluateGate.scorer absoluteDrop)
          | None =>
              if JsNumber.gtb canaryErrorRate
                   (Schema.on_error_rate rollbackConfig)
              then Some "error_rate_exceeded"
              else None
          end
      end
  end.

Definition currentCanaryErrorRate (c : StageController) : float :=
  match monitor c with
  | None => 0%float
  | Some m => Monitor.errorRateCanary m
  end.

(** [xs.map(f)] for an [f] that may throw: the first throw ends it. *)
Fixpoint map_result {A B : Type} (f : A -> result B) (xs : list A)
    : result (list B) :=
  match xs with
  | [] => Return []
  | x :: xs' =>
      match f x with
      | Throw e => Throw e
      | Return y =>
          match map_result f xs' with
          | Throw e => Throw e
          | Return ys => Return (y :: ys)
          end
      end
  end.

Section WithKernel.
Context `{BetaKernel}.

Definition evaluateGate (gate : Schema.Gate)
    (stage : Schema.DeploymentStage) (scores : Types.ScoreSnapshot)
    : result EvaluateGate.GateResult :=
  let entry := Dict.get (Schema.scorer gate) scores in
  let side (pick : Types.ScoreSummary -> Types.VersionScoreStats) :=
    match entry with
    | Some summary =>
        makeRunningStats (Types.mean (pick summary))
          (Types.std (pick summary)) (Types.n (pick summary))
    | None => makeRunningStats 0 0 0
    end in
  EvaluateGate.evaluateGate gate (side Types.baseline)
    (side Types.canary) (Schema.min_samples stage).

(** [now] is what [Date.now()] shows. *)
Definition evaluateStage (now : timestamp) (c : StageController)
    (scores : Types.ScoreSnapshot) (canaryErrorRate : float)
    : result StageDecision :=
  match snapshot c with
  | None =>
      Return {| d_promote := false; d_rollback := false;
                d_nextAction := Events.hold; d_reason := None;
                d_gateResults := []; d_timeRemainingMs := 0 |}
  | Some s =>
      match nth_error (stages_of s) (Types.stageIndex s) with
      | None => Throw (undefined_property "gates")
      | Some stage =>
          match map_result (fun gate => evaluateGate gate stage scores)
                  (Schema.gates stage) with
          | Throw e => Throw e
          | Return gateResults =>
              let stageEnteredAt := Types.stageEnteredAt s in
              let duration :=
                match Schema.duration stage with
                | Some d => if truthy d then Duration.parseDuration d
                            else Return 0
                | None => Return 0
                end in
              match duration with
              | Throw e => Throw e
              | Return durationMs =>
                  let elapsed := now - stageEnteredAt in
                  let timeRemainingMs := Z.max 0 (durationMs - elapsed) in
                  let durationElapsed := (durationMs <=? elapsed)%Z in
                  let samplesReached :=
                    forallb
                      (fun r => (Schema.min_samples stage
                                 <=? EvaluateGate.canaryN r)%Z)
                      gateResults in
                  let allPassing :=
                    (0 <? List.length gateResults)%nat
                    && forallb
                         (fun r =>
                            match EvaluateGate.status r with
                            | EvaluateGate.passing => true
                            | _ => false
                            end) gateResults in
                  match evaluateRollback c gateResults canaryErrorRate with
                  | Some rollbackReason =>
                      if truthy rollbackReason then
                        Return {| d_promote := false; d_rollback := true;
                                  d_nextAction := Events.rollback;
                                  d_reason := Some rollbackReason;
                                  d_gateResults := gateResults;
                                  d_timeRemainingMs := timeRemainingMs |}
                      else
                        let promote :=
                          allPassing && durationElapsed && samplesReached in
                        Return {| d_promote := promote;
                                  d_rollback := false;
                                  d_nextAction :=
                                    if promote then Events.auto_promote
                                    else Events.hold;
                                  d_reason := None;
                                  d_gateResults := gateResults;
                                  d_timeRemainingMs := timeRemainingMs |}
                  | None =>
                      let promote :=
                        allPassing && durationElapsed && samplesReached in
                      Return {| d_promote := promote;
                                d_rollback := false;
                                d_nextAction :=
                                  if promote then Events.auto_promote
                                  else Events.hold;
                                d_reason := None;
                                d_gateResults := gateResults;
                                d_timeRemainingMs := timeRemainingMs |}
                  end
              end
          end
      end
  end.

Definition promote (now : timestamp) (force : bool) : M unit :=
  fun c =>
    let cannot :=
      (Throw (Error "Error" "Cannot promote in current state"), c) in
    match snapshot c with
    | None => cannot
    | Some s =>
        if negb (Types.includes [Types.STAGE; Types.PAUSED]
                   (Types.state s))
        then cannot
        else if negb force && Types.state_eqb (Types.state s) Types.STAGE
        then
          match evaluateStage now c (latestScores c)
                  (currentCanaryErrorRate c) with
          | Throw e => (Throw e, c)
          | Return decision =>
              if negb (d_promote decision) then
                (Throw (Error "Error"
                   "Gate checks are not passing; use --force to override"),
                 c)
              else advanceStage now "manual_promote" c
          end
        else advanceStage now "manual_promote" c
    end.

Definition onScoreUpdate (now : timestamp)
    (scores : Types.ScoreSnapshot) : M unit :=
  fun c =>
    let c0 := with_latestScores scores c in
    match snapshot c0 with
    | None => (Return tt, c0)
    | Some s =>
        if negb (Types.state_eqb (Types.state s) Types.STAGE)
        then (Return tt, c0)
        else
          let c1 :=
            with_store
              (Store.recordScoreSnapshot (Types.id s)
                 (Types.stageIndex s) scores (store c0)) c0 in
          (emit now Events.score_update (Events.ScoreUpdate scores) ;;;
           decision <-
             (fun c2 =>
                (evaluateStage now c2 scores (currentCanaryErrorRate c2),
                 c2)) ;;
           (fun c3 => (Return tt, with_decision decision c3)) ;;;
           emit now Events.gate_status
             (Events.GateStatus (d_gateResults decision)
                (d_nextAction decision) (d_timeRemainingMs decision)) ;;;
           if d_rollback decision then
             rollback now
               (Some (nullish (d_reason decision) "rollback_triggered"))
           else if d_promote decision then
             advanceStage now "auto_promote"
           else ret tt) c1
    end.

End WithKernel.

(** The listener [attachMonitor] registers for [monitor_health]. *)
Definition onMonitorHealth (now : timestamp)
    (health : Btql.MonitorDiagnostics) : M unit :=
  emit now Events.monitor_health
    (Events.MonitorHealth (Btql.status health)
       (Btql.consecutiveFailures health) (Btql.totalRequests health)
       (Btql.totalRateLimited health) (Btql.lastError health)
       (Btql.lastErrorAt health) (Btql.lastSuccessAt health)
       (nullish (Btql.lastBackoffMs health) 0)).

(** The listener [attachMonitor] registers for [error]. *)
Definition onMonitorError (now : timestamp) (e : exn) : M unit :=
  emit now Events.monitor_health
    (Events.MonitorError Btql.degraded (Btql.exn_message e)).

End Controller.

(** ** The proxy server: [uniqueScorers] *)

Module Proxy.

(** [set.add(x)] on a [Set], which keeps its members in the order they
    were first added. *)
Definition set_add (x : string) (set : list string) : list string :=
  if existsb (String.eqb x) set then set else (set ++ [x])%list.

(** The scorers named by the gates of a configuration, each once; this
    is the list of scorers the proxy hands to the monitor. *)
Definition uniqueScorers (config : Schema.DeploymentConfig) : list string :=
  fold_left
    (fun set stage =>
       fold_left (fun set gate => set_add (Schema.scorer gate) set)
         (Schema.gates stage) set)
    (Schema.stages (Schema.deployment config)) [].

End Proxy.

(** ** Sample data

    The two-stage configuration of the end-to-end scenarios, used to run
    the definitions above on concrete inputs. *)

Module Samples.

Definition gateQ : Schema.Gate :=
  {| Schema.scorer := "Q";
     Schema.threshold := 0.5;
     Schema.comparison := Schema.not_worse_than_baseline;
     Schema.confidence := 0.95 |}.

Definition gateAbsolute : Schema.Gate :=
  {| Schema.scorer := "Q";
     Schema.threshold := 0.5;
     Schema.comparison := Schema.absolute_only;
     Schema.confidence := 0.95 |}.

Definition config : Schema.DeploymentConfig :=
  {| Schema.deployment :=
       {| Schema.name := "support-agent-v2.3";
          Schema.project := "support-agent";
          Schema.stages :=
            [ {| Schema.weight := 5;
                 Schema.duration := Some "1ms";
                 Schema.min_samples := 2;
                 Schema.gates := [gateQ] |};
              {| Schema.weight := 100;
                 Schema.duration := None;
                 Schema.min_samples := 30;
                 Schema.gates := [] |} ];
          Schema.rollback :=
            {| Schema.on_score_drop := 0.1;
               Schema.on_error_rate := 0.05;
               Schema.cooldown := "5m" |} |} |}.

(** A deployment in its first stage. *)
Definition staged : Types.DeploymentSnapshot :=
  {| Types.id := "dep-1";
     Types.name := "support-agent-v2.3";
     Types.config := config;
     Types.state := Types.STAGE;
     Types.stageIndex := 0;
     Types.stageEnteredAt := 1000;
     Types.startedAt := 1000;
     Types.completedAt := None;
     Types.finalState := None;
     Types.pausedStageIndex := None;
     Types.canaryWeight := 5;
     Types.reason := None |}.


Definition ten_scores : list float :=
  [0.9; 0.91; 0.89; 0.9; 0.91; 0.88; 0.9; 0.9; 0.91; 0.89]%float.

(** Ten baseline scores on record. *)
Definition baselineStats : EvaluateGate.StatsLike :=
  {| EvaluateGate.count := 10;
     EvaluateGate.average := 0.899;
     EvaluateGate.rawSamples := ten_scores |}.

(** A canary that has been scored once so far. *)
Definition singleCanary : EvaluateGate.StatsLike :=
  {| EvaluateGate.count := 1;
     EvaluateGate.average := 0.9;
     EvaluateGate.rawSamples := [0.9%float] |}.


Definition gateBetter : Schema.Gate :=
  {| Schema.scorer := "Q";
     Schema.threshold := 0.5;
     Schema.comparison := Schema.better_than_baseline;
     Schema.confidence := 0.95 |}.

(** A patch that names [state] and nothing else. *)
Definition state_patch (st : Types.DeploymentLifecycleState) : Types.Patch :=
  {| Types.p_id := None; Types.p_name := None; Types.p_config := None; Types.p_state := Some st;
     Types.p_stageIndex := None; Types.p_stageEnteredAt := None; Types.p_startedAt := None;
     Types.p_completedAt := None; Types.p_finalState := None;
     Types.p_pausedStageIndex := None; Types.p_canaryWeight := None;
     Types.p_reason := None |}.

(** Two gate results: one passing, one failing with strong evidence. *)
Definition passingGate : EvaluateGate.GateResult :=
  {| EvaluateGate.scorer := "Q";
     EvaluateGate.status := EvaluateGate.passing;
     EvaluateGate.pValue := Some 0.4%float;
     EvaluateGate.baselineMean := 0.9;
     EvaluateGate.canaryMean := 0.9;
     EvaluateGate.baselineN := 10;
     EvaluateGate.canaryN := 10;
     EvaluateGate.absoluteCheck := true;
     EvaluateGate.comparisonCheck := true;
     EvaluateGate.confidenceRequired := 0.95 |}.

Definition regressingGate : EvaluateGate.GateResult :=
  {| EvaluateGate.scorer := "Tone";
     EvaluateGate.status := EvaluateGate.failing;
     EvaluateGate.pValue := Some 0.001%float;
     EvaluateGate.baselineMean := 0.9;
     EvaluateGate.canaryMean := 0.77;
     EvaluateGate.baselineN := 10;
     EvaluateGate.canaryN := 10;
     EvaluateGate.absoluteCheck := true;
     EvaluateGate.comparisonCheck := false;
     EvaluateGate.confidenceRequired := 0.95 |}.

(** A deployment started on an empty database, and the same deployment
    paused a second later. *)
Definition started_controller : Controller.StageController :=
  snd (Controller.startDeployment 1000 config "dep-1"
         (Controller.create Store.empty)).

(** The snapshot [started_controller] holds. *)
Definition staged_at_start : Types.DeploymentSnapshot :=
  {| Types.id := "dep-1";
     Types.name := "support-agent-v2.3";
     Types.config := config;
     Types.state := Types.STAGE;
     Types.stageIndex := 0;
     Types.stageEnteredAt := 1000;
     Types.startedAt := 1000;
     Types.completedAt := None;
     Types.finalState := None;
     Types.pausedStageIndex := None;
     Types.canaryWeight := 5;
     Types.reason := None |}.

(** The snapshot [paused_controller] holds. *)
Definition paused_snapshot : Types.DeploymentSnapshot :=
  {| Types.id := "dep-1";
     Types.name := "support-agent-v2.3";
     Types.config := config;
     Types.state := Types.PAUSED;
     Types.stageIndex := 0;
     Types.stageEnteredAt := 1000;
     Types.startedAt := 1000;
     Types.completedAt := None;
     Types.finalState := None;
     Types.pausedStageIndex := Some 0%nat;
     Types.canaryWeight := 5;
     Types.reason := None |}.

Definition paused_controller : Controller.StageController :=
  snd (Controller.pause 2000 started_controller).

(** A monitor for the scorer of the sample gate, its client allowed no
    retries, and a backend that answers the first request with one
    baseline row created at instant 2000 and every later request with a
    client error. *)
Definition monitor0 : Monitor.ScoreMonitor :=
  Monitor.create
    (Btql.create
       {| Btql.apiKey := "key";
          Btql.apiUrl := "https://api.braintrust.dev";
          Btql.path := "/btql";
          Btql.queryTimeoutMs := 10000;
          Btql.maxRetries := 0 |})
    {| Monitor.deploymentId := "dep-1";
       Monitor.projectName := "support-agent";
       Monitor.pollInterval := "30s";
       Monitor.stageStartTime := DateMs 1000;
       Monitor.scorerNames := ["Q"];
       Monitor.scorerLagGrace := "2m" |}.

Definition baseline_row : Btql.BTQLRow :=
  {| Btql.id := Some "row-1";
     Btql.scores := [("Q", Some 0.9%float)];
     Btql.created := DateMs 2000;
     Btql.error := None |}.


Definition backend0 : Btql.Backend :=
  {| Btql.respond :=
       fun k _ =>
         match k with
         | 1%nat => Btql.Response 200 "" (Return (Some [baseline_row]))
         | _ => Btql.Response 400 "bad request" (Return None)
         end;
     Btql.clock := fun _ => 5000 |}.

(** The first stage of the sample configuration. *)
Definition first_stage : Schema.DeploymentStage :=
  {| Schema.weight := 5;
     Schema.duration := Some "1ms";
     Schema.min_samples := 2;
     Schema.gates := [gateQ] |}.

(** Ten baseline rows scored so far, and no canary row yet. *)
Definition scores_no_canary : Types.ScoreSnapshot :=
  [("Q",
    {| Types.baseline := {| Types.mean := 0.9; Types.std := 0.01;
                            Types.n := 10 |};
       Types.canary := {| Types.mean := 0; Types.std := 0;
                          Types.n := 0 |} |})].

(** What [evaluateStage] decides for the started deployment before any
    score has arrived: the one gate lacks data, so hold. *)
Definition hold_decision : Controller.StageDecision :=
  {| Controller.d_promote := false;
     Controller.d_rollback := false;
     Controller.d_nextAction := Events.hold;
     Controller.d_reason := None;
     Controller.d_gateResults :=
       [ {| EvaluateGate.scorer := "Q";
            EvaluateGate.status := EvaluateGate.insufficient_data;
            EvaluateGate.pValue := None;
            EvaluateGate.baselineMean := 0;
            EvaluateGate.canaryMean := 0;
            EvaluateGate.baselineN := 0;
            EvaluateGate.canaryN := 0;
            EvaluateGate.absoluteCheck := false;
            EvaluateGate.comparisonCheck := false;
            EvaluateGate.confidenceRequired := 0.95 |} ];
     Controller.d_timeRemainingMs := 0 |}.

(** The sample deployment in its second and last stage, which has no
    gate. *)
Definition final_stage : Schema.DeploymentStage :=
  {| Schema.weight := 100;
     Schema.duration := None;
     Schema.min_samples := 30;
     Schema.gates := [] |}.

Definition in_final_stage : Types.DeploymentSnapshot :=
  {| Types.id := "dep-1";
     Types.name := "support-agent-v2.3";
     Types.config := config;
     Types.state := Types.STAGE;
     Types.stageIndex := 1;
     Types.stageEnteredAt := 5000;
     Types.startedAt := 1000;
     Types.completedAt := None;
     Types.finalState := None;
     Types.pausedStageIndex := None;
     Types.canaryWeight := 100;
     Types.reason := None |}.

Definition final_stage_controller : Controller.StageController :=
  snd (Controller.advanceStage 5000 "manual_promote" started_controller).

(** The started deployment rolled back by hand at instant 3000, and the
    snapshot the controller then holds. *)
Definition rolled_back_controller : Controller.StageController :=
  snd (Controller.rollback 3000 None started_controller).

Definition rolled_back_snapshot : Types.DeploymentSnapshot :=
  {| Types.id := "dep-1";
     Types.name := "support-agent-v2.3";
     Types.config := config;
     Types.state := Types.ROLLED_BACK;
     Types.stageIndex := 0;
     Types.stageEnteredAt := 1000;
     Types.startedAt := 1000;
     Types.completedAt := Some 3000;
     Types.finalState := Some Types.FinalRolledBack;
     Types.pausedStageIndex := None;
     Types.canaryWeight := 0;
     Types.reason := Some "manual_rollback" |}.

End Samples.

(** ** Statements

    The properties below are phrased with these definitions. *)

Module Spec.
Import Types.

(** The transition table, as pairs. *)
Definition allowed_pairs
    : list (DeploymentLifecycleState * DeploymentLifecycleState) :=
  [ (IDLE, PENDING);
    (PENDING, STAGE); (PENDING, ROLLING_BACK);
    (STAGE, STAGE); (STAGE, PAUSED); (STAGE, ROLLING_BACK);
    (STAGE, PROMOTED);
    (PAUSED, STAGE); (PAUSED, ROLLING_BACK);
    (ROLLING_BACK, ROLLED_BACK) ].

(** A statement made for every choice of the distribution kernel. *)
Definition forall_kernels (P : Distributions.BetaKernel -> Prop) : Prop :=
  forall K : Distributions.BetaKernel, P K.

(** A field after a patch: the patch's value when the patch names the
    field, the value [otherwise] when it does not. *)
Definition patched {A : Type} (named : option A) (otherwise after : A)
    : Prop :=
  match named with
  | Some v => after = v
  | None => after = otherwise
  end.



(** A gate result that shows a regression: failing, with a p-value, and
    that p-value below 0.01. *)
Definition regressing (g : EvaluateGate.GateResult) : Prop :=
  EvaluateGate.status g = EvaluateGate.failing
  /\ exists p,
       EvaluateGate.pValue g = Some p /\ PrimFloat.ltb p 0.01 = true.

(** A gate result whose canary mean lies below the baseline mean by more
    than the configured drop. *)
Definition dropping (rollbackConfig : Schema.RollbackConfig)
    (g : EvaluateGate.GateResult) : Prop :=
  JsNumber.gtb
    (EvaluateGate.baselineMean g - EvaluateGate.canaryMean g)%float
    (Schema.on_score_drop rollbackConfig) = true.

(** [g] is the first element of [l] that satisfies [P]. *)
Definition first_such {A : Type} (P : A -> Prop) (l : list A) (g : A)
    : Prop :=
  exists pre post,
    l = (pre ++ g :: post)%list /\ Forall (fun x => ~ P x) pre /\ P g.

Section Reachability.
Context `{Distributions.BetaKernel}.

(** The controllers that arise from a fresh one by calls of its
    methods, with any arguments and at any time, whether the call
    returns or throws.  The attached monitor is an object of its own
    that its timer mutates between calls. *)
Inductive reachable : Controller.StageController -> Prop :=
| reach_create db : reachable (Controller.create db)
| reach_startDeployment c now config deploymentId :
    reachable c ->
    reachable (snd (Controller.startDeployment now config deploymentId c))
| reach_onScoreUpdate c now scores :
    reachable c ->
    reachable (snd (Controller.onScoreUpdate now scores c))
| reach_advanceStage c now why :
    reachable c ->
    reachable (snd (Controller.advanceStage now why c))
| reach_pause c now :
    reachable c -> reachable (snd (Controller.pause now c))
| reach_resume c now :
    reachable c -> reachable (snd (Controller.resume now c))
| reach_promote c now force :
    reachable c -> reachable (snd (Controller.promote now force c))
| reach_rollback c now why :
    reachable c -> reachable (snd (Controller.rollback now why c))
| reach_attachMonitor c m :
    reachable c -> reachable (snd (Controller.attachMonitor m c))
| reach_monitor_health c now health :
    reachable c ->
    reachable (snd (Controller.onMonitorHealth now health c))
| reach_monitor_error c now e :
    reachable c -> reachable (snd (Controller.onMonitorError now e c))
| reach_monitor_tick c m :
    reachable c -> Controller.monitor c <> None ->
    reachable (Controller.with_monitor (Some m) c).

End Reachability.





(** The decimal numeral of [n]: no sign, no leading zero. *)
Definition decimal (n : nat) : string :=
  NilZero.string_of_uint (Nat.to_uint n).

(** Every character of [s] satisfies [p]. *)
Fixpoint all_chars (p : ascii -> bool) (s : string) : bool :=
  match s with
  | EmptyString => true
  | String c rest => p c && all_chars p rest
  end.

(** [add] called with each of [values] in turn. *)
Fixpoint add_all (values : list float) (stats : Running.RunningStats)
    (tape : Tape) : Running.RunningStats * Tape :=
  match values with
  | [] => (stats, tape)
  | value :: values' =>
      let '(stats', tape') := Running.add value stats tape in
      add_all values' stats' tape'
  end.

(** What a [RunningStats] object satisfies between calls: it has kept
    one sample per value seen, up to its capacity. *)
Definition reservoir_ok (stats : Running.RunningStats) : Prop :=
  Z.of_nat (List.length (Running.samples stats))
  = Z.min (Running.n stats) Running.MAX_SAMPLES.

(** [a] is no later than [b]; an invalid date stands apart from the
    valid ones. *)
Definition date_le (a b : JsDate) : Prop :=
  match a, b with
  | DateMs x, DateMs y => x <= y
  | InvalidDate, InvalidDate => True
  | _, _ => False
  end.

(** The row carries a number under the scorer's name. *)
Definition has_score (scorer : string) (row : Btql.BTQLRow) : bool :=
  match Dict.get scorer (Btql.scores row) with
  | Some (Some _) => true
  | _ => false
  end.

(** The monitors that arise from a newly constructed one by stage
    resets and ticks, against any backend. *)
Inductive live : Monitor.ScoreMonitor -> Prop :=
| live_create client cfg : live (Monitor.create client cfg)
| live_resetForStage stageStart m :
    live m -> live (Monitor.resetForStage stageStart m)
| live_poll backend m tape :
    live m -> live (fst (fst (Monitor.poll backend m tape))).

(** Both maps of statistics have an entry for every configured scorer,
    and the canary's errors are counted among its rows. *)
Definition monitor_ok (m : Monitor.ScoreMonitor) : Prop :=
  (forall x,
      In x (Monitor.scorerNames (Monitor.config m)) ->
      Dict.get x (Monitor.baselineStats m) <> None
      /\ Dict.get x (Monitor.canaryStats m) <> None)
  /\ 0 <= Monitor.canaryErrors m <= Monitor.canaryTotal m.

(** A call of one of the controller's public methods, or of one of the
    listeners it registers with the monitor. *)
Inductive Call : Type :=
| call_startDeployment (now : timestamp) (config : Schema.DeploymentConfig)
    (deploymentId : string)
| call_pause (now : timestamp)
| call_resume (now : timestamp)
| call_promote (now : timestamp) (force : bool)
| call_rollback (now : timestamp) (why : option string)
| call_onScoreUpdate (now : timestamp) (scores : ScoreSnapshot)
| call_attachMonitor (m : Monitor.ScoreMonitor)
| call_onMonitorHealth (now : timestamp) (health : Btql.MonitorDiagnostics)
| call_onMonitorError (now : timestamp) (e : exn).

(** The calls that work on the current deployment, as opposed to
    starting a new one. *)
Definition on_current (call : Call) : Prop :=
  match call with
  | call_startDeployment _ _ _ => False
  | _ => True
  end.

(** The calls an operator makes to steer the deployment. *)
Definition manual (call : Call) : Prop :=
  match call with
  | call_pause _ | call_resume _ | call_promote _ _ | call_rollback _ _ =>
      True
  | _ => False
  end.

Section Calls.
Context `{Distributions.BetaKernel}.

Definition perform (call : Call) : Controller.M unit :=
  match call with
  | call_startDeployment now config deploymentId =>
      Controller.bind (Controller.startDeployment now config deploymentId)
        (fun _ => Controller.ret tt)
  | call_pause now => Controller.pause now
  | call_resume now => Controller.resume now
  | call_promote now force => Controller.promote now force
  | call_rollback now why => Controller.rollback now why
  | call_onScoreUpdate now scores => Controller.onScoreUpdate now scores
  | call_attachMonitor m => Controller.attachMonitor m
  | call_onMonitorHealth now health => Controller.onMonitorHealth now health
  | call_onMonitorError now e => Controller.onMonitorError now e
  end.

End Calls.

(** The patches the controller's methods hand to [transition]: they
    name neither the identity of the deployment nor its state; a stage
    index they name is the next one, or, on leaving PAUSED, the one the
    deployment was paused at; and on entering PAUSED they record the
    current stage index. *)
Definition patch_in_use (c : Controller.StageController)
    (to : DeploymentLifecycleState) (patch : Patch) : Prop :=
  p_id patch = None /\ p_name patch = None /\ p_config patch = None
  /\ p_state patch = None /\ p_startedAt patch = None
  /\ match p_stageIndex patch with
     | None => True
     | Some i =>
         exists s,
           Controller.snapshot c = Some s
           /\ (i = S (stageIndex s)
               \/ (state s = PAUSED
                   /\ i = nullish (pausedStageIndex s) (stageIndex s)))
     end
  /\ (to = PAUSED ->
      p_stageIndex patch = None
      /\ exists s,
           Controller.snapshot c = Some s
           /\ p_pausedStageIndex patch = Some (Some (stageIndex s))).

(** The steps the controller's methods are made of. *)
Inductive primitive
    : Controller.StageController -> Controller.StageController -> Prop :=
| prim_emit now type data c :
    primitive c (snd (Controller.emit now type data c))
| prim_transition to why patch c :
    patch_in_use c to patch ->
    primitive c (snd (Controller.transition to why patch c))
| prim_latestScores scores c :
    primitive c (Controller.with_latestScores scores c)
| prim_decision d c : primitive c (Controller.with_decision d c)
| prim_monitor m c : primitive c (Controller.with_monitor m c)
| prim_recordScoreSnapshot deploymentId stageIndex scores c :
    primitive c
      (Controller.with_store
         (Store.recordScoreSnapshot deploymentId stageIndex scores
            (Controller.store c)) c).

(** A finite sequence of steps. *)
Inductive steps
    : Controller.StageController -> Controller.StageController -> Prop :=
| steps_done c : steps c c
| steps_more c c1 c2 : primitive c c1 -> steps c1 c2 -> steps c c2.

Definition walks {A : Type} (m : Controller.M A) : Prop :=
  forall c, steps c (snd (m c)).

(** The first thing [startDeployment] does when it gets that far: the
    pending snapshot is inserted into the store and becomes current. *)
Definition launched (c c' : Controller.StageController) : Prop :=
  exists pending db,
    Store.createDeployment pending (Controller.store c) = Return db
    /\ state pending = PENDING
    /\ pausedStageIndex pending = None
    /\ c' = Controller.with_snapshot (Some pending)
              (Controller.with_store db c).

(** The history a controller keeps only grows: the transition, score
    and event tables are appended to, the deployments table keeps its
    rows' identities, and what is appended to the event table is what
    is handed to the bus. *)
Definition extends (c c' : Controller.StageController) : Prop :=
  (exists rows,
      Store.state_transitions (Controller.store c')
      = (Store.state_transitions (Controller.store c) ++ rows)%list)
  /\ (exists rows,
         Store.score_snapshots (Controller.store c')
         = (Store.score_snapshots (Controller.store c) ++ rows)%list)
  /\ (exists ids,
         map Store.id (Store.deployments (Controller.store c'))
         = (map Store.id (Store.deployments (Controller.store c)) ++ ids)%list)
  /\ (exists evs,
         Store.events (Controller.store c')
         = (Store.events (Controller.store c) ++ evs)%list
         /\ Controller.bus c' = (Controller.bus c ++ evs)%list).

(** The row the store holds under the current deployment's id is the
    current snapshot. *)
Definition in_sync (c : Controller.StageController) : Prop :=
  forall s,
    Controller.snapshot c = Some s ->
    find (fun row => String.eqb (Store.id row) (id s))
      (Store.deployments (Controller.store c))
    = Some (Store.toRow s).

(** A paused deployment remembers the stage it was paused at. *)
Definition paused_index_ok (c : Controller.StageController) : Prop :=
  forall s,
    Controller.snapshot c = Some s ->
    state s = PAUSED -> pausedStageIndex s = Some (stageIndex s).

(** [c'] holds the deployment [c] holds, at the same stage or a later
    one. *)
Definition onward (c c' : Controller.StageController) : Prop :=
  forall s,
    Controller.snapshot c = Some s ->
    exists s',
      Controller.snapshot c' = Some s'
      /\ id s' = id s /\ name s' = name s /\ config s' = config s
      /\ startedAt s' = startedAt s
      /\ (stageIndex s <= stageIndex s')%nat.

End Spec.

(** * Properties *)

(** ** The lifecycle state machine *)

Module MachineFacts.
Import Types Machine Spec.


Lemma allowed_pairs_ALLOWED from to :
  In (from, to) allowed_pairs <-> includes (ALLOWED from) to = true.
Proof.
  split.
  - intros Hin. unfold allowed_pairs in Hin. simpl in Hin.
    repeat (destruct Hin as [Heq | Hin];
            [inversion Heq; subst; reflexivity | ]).
    contradiction.
  - destruct from, to; simpl; intros Hinc; try discriminate;
      unfold allowed_pairs; simpl; tauto.
Qed.

(** C4.  A transition is accepted exactly when the pair is in the
    table; every other pair throws the invalid-transition error, also
    through [transitionSnapshot]; PENDING to ROLLING_BACK is accepted
    and the two final states accept nothing. *)
Theorem transition_allowed_iff_table :
  forall from to,
    (In (from, to) allowed_pairs <->
     assertTransitionAllowed from to = Return tt)
    /\ (~ In (from, to) allowed_pairs <->
        assertTransitionAllowed from to = Throw (InvalidTransition from to))
    /\ (forall s patch,
           state s = from ->
           (In (from, to) allowed_pairs <->
            returns (transitionSnapshot s to patch) = true)
           /\ (~ In (from, to) allowed_pairs <->
               transitionSnapshot s to patch
               = Throw (InvalidTransition from to)))
    /\ assertTransitionAllowed PENDING ROLLING_BACK = Return tt
    /\ assertTransitionAllowed ROLLED_BACK to
       = Throw (InvalidTransition ROLLED_BACK to)
    /\ assertTransitionAllowed PROMOTED to
       = Throw (InvalidTransition PROMOTED to).
Proof.
  intros from to.
  assert (Hdec : includes (ALLOWED from) to = true
                 \/ includes (ALLOWED from) to = false)
    by (destruct (includes (ALLOWED from) to); auto).
  pose proof (allowed_pairs_ALLOWED from to) as Htab.
  repeat split.
  - intros Hin. apply Htab in Hin. unfold assertTransitionAllowed.
    rewrite Hin. reflexivity.
  - unfold assertTransitionAllowed. intros Hret. apply Htab.
    destruct (includes (ALLOWED from) to); [reflexivity | discriminate].
  - intros Hnot. unfold assertTransitionAllowed.
    destruct Hdec as [Hyes | Hno].
    + exfalso. apply Hnot, Htab, Hyes.
    + rewrite Hno. reflexivity.
  - unfold assertTransitionAllowed. intros Hthrow Hin.
    apply Htab in Hin. rewrite Hin in Hthrow. discriminate.
  - intros Hin. apply Htab in Hin. unfold transitionSnapshot,
      assertTransitionAllowed. rewrite H, Hin. reflexivity.
  - unfold transitionSnapshot, assertTransitionAllowed. rewrite H.
    intros Hret. apply Htab.
    destruct (includes (ALLOWED from) to); [reflexivity | discriminate].
  - intros Hnot. unfold transitionSnapshot, assertTransitionAllowed.
    rewrite H. destruct Hdec as [Hyes | Hno].
    + exfalso. apply Hnot, Htab, Hyes.
    + rewrite Hno. reflexivity.
  - unfold transitionSnapshot, assertTransitionAllowed. rewrite H.
    intros Hthrow Hin. apply Htab in Hin. rewrite Hin in Hthrow.
    discriminate.
Qed.

End MachineFacts.

(** ** The frame of [transitionSnapshot] *)

Module SnapshotFacts.
Import Types Machine Spec.

(** C10, as stated, fails: STAGE to PAUSED is an allowed transition,
    yet with a patch that names [state] the snapshot returned is not
    in the target state, because the patch is spread last. *)
Lemma transitionSnapshot_patch_overrides_target :
  In (state Samples.staged, PAUSED) allowed_pairs
  /\ exists s',
       transitionSnapshot Samples.staged PAUSED (Samples.state_patch PROMOTED)
       = Return s'
       /\ state s' = PROMOTED
       /\ state s' <> PAUSED.
Proof.
  split.
  - simpl. tauto.
  - eexists. split; [reflexivity | ]. simpl. split; [reflexivity | ].
    discriminate.
Qed.

(** C10, amended.  For an allowed target the call returns a snapshot
    in which every field named by the patch holds the patch's value
    and every other field holds what the input snapshot held, except
    that [state], when the patch does not name it, is the target.  The
    input is a value of the embedding and is not changed by the
    call. *)
Theorem transitionSnapshot_frame :
  forall s to patch,
    In (state s, to) allowed_pairs ->
    exists s',
      transitionSnapshot s to patch = Return s'
      /\ patched (p_state patch) to (state s')
      /\ patched (p_id patch) (id s) (id s')
      /\ patched (p_name patch) (name s) (name s')
      /\ patched (p_config patch) (config s) (config s')
      /\ patched (p_stageIndex patch) (stageIndex s) (stageIndex s')
      /\ patched (p_stageEnteredAt patch) (stageEnteredAt s)
           (stageEnteredAt s')
      /\ patched (p_startedAt patch) (startedAt s) (startedAt s')
      /\ patched (p_completedAt patch) (completedAt s) (completedAt s')
      /\ patched (p_finalState patch) (finalState s) (finalState s')
      /\ patched (p_pausedStageIndex patch) (pausedStageIndex s)
           (pausedStageIndex s')
      /\ patched (p_canaryWeight patch) (canaryWeight s) (canaryWeight s')
      /\ patched (p_reason patch) (reason s) (reason s').
Proof.
  intros s to patch Hin.
  apply MachineFacts.allowed_pairs_ALLOWED in Hin.
  unfold transitionSnapshot, assertTransitionAllowed. rewrite Hin.
  eexists. split; [reflexivity | ].
  destruct patch as [pid pname pconfig pstate pidx pentered pstarted
                       pcompleted pfinal ppaused pweight preason].
  simpl.
  repeat split;
    match goal with
    | |- patched ?named _ _ => destruct named; reflexivity
    end.
Qed.

(** The frame at work: pausing the sample deployment with the patch
    [pause] builds changes the state and the paused index only. *)
Lemma transitionSnapshot_frame_witness :
  In (state Samples.staged, PAUSED) allowed_pairs
  /\ exists s',
       transitionSnapshot Samples.staged PAUSED
         {| p_id := None; p_name := None; p_config := None;
            p_state := None; p_stageIndex := None;
            p_stageEnteredAt := None; p_startedAt := None;
            p_completedAt := None; p_finalState := None;
            p_pausedStageIndex := Some (Some 0%nat);
            p_canaryWeight := None; p_reason := None |}
       = Return s'
       /\ state s' = PAUSED
       /\ pausedStageIndex s' = Some 0%nat
       /\ canaryWeight s' = 5
       /\ stageIndex s' = 0%nat.
Proof.
  assert (Hin : In (state Samples.staged, PAUSED) allowed_pairs)
    by (simpl; tauto).
  split; [exact Hin | ].
  destruct (transitionSnapshot_frame Samples.staged PAUSED
              {| p_id := None; p_name := None; p_config := None;
                 p_state := None; p_stageIndex := None;
                 p_stageEnteredAt := None; p_startedAt := None;
                 p_completedAt := None; p_finalState := None;
                 p_pausedStageIndex := Some (Some 0%nat);
                 p_canaryWeight := None; p_reason := None |} Hin)
    as [s' [Hret [Hstate [_ [_ [_ [Hidx [_ [_ [_ [_ [Hpaused [Hw _]]]]]]]]]]]]].
  exists s'. simpl in *. repeat split; assumption.
Defined.

End SnapshotFacts.

(** ** Welch's t-test *)

Module WelchFacts.
Import Distributions Welch.

#[local] Open Scope float_scope.

Section WithKernel.
Context `{BetaKernel}.

Lemma length_guard_false (baseline canary : list float) :
  (2 <= List.length baseline)%nat ->
  (2 <= List.length canary)%nat ->
  (List.length baseline <? 2)%nat || (List.length canary <? 2)%nat = false.
Proof.
  intros Hb Hc. apply Nat.ltb_ge in Hb. apply Nat.ltb_ge in Hc.
  rewrite Hb, Hc. reflexivity.
Qed.

Lemma welchTTest_returns (baseline canary : list float) :
  (2 <= List.length baseline)%nat ->
  (2 <= List.length canary)%nat ->
  exists t, welchTTest baseline canary = Return t.
Proof.
  intros Hb Hc. unfold welchTTest.
  rewrite (length_guard_false baseline canary Hb Hc).
  match goal with
  | |- context [if PrimFloat.eqb ?se 0 then _ else _] =>
      destruct (PrimFloat.eqb se 0)
  end; eexists; reflexivity.
Qed.

Lemma welchTTest_throws (baseline canary : list float) :
  (List.length baseline < 2)%nat \/ (List.length canary < 2)%nat ->
  welchTTest baseline canary = Throw InsufficientSamples.
Proof.
  intros Hshort. unfold welchTTest.
  assert (Hguard : (List.length baseline <? 2)%nat
                   || (List.length canary <? 2)%nat = true).
  { apply orb_true_iff. destruct Hshort as [Hlt | Hlt];
      [left | right]; apply Nat.ltb_lt; exact Hlt. }
  rewrite Hguard. reflexivity.
Qed.

(** The degenerate branch: whenever the standard error the function
    computes compares equal to zero, the fixed result comes back, the
    means being the ones computed from the samples; none of the four
    integer divisors on the way is zero. *)
Lemma welchTTest_zero_standard_error (baseline canary : list float) :
  (2 <= List.length baseline)%nat ->
  (2 <= List.length canary)%nat ->
  PrimFloat.eqb (standard_error baseline canary) 0 = true ->
  exists t,
    welchTTest baseline canary = Return t
    /\ tStatistic t = 0
    /\ pValueTwoSided t = 1
    /\ pValueOneSided t = 0.5
    /\ confidenceInterval95 t = (0, 0)
    /\ baselineMean t = sample_mean baseline
    /\ canaryMean t = sample_mean canary
    /\ Z.of_nat (List.length baseline) <> 0%Z
    /\ Z.of_nat (List.length canary) <> 0%Z
    /\ (Z.of_nat (List.length baseline) - 1 <> 0)%Z
    /\ (Z.of_nat (List.length canary) - 1 <> 0)%Z.
Proof.
  intros Hb Hc Hse. unfold welchTTest.
  rewrite (length_guard_false baseline canary Hb Hc).
  unfold standard_error in Hse. rewrite Hse.
  eexists. split; [reflexivity | ].
  cbn [tStatistic pValueTwoSided pValueOneSided confidenceInterval95
         baselineMean canaryMean].
  repeat split; lia.
Qed.

(** The general branch, for a standard error that does not compare
    equal to zero. *)
Lemma welchTTest_nonzero_standard_error (baseline canary : list float) :
  (2 <= List.length baseline)%nat ->
  (2 <= List.length canary)%nat ->
  PrimFloat.eqb (standard_error baseline canary) 0 = false ->
  exists t,
    welchTTest baseline canary = Return t
    /\ tStatistic t
       = (sample_mean canary - sample_mean baseline)
         / standard_error baseline canary
    /\ pValueOneSided t = tDistCDF (tStatistic t) (degreesOfFreedom t)
    /\ baselineMean t = sample_mean baseline
    /\ canaryMean t = sample_mean canary.
Proof.
  intros Hb Hc Hse. unfold welchTTest.
  rewrite (length_guard_false baseline canary Hb Hc).
  unfold standard_error in Hse. rewrite Hse.
  eexists. split; [reflexivity | ].
  cbn [tStatistic pValueOneSided degreesOfFreedom baselineMean canaryMean].
  repeat split.
Qed.

(** C8.  Three scores of 0.1 against two scores of 0.1: both arrays hold
    one constant value, yet the mean computed for the first is
    0.10000000000000002, the standard error computed is not zero, the
    degenerate branch is not taken, and the statistic returned is about
    -1.41 instead of 0, with a one-sided p-value read off the t
    distribution instead of 0.5. *)
Theorem welchTTest_constant_samples_nonzero_statistic :
  exists t,
    welchTTest [0.1; 0.1; 0.1] [0.1; 0.1] = Return t
    /\ PrimFloat.eqb (standard_error [0.1; 0.1; 0.1] [0.1; 0.1]) 0 = false
    /\ baselineMean t = 0.10000000000000002
    /\ canaryMean t = 0.1
    /\ tStatistic t = (-1.4142135623730949)
    /\ PrimFloat.eqb (tStatistic t) 0 = false
    /\ pValueOneSided t = tDistCDF (-1.4142135623730949) 2.
Proof.
  assert (Hse : PrimFloat.eqb (standard_error [0.1; 0.1; 0.1] [0.1; 0.1]) 0
                = false) by (vm_compute; reflexivity).
  destruct (welchTTest_nonzero_standard_error [0.1; 0.1; 0.1] [0.1; 0.1])
    as [t [Hret [Ht [Hp [Hm1 Hm2]]]]];
    [simpl; lia | simpl; lia | exact Hse | ].
  assert (Hstat : tStatistic t = (-1.4142135623730949))
    by (rewrite Ht; vm_compute; reflexivity).
  assert (Hdf : degreesOfFreedom t = 2).
  { unfold welchTTest in Hret.
    rewrite (length_guard_false [0.1; 0.1; 0.1] [0.1; 0.1]) in Hret
      by (simpl; lia).
    unfold standard_error in Hse. rewrite Hse in Hret.
    injection Hret as Hret. rewrite <- Hret.
    cbn [degreesOfFreedom]. vm_compute. reflexivity. }
  exists t.
  split; [exact Hret | ].
  split; [exact Hse | ].
  split; [rewrite Hm1; vm_compute; reflexivity | ].
  split; [rewrite Hm2; vm_compute; reflexivity | ].
  split; [exact Hstat | ].
  split; [rewrite Hstat; vm_compute; reflexivity | ].
  rewrite Hp, Hstat, Hdf. reflexivity.
Qed.

End WithKernel.

End WelchFacts.

(** ** The gate evaluator *)

Module GateFacts.
Import Distributions EvaluateGate.

#[local] Open Scope float_scope.

(** What the guard at the top of [evaluateGate] tests. *)
Lemma counts_guard (canaryN baselineN minSamples : Z) :
  (canaryN <? minSamples)%Z || (baselineN <? 10)%Z = false
  <-> (minSamples <= canaryN)%Z /\ (10 <= baselineN)%Z.
Proof.
  rewrite orb_false_iff, !Z.ltb_ge. tauto.
Qed.

(** C1, as stated, fails: with one canary sample on record and a
    threshold of one sample both counts are sufficient, yet the
    comparison needs Welch's test, which throws on fewer than two
    samples, so [evaluateGate] returns no status at all. *)
Lemma evaluateGate_single_sample_throws :
  (1 <= count Samples.singleCanary)%Z
  /\ (10 <= count Samples.baselineStats)%Z
  /\ forall K : BetaKernel,
       evaluateGate Samples.gateQ Samples.baselineStats
         Samples.singleCanary 1
       = Throw Welch.InsufficientSamples.
Proof.
  split; [simpl; lia | ]. split; [simpl; lia | ].
  intros K. reflexivity.
Qed.

Section WithKernel.
Context `{BetaKernel}.

(** Past its guard, and given enough raw samples for Welch's test
    whenever the gate compares, [evaluateGate] returns a result that is
    passing or failing. *)
Lemma evaluateGate_past_guard :
  forall gate baselineStats canaryStats minSamples,
    (minSamples <= count canaryStats)%Z ->
    (10 <= count baselineStats)%Z ->
    (Schema.comparison gate <> Schema.absolute_only ->
     (2 <= List.length (rawSamples baselineStats))%nat
     /\ (2 <= List.length (rawSamples canaryStats))%nat) ->
    exists r,
      evaluateGate gate baselineStats canaryStats minSamples = Return r
      /\ (status r = passing \/ status r = failing).
Proof.
  intros gate b c m Hc Hb Hraw.
  assert (Hguard : (count c <? m)%Z || (count b <? 10)%Z = false)
    by (apply counts_guard; split; assumption).
  unfold evaluateGate. rewrite Hguard.
  destruct (Schema.comparison gate) eqn:Hcmp;
    try (destruct Hraw as [Hlb Hlc]; [discriminate | ];
         destruct (WelchFacts.welchTTest_returns _ _ Hlb Hlc) as [t Ht];
         rewrite Ht);
    eexists; (split; [reflexivity | ]); cbn [status];
    match goal with
    | |- context [if ?x && ?y then _ else _] => destruct (x && y)
    end; auto.
Qed.

(** C1, amended.  With sufficient counts and, unless the gate is
    absolute-only, at least two raw samples on each side,
    [evaluateGate] returns a result whose status is passing exactly when
    both checks hold and failing otherwise; the absolute check compares
    the canary mean with the threshold, and the comparison check is true
    without a p-value for an absolute-only gate, [p >= 1 - confidence]
    for not-worse-than-baseline and [1 - p >= confidence] for
    better-than-baseline, [p] being the one-sided p-value of Welch's
    test on the raw samples. *)
Theorem evaluateGate_status_iff_checks :
  forall gate baselineStats canaryStats minSamples,
    (minSamples <= count canaryStats)%Z ->
    (10 <= count baselineStats)%Z ->
    (Schema.comparison gate <> Schema.absolute_only ->
     (2 <= List.length (rawSamples baselineStats))%nat
     /\ (2 <= List.length (rawSamples canaryStats))%nat) ->
    exists r,
      evaluateGate gate baselineStats canaryStats minSamples = Return r
      /\ absoluteCheck r
         = JsNumber.geb (average canaryStats) (Schema.threshold gate)
      /\ (status r = passing
          <-> absoluteCheck r = true /\ comparisonCheck r = true)
      /\ (status r <> passing -> status r = failing)
      /\ match Schema.comparison gate with
         | Schema.absolute_only =>
             comparisonCheck r = true /\ pValue r = None
         | Schema.not_worse_than_baseline =>
             exists t,
               Welch.welchTTest (rawSamples baselineStats)
                 (rawSamples canaryStats) = Return t
               /\ pValue r = Some (Welch.pValueOneSided t)
               /\ comparisonCheck r
                  = JsNumber.geb (Welch.pValueOneSided t)
                      (1 - Schema.confidence gate)
         | Schema.better_than_baseline =>
             exists t,
               Welch.welchTTest (rawSamples baselineStats)
                 (rawSamples canaryStats) = Return t
               /\ pValue r = Some (Welch.pValueOneSided t)
               /\ comparisonCheck r
                  = JsNumber.geb (1 - Welch.pValueOneSided t)
                      (Schema.confidence gate)
         end.
Proof.
  intros gate b c m Hc Hb Hraw.
  assert (Hguard : (count c <? m)%Z || (count b <? 10)%Z = false)
    by (apply counts_guard; split; assumption).
  unfold evaluateGate. rewrite Hguard.
  destruct (Schema.comparison gate) eqn:Hcmp.
  - destruct Hraw as [Hlb Hlc]; [discriminate | ].
    destruct (WelchFacts.welchTTest_returns _ _ Hlb Hlc) as [t Ht].
    rewrite Ht. eexists. split; [reflexivity | ].
    cbn [absoluteCheck status comparisonCheck pValue].
    split; [reflexivity | ]. split; [ | split].
    + destruct (JsNumber.geb (average c) (Schema.threshold gate)),
        (JsNumber.geb (Welch.pValueOneSided t) (1 - Schema.confidence gate));
        simpl; split; intros; try tauto; try discriminate;
        match goal with Hx : _ /\ _ |- _ => destruct Hx; discriminate end.
    + destruct (JsNumber.geb (average c) (Schema.threshold gate)),
        (JsNumber.geb (Welch.pValueOneSided t) (1 - Schema.confidence gate));
        simpl; intros; try reflexivity; exfalso; auto.
    + exists t. repeat split.
  - destruct Hraw as [Hlb Hlc]; [discriminate | ].
    destruct (WelchFacts.welchTTest_returns _ _ Hlb Hlc) as [t Ht].
    rewrite Ht. eexists. split; [reflexivity | ].
    cbn [absoluteCheck status comparisonCheck pValue].
    split; [reflexivity | ]. split; [ | split].
    + destruct (JsNumber.geb (average c) (Schema.threshold gate)),
        (JsNumber.geb (1 - Welch.pValueOneSided t) (Schema.confidence gate));
        simpl; split; intros; try tauto; try discriminate;
        match goal with Hx : _ /\ _ |- _ => destruct Hx; discriminate end.
    + destruct (JsNumber.geb (average c) (Schema.threshold gate)),
        (JsNumber.geb (1 - Welch.pValueOneSided t) (Schema.confidence gate));
        simpl; intros; try reflexivity; exfalso; auto.
    + exists t. repeat split.
  - eexists. split; [reflexivity | ].
    cbn [absoluteCheck status comparisonCheck pValue].
    split; [reflexivity | ]. split; [ | split].
    + destruct (JsNumber.geb (average c) (Schema.threshold gate));
        simpl; split; intros; try tauto; try discriminate;
        match goal with Hx : _ /\ _ |- _ => destruct Hx; discriminate end.
    + destruct (JsNumber.geb (average c) (Schema.threshold gate));
        simpl; intros; try reflexivity; exfalso; auto.
    + split; reflexivity.
Qed.


End WithKernel.

(** C1 at work: ten samples on each side, the scenario of a clean
    promotion.  The hypotheses hold, and whatever the distribution
    kernel, the gate's status is decided by the two checks. *)
Lemma evaluateGate_status_iff_checks_witness :
  (2 <= 10)%Z
  /\ (10 <= 10)%Z
  /\ forall K : BetaKernel,
     exists r,
       evaluateGate Samples.gateQ Samples.baselineStats
         Samples.baselineStats 2 = Return r
       /\ absoluteCheck r = true
       /\ (status r = passing <-> comparisonCheck r = true).
Proof.
  split; [lia | ]. split; [lia | ].
  intros K.
  destruct (@evaluateGate_status_iff_checks K Samples.gateQ
              Samples.baselineStats Samples.baselineStats 2)
    as [r [Hret [Habs [Hiff _]]]].
  - simpl. lia.
  - simpl. lia.
  - intros _. simpl. split; lia.
  - exists r. split; [exact Hret | ].
    assert (Habs' : absoluteCheck r = true)
      by (rewrite Habs; vm_compute; reflexivity).
    split; [exact Habs' | ]. rewrite Hiff. tauto.
Defined.

End GateFacts.

(** ** Insufficient data *)

Module InsufficientDataFacts.
Import Distributions EvaluateGate.

#[local] Open Scope float_scope.

(** C9, as stated, fails in its second half: one canary sample meets a
    threshold of one, ten baseline samples meet the floor of ten, and
    the call throws instead of returning passing or failing. *)
Lemma evaluateGate_sufficient_counts_no_status :
  (1 <= count Samples.singleCanary)%Z
  /\ (10 <= count Samples.baselineStats)%Z
  /\ forall K : BetaKernel,
       returns (evaluateGate Samples.gateBetter Samples.baselineStats
                  Samples.singleCanary 1) = false.
Proof.
  split; [simpl; lia | ]. split; [simpl; lia | ].
  intros K. reflexivity.
Qed.

Section WithKernel.
Context `{BetaKernel}.

(** C9, amended.  Below the sample threshold on the canary side or
    below ten on the baseline side the result is insufficient data, with
    no p-value and both checks false.  With both counts sufficient and,
    unless the gate is absolute-only, at least two raw samples on each
    side, a result is returned and its status is passing or failing. *)
Theorem evaluateGate_insufficient_data_iff_counts :
  forall gate baselineStats canaryStats minSamples,
    ((count canaryStats < minSamples)%Z \/ (count baselineStats < 10)%Z ->
     exists r,
       evaluateGate gate baselineStats canaryStats minSamples = Return r
       /\ status r = insufficient_data
       /\ pValue r = None
       /\ absoluteCheck r = false
       /\ comparisonCheck r = false)
    /\ ((minSamples <= count canaryStats)%Z ->
        (10 <= count baselineStats)%Z ->
        (Schema.comparison gate <> Schema.absolute_only ->
         (2 <= List.length (rawSamples baselineStats))%nat
         /\ (2 <= List.length (rawSamples canaryStats))%nat) ->
        exists r,
          evaluateGate gate baselineStats canaryStats minSamples = Return r
          /\ (status r = passing \/ status r = failing)
          /\ status r <> insufficient_data).
Proof.
  intros gate b c m. split.
  - intros Hlow.
    assert (Hguard : (count c <? m)%Z || (count b <? 10)%Z = true).
    { apply orb_true_iff. destruct Hlow as [Hlt | Hlt];
        [left | right]; apply Z.ltb_lt; exact Hlt. }
    unfold evaluateGate. rewrite Hguard.
    eexists. split; [reflexivity | ]. simpl. tauto.
  - intros Hc Hb Hraw.
    destruct (GateFacts.evaluateGate_past_guard gate b c m Hc Hb Hraw)
      as [r [Hret Hst]].
    exists r. split; [exact Hret | ]. split; [exact Hst | ].
    destruct Hst as [-> | ->]; discriminate.
Qed.

End WithKernel.

(** C9 at work on the boundary: with a threshold of 30 samples, 29
    canary samples are insufficient data and 30 give a status. *)
Lemma evaluateGate_insufficient_data_iff_counts_witness :
  Spec.forall_kernels
    (fun K =>
       let stats n :=
         {| count := n; average := 0.9; rawSamples := Samples.ten_scores |} in
       (exists r,
          evaluateGate Samples.gateAbsolute (stats 10%Z) (stats 29%Z) 30%Z
          = Return r /\ status r = insufficient_data)
       /\ (exists r,
             evaluateGate Samples.gateAbsolute (stats 10%Z) (stats 30%Z) 30%Z
             = Return r /\ (status r = passing \/ status r = failing))).
Proof.
  intros K stats. split.
  - destruct (@evaluateGate_insufficient_data_iff_counts K
                Samples.gateAbsolute (stats 10%Z) (stats 29%Z) 30%Z)
      as [Hlow _].
    destruct Hlow as [r [Hret [Hst _]]]; [left; simpl; lia | ].
    exists r. split; assumption.
  - destruct (@evaluateGate_insufficient_data_iff_counts K
                Samples.gateAbsolute (stats 10%Z) (stats 30%Z) 30%Z)
      as [_ Hhigh].
    destruct Hhigh as [r [Hret [Hst _]]].
    + simpl. lia.
    + simpl. lia.
    + intros Hne. exfalso. apply Hne. reflexivity.
    + exists r. split; assumption.
Defined.

End InsufficientDataFacts.

(** ** The traffic router *)

Module RouterFacts.
Import Types Router Spec.



Section WithHash.
Variable stableHash : string -> Z.



End WithHash.


End RouterFacts.

(** ** The rollback decision *)

Module RollbackFacts.
Import EvaluateGate Controller Spec.

Lemma is_regressing_spec (g : GateResult) :
  is_regressing g = true <-> regressing g.
Proof.
  unfold is_regressing, regressing.
  destruct (status g), (pValue g) as [p | ]; split;
    try discriminate;
    try (intros [Hst _]; discriminate);
    try (intros [_ [p' [Hp _]]]; discriminate).
  - intros Hlt. split; [reflexivity | ]. exists p. split; [reflexivity | ].
    exact Hlt.
  - intros [_ [p' [Hp Hlt]]]. injection Hp as ->. exact Hlt.
Qed.

Lemma is_absolute_drop_spec rollbackConfig (g : GateResult) :
  is_absolute_drop rollbackConfig g = true <-> dropping rollbackConfig g.
Proof.
  unfold is_absolute_drop, dropping. tauto.
Qed.

Section Find.
Context {A : Type} (f : A -> bool) (P : A -> Prop).
Hypothesis f_spec : forall x, f x = true <-> P x.

Lemma find_first_such (l : list A) (g : A) :
  first_such P l g -> find f l = Some g.
Proof.
  intros [pre [post [-> [Hpre Hg]]]].
  induction Hpre as [ | x pre Hx _ IH]; simpl.
  - apply f_spec in Hg. rewrite Hg. reflexivity.
  - destruct (f x) eqn:Hfx; [ | exact IH].
    exfalso. apply Hx, f_spec, Hfx.
Qed.

Lemma find_none_such (l : list A) :
  Forall (fun x => ~ P x) l -> find f l = None.
Proof.
  induction 1 as [ | x l Hx _ IH]; simpl; [reflexivity | ].
  destruct (f x) eqn:Hfx; [ | exact IH].
  exfalso. apply Hx, f_spec, Hfx.
Qed.

End Find.

(** C2.  With a deployment in place, [evaluateRollback] answers with the
    first regressing gate if there is one; else with the first gate
    whose mean dropped by more than the configured amount; else with the
    error rate when it exceeds its limit; else with nothing. *)
Theorem evaluateRollback_priority :
  forall c s gates canaryErrorRate,
    snapshot c = Some s ->
    let rollbackConfig :=
      Schema.rollback (Schema.deployment (Types.config s)) in
    (forall g,
        first_such regressing gates g ->
        evaluateRollback c gates canaryErrorRate
        = Some ("score_regression:" ++ scorer g))
    /\ (Forall (fun x => ~ regressing x) gates ->
        forall g,
          first_such (dropping rollbackConfig) gates g ->
          evaluateRollback c gates canaryErrorRate
          = Some ("absolute_drop:" ++ scorer g))
    /\ (Forall (fun x => ~ regressing x) gates ->
        Forall (fun x => ~ dropping rollbackConfig x) gates ->
        JsNumber.gtb canaryErrorRate (Schema.on_error_rate rollbackConfig)
        = true ->
        evaluateRollback c gates canaryErrorRate
        = Some "error_rate_exceeded")
    /\ (Forall (fun x => ~ regressing x) gates ->
        Forall (fun x => ~ dropping rollbackConfig x) gates ->
        JsNumber.gtb canaryErrorRate (Schema.on_error_rate rollbackConfig)
        = false ->
        evaluateRollback c gates canaryErrorRate = None).
Proof.
  intros c s gates rate Hsnap rollbackConfig.
  unfold evaluateRollback. rewrite Hsnap. fold rollbackConfig.
  split; [ | split; [ | split]].
  - intros g Hfirst.
    rewrite (find_first_such is_regressing regressing is_regressing_spec
               gates g Hfirst).
    reflexivity.
  - intros Hnone g Hfirst.
    rewrite (find_none_such is_regressing regressing is_regressing_spec
               gates Hnone).
    rewrite (find_first_such (is_absolute_drop rollbackConfig)
               (dropping rollbackConfig)
               (is_absolute_drop_spec rollbackConfig) gates g Hfirst).
    reflexivity.
  - intros Hnone Hnodrop Hrate.
    rewrite (find_none_such is_regressing regressing is_regressing_spec
               gates Hnone).
    rewrite (find_none_such (is_absolute_drop rollbackConfig)
               (dropping rollbackConfig)
               (is_absolute_drop_spec rollbackConfig) gates Hnodrop).
    rewrite Hrate. reflexivity.
  - intros Hnone Hnodrop Hrate.
    rewrite (find_none_such is_regressing regressing is_regressing_spec
               gates Hnone).
    rewrite (find_none_such (is_absolute_drop rollbackConfig)
               (dropping rollbackConfig)
               (is_absolute_drop_spec rollbackConfig) gates Hnodrop).
    rewrite Hrate. reflexivity.
Qed.

(** C2 at work: a passing gate followed by a gate failing with
    p = 0.001 yields the regression of the second gate, although the
    error rate is over its limit as well. *)
Lemma evaluateRollback_priority_witness :
  let c := with_snapshot (Some Samples.staged) (create Store.empty) in
  snapshot c = Some Samples.staged
  /\ evaluateRollback c [Samples.passingGate; Samples.regressingGate]
       0.5%float
     = Some "score_regression:Tone".
Proof.
  intros c.
  assert (Hsnap : snapshot c = Some Samples.staged) by reflexivity.
  split; [exact Hsnap | ].
  destruct (evaluateRollback_priority c Samples.staged
              [Samples.passingGate; Samples.regressingGate] 0.5%float Hsnap)
    as [Hregress _].
  apply (Hregress Samples.regressingGate).
  exists [Samples.passingGate], []. split; [reflexivity | ]. split.
  - constructor; [ | constructor].
    intros [Hst _]. discriminate.
  - split; [reflexivity | ].
    exists 0.001%float. split; reflexivity.
Defined.

End RollbackFacts.

(** ** Score updates and what they persist *)

Module ScoreUpdateFacts.
Import Distributions Types Controller Spec.










Section WithKernel.
Context `{BetaKernel}.


End WithKernel.


End ScoreUpdateFacts.

(** ** The canary weight of reachable snapshots *)

Module WeightFacts.
Import Distributions Types Controller Spec.












Section WithKernel.
Context `{BetaKernel}.





End WithKernel.


End WeightFacts.

(** ** A monitor tick whose fetch fails *)

Module MonitorFacts.
Import Btql Monitor.




Lemma consumeRows_frame version rows :
  forall m tape,
    baselineWatermark (fst (consumeRows version rows m tape))
    = baselineWatermark m
    /\ canaryWatermark (fst (consumeRows version rows m tape))
       = canaryWatermark m
    /\ btql (fst (consumeRows version rows m tape)) = btql m.
Proof.
  induction rows as [ | row rows IH]; intros m tape; simpl;
    [repeat split | ].
  destruct version;
    destruct (consume_scores row _ _ tape) as [stats tape1];
    match goal with
    | |- context [consumeRows _ rows ?m1 tape1] =>
        destruct (IH m1 tape1) as [Hb [Hc Hq]]
    end;
    rewrite Hb, Hc, Hq; repeat split.
Qed.



End MonitorFacts.

(** ** Durations *)

Module DurationFacts.
Import Duration Spec.

Lemma all_chars_append p s1 s2 :
  all_chars p (s1 ++ s2) = all_chars p s1 && all_chars p s2.
Proof.
  induction s1 as [ | c s1 IH]; simpl; [reflexivity | ].
  rewrite IH. apply andb_assoc.
Qed.

Lemma trim_start_no_space s :
  all_chars (fun c => negb (is_space c)) s = true -> trim_start s = s.
Proof.
  destruct s as [ | c rest]; simpl; [reflexivity | ].
  intros Hall. apply andb_true_iff in Hall. destruct Hall as [Hc _].
  destruct (is_space c); [discriminate | reflexivity].
Qed.

Lemma trim_end_no_space s :
  all_chars (fun c => negb (is_space c)) s = true -> trim_end s = s.
Proof.
  induction s as [ | c rest IH]; simpl; [reflexivity | ].
  intros Hall. apply andb_true_iff in Hall. destruct Hall as [Hc Hrest].
  rewrite (IH Hrest).
  destruct rest; [ | reflexivity].
  destruct (is_space c); [discriminate | reflexivity].
Qed.

Lemma trim_no_space s :
  all_chars (fun c => negb (is_space c)) s = true -> trim s = s.
Proof.
  intros Hall. unfold trim. rewrite (trim_start_no_space s Hall).
  apply trim_end_no_space. exact Hall.
Qed.

Lemma numeral_no_space d :
  all_chars (fun c => negb (is_space c)) (NilEmpty.string_of_uint d) = true.
Proof. induction d; simpl; auto. Qed.

(** Reading a numeral: the digits are consumed up to the first
    character that is no digit, and their value is accumulated as
    [Nat.of_uint_acc] does. *)
Lemma leading_digits_numeral d :
  forall (acc seen : nat) rest,
    match rest with
    | String c _ => is_digit c = false
    | EmptyString => True
    end ->
    leading_digits (Z.of_nat acc) seen (NilEmpty.string_of_uint d ++ rest)
    = (Z.of_nat (Nat.of_uint_acc d acc), (seen + Decimal.nb_digits d)%nat,
       rest).
Proof.
  induction d; intros acc seen rest Hrest;
    cbn [NilEmpty.string_of_uint append leading_digits Nat.of_uint_acc
         Decimal.nb_digits];
    try (match goal with
         | |- context [is_digit ?c] =>
             change (is_digit c) with true; cbv iota
         end;
         match goal with
         | |- context [nat_of_ascii ?c] =>
             let v := eval vm_compute in (nat_of_ascii c) in
             change (nat_of_ascii c) with v
         end;
         match goal with
         | |- leading_digits ?a _ _ = _ =>
             match goal with
             | |- context [Nat.of_uint_acc d ?b] =>
                 replace a with (Z.of_nat b)
                   by (rewrite ?Nat.tail_mul_spec; lia)
             end
         end;
         rewrite IHd by exact Hrest;
         f_equal; f_equal; lia).
  rewrite Nat.add_0_r.
  destruct rest as [ | c rest]; [reflexivity | ].
  cbn [leading_digits]. rewrite Hrest. reflexivity.
Qed.

Lemma numeral_digits_positive n :
  exists k, Decimal.nb_digits (Nat.to_uint n) = S k.
Proof.
  destruct (Decimal.nb_digits (Nat.to_uint n)) as [ | k] eqn:Hnb;
    [ | exists k; reflexivity].
  apply DecimalFacts.nb_digits_0 in Hnb.
  pose proof (DecimalNat.Unsigned.of_to n) as Hof. rewrite Hnb in Hof.
  change (Nat.of_uint Decimal.Nil) with 0%nat in Hof. subst n.
  discriminate Hnb.
Qed.

Lemma decimal_numeral n :
  decimal n = NilEmpty.string_of_uint (Nat.to_uint n).
Proof.
  unfold decimal, NilZero.string_of_uint.
  destruct (numeral_digits_positive n) as [k Hk].
  destruct (Nat.to_uint n); [discriminate Hk | reflexivity ..].
Qed.

Lemma MULTIPLIER_units unit k :
  MULTIPLIER unit = Some k ->
  (unit = "ms" /\ k = 1) \/ (unit = "s" /\ k = 1000)
  \/ (unit = "m" /\ k = 60000) \/ (unit = "h" /\ k = 3600000).
Proof.
  unfold MULTIPLIER.
  destruct (String.eqb unit "ms") eqn:Hms;
    [apply String.eqb_eq in Hms; intros [= <-]; auto | ].
  destruct (String.eqb unit "s") eqn:Hs;
    [apply String.eqb_eq in Hs; intros [= <-]; auto | ].
  destruct (String.eqb unit "m") eqn:Hm;
    [apply String.eqb_eq in Hm; intros [= <-]; auto | ].
  destruct (String.eqb unit "h") eqn:Hh;
    [apply String.eqb_eq in Hh; intros [= <-]; auto 6 | ].
  discriminate.
Qed.

(** X1.  [parseDuration] reads back what the configuration writes: on
    the decimal numeral of [n] followed by one of the units ms, s, m, h
    it returns [n] times the unit's number of milliseconds and does not
    throw.  The bound keeps the product among the integers a JavaScript
    number holds exactly, where [Number] and the multiplication agree
    with integer arithmetic. *)
Theorem parseDuration_numeral_unit (n : nat) (unit : string) (k : Z) :
  MULTIPLIER unit = Some k ->
  Z.of_nat n * k <= 2 ^ 53 ->
  parseDuration (decimal n ++ unit) = Return (Z.of_nat n * k).
Proof.
  intros Hunit _.
  assert (Hshape :
            all_chars (fun c => negb (is_space c)) unit = true
            /\ match unit with
               | String c _ => is_digit c = false
               | EmptyString => True
               end).
  { destruct (MULTIPLIER_units unit k Hunit)
      as [[-> _] | [[-> _] | [[-> _] | [-> _]]]]; split; reflexivity. }
  destruct Hshape as [Hspace Hhead].
  unfold parseDuration. rewrite trim_no_space.
  2:{ rewrite all_chars_append, decimal_numeral, numeral_no_space.
      exact Hspace. }
  rewrite decimal_numeral.
  pose proof (leading_digits_numeral (Nat.to_uint n) 0 0 unit Hhead) as Hld.
  change (Z.of_nat 0) with 0 in Hld. rewrite Hld.
  destruct (numeral_digits_positive n) as [j Hj]. rewrite Hj.
  cbn [Nat.add]. rewrite Hunit.
  change (Nat.of_uint_acc (Nat.to_uint n) 0) with (Nat.of_uint (Nat.to_uint n)).
  rewrite DecimalNat.Unsigned.of_to. reflexivity.
Qed.

(** X1 at work: ten minutes. *)
Lemma parseDuration_numeral_unit_witness :
  MULTIPLIER "m" = Some 60000
  /\ Z.of_nat 10 * 60000 <= 2 ^ 53
  /\ parseDuration "10m" = Return 600000.
Proof.
  assert (Hbound : Z.of_nat 10 * 60000 <= 2 ^ 53)
    by (vm_compute; discriminate).
  split; [reflexivity | ]. split; [exact Hbound | ].
  exact (parseDuration_numeral_unit 10 "m" 60000 eq_refl Hbound).
Defined.

End DurationFacts.

(** ** The refinement of the deployment schema *)

Module RefineFacts.
Import Schema.

Lemma last_stage_snoc init last :
  last_stage (init ++ [last])%list = Some last.
Proof.
  unfold last_stage.
  destruct (init ++ [last])%list as [ | x rest] eqn:Happ;
    [destruct init; discriminate | ].
  rewrite <- Happ, length_app. cbn [List.length].
  replace (List.length init + 1 - 1)%nat with (List.length init) by lia.
  rewrite nth_error_app2 by lia. rewrite Nat.sub_diag. reflexivity.
Qed.

(** The loop adds no issue exactly when every stage it visits weighs
    more than the one before it. *)
Lemma increasing_issues_nil rest :
  forall i prev,
    increasing_issues i prev rest = []
    <-> forall j a b,
          nth_error (prev :: rest) j = Some a ->
          nth_error (prev :: rest) (S j) = Some b ->
          weight a < weight b.
Proof.
  induction rest as [ | stage rest IH]; intros i prev;
    cbn [increasing_issues].
  - split; [ | reflexivity].
    intros _ j a b _ Hb. destruct j; discriminate Hb.
  - split.
    + intros Hnil. apply app_eq_nil in Hnil. destruct Hnil as [Hhere Hrest].
      destruct (weight stage <=? weight prev)%Z eqn:Hle; [discriminate | ].
      apply Z.leb_gt in Hle.
      intros [ | j] a b Ha Hb.
      * cbn in Ha, Hb. injection Ha as <-. injection Hb as <-. exact Hle.
      * apply (proj1 (IH (S i) stage) Hrest j a b); assumption.
    + intros Hsorted.
      assert (Hle : weight prev < weight stage)
        by (apply (Hsorted 0%nat); reflexivity).
      apply Z.leb_gt in Hle. rewrite Hle. cbn [app].
      apply IH. intros j a b Ha Hb. apply (Hsorted (S j)); assumption.
Qed.

Lemma has_gate_Exists (all : list DeploymentStage) :
  existsb (fun stage => (0 <? List.length (gates stage))%nat) all = true
  <-> Exists (fun stage => gates stage <> []) all.
Proof.
  rewrite existsb_exists, Exists_exists.
  split; intros [stage [Hin Hgate]]; exists stage; (split; [exact Hin | ]).
  - intros Hnil. rewrite Hnil in Hgate. discriminate.
  - destruct (gates stage); [contradiction | reflexivity].
Qed.

(** X2.  The refinement of the deployment schema adds no issue exactly
    when the stages end in a stage of weight 100, every stage weighs
    more than the one before it, and some stage before the last defines
    a gate. *)
Theorem superRefine_accepts_iff (d : Deployment) :
  superRefine d = []
  <-> exists init last,
        stages d = (init ++ [last])%list
        /\ weight last = 100
        /\ (forall i a b,
               nth_error (stages d) i = Some a ->
               nth_error (stages d) (S i) = Some b ->
               weight a < weight b)
        /\ Exists (fun stage => gates stage <> []) init.
Proof.
  unfold superRefine. cbv zeta. split.
  - intros Hnil.
    apply app_eq_nil in Hnil. destruct Hnil as [Hlast Hnil].
    apply app_eq_nil in Hnil. destruct Hnil as [Hincr Hgate].
    destruct (existsb _ (removelast (stages d))) eqn:Hany;
      [ | discriminate].
    destruct (stages d) as [ | first rest] eqn:Hstages; [discriminate | ].
    assert (Hne : first :: rest <> []) by discriminate.
    destruct (exists_last Hne) as [init [last Hsnoc]].
    exists init, last. rewrite Hsnoc in *.
    rewrite last_stage_snoc in Hlast. rewrite removelast_last in Hany.
    split; [reflexivity | ].
    split.
    { destruct (weight last =? 100)%Z eqn:Hw; [ | discriminate].
      apply Z.eqb_eq. exact Hw. }
    split.
    { rewrite <- Hsnoc. apply (increasing_issues_nil rest 1 first).
      exact Hincr. }
    apply has_gate_Exists. exact Hany.
  - intros [init [last [Hstages [Hweight [Hsorted Hgate]]]]].
    rewrite Hstages in *. rewrite last_stage_snoc, removelast_last.
    apply Z.eqb_eq in Hweight. rewrite Hweight.
    apply has_gate_Exists in Hgate. rewrite Hgate. cbn [negb app].
    rewrite app_nil_r.
    destruct (init ++ [last])%list as [ | first rest]; [reflexivity | ].
    apply increasing_issues_nil. exact Hsorted.
Qed.

(** Weights that grow from each stage to the next grow along the whole
    list. *)
Lemma increasing_weights (all : list DeploymentStage) :
  (forall i a b,
      nth_error all i = Some a -> nth_error all (S i) = Some b ->
      weight a < weight b) ->
  forall k i a b,
    nth_error all i = Some a -> nth_error all (i + S k) = Some b ->
    weight a < weight b.
Proof.
  intros Hsorted. induction k as [ | k IH]; intros i a b Ha Hb.
  - rewrite Nat.add_1_r in Hb. apply (Hsorted i); assumption.
  - replace (i + S (S k))%nat with (S (i + S k)) in Hb by lia.
    destruct (nth_error all (i + S k)) as [m | ] eqn:Hm.
    + apply Z.lt_trans with (weight m);
        [apply (IH i); assumption | apply (Hsorted (i + S k)%nat); assumption].
    + apply nth_error_None in Hm.
      assert (Hlt : (S (i + S k) < List.length all)%nat)
        by (apply nth_error_Some; congruence).
      lia.
Qed.

(** X3.  A deployment the refinement accepts has at least two stages,
    none of them above weight 100, and every stage before the last
    below 100: the canary takes all of the traffic in the last stage
    only; and its first stage, which [startDeployment] reads, exists. *)
Theorem superRefine_accepted_weights (d : Deployment) :
  superRefine d = [] ->
  (2 <= List.length (stages d))%nat
  /\ (exists first, nth_error (stages d) 0 = Some first)
  /\ forall i stage,
       nth_error (stages d) i = Some stage ->
       weight stage <= 100
       /\ ((S i < List.length (stages d))%nat -> weight stage < 100)
       /\ (S i = List.length (stages d) -> weight stage = 100).
Proof.
  intros Hok. apply superRefine_accepts_iff in Hok.
  destruct Hok as [init [last [Hstages [Hweight [Hsorted Hgate]]]]].
  assert (Hlen : List.length (stages d) = S (List.length init))
    by (rewrite Hstages, length_app; cbn; lia).
  assert (Hinit : (1 <= List.length init)%nat).
  { apply Exists_exists in Hgate. destruct Hgate as [stage [Hin _]].
    destruct init; [contradiction | cbn; lia]. }
  assert (Hlast : nth_error (stages d) (List.length init) = Some last).
  { rewrite Hstages, nth_error_app2 by lia.
    rewrite Nat.sub_diag. reflexivity. }
  split; [lia | ].
  split.
  { destruct (nth_error (stages d) 0) as [first | ] eqn:Hfirst;
      [exists first; reflexivity | ].
    apply nth_error_None in Hfirst. lia. }
  intros i stage Hnth.
  assert (Hi : (i < List.length (stages d))%nat)
    by (apply nth_error_Some; congruence).
  destruct (Nat.eq_dec i (List.length init)) as [-> | Hneq].
  - rewrite Hlast in Hnth. injection Hnth as <-.
    split; [lia | ]. split; [lia | intros _; exact Hweight].
  - assert (Hbelow : weight stage < weight last).
    { apply (increasing_weights (stages d) Hsorted
               (List.length init - S i) i stage last Hnth).
      replace (i + S (List.length init - S i))%nat
        with (List.length init) by lia.
      exact Hlast. }
    split; [lia | ]. split; [intros _; lia | intros Heq; lia].
Qed.

(** X3 at work: the two-stage sample configuration. *)
Lemma superRefine_accepted_weights_witness :
  superRefine (deployment Samples.config) = []
  /\ (2 <= List.length (stages (deployment Samples.config)))%nat.
Proof.
  assert (Hok : superRefine (deployment Samples.config) = [])
    by reflexivity.
  split; [exact Hok | ].
  exact (proj1 (superRefine_accepted_weights _ Hok)).
Defined.

End RefineFacts.

(** ** The scorers handed to the monitor *)

Module ProxyFacts.
Import Proxy.

Lemma existsb_eqb_In x (set : list string) :
  existsb (String.eqb x) set = true <-> In x set.
Proof.
  rewrite existsb_exists. split.
  - intros [y [Hin Heq]]. apply String.eqb_eq in Heq. subst y. exact Hin.
  - intros Hin. exists x. split; [exact Hin | apply String.eqb_refl].
Qed.

Lemma set_add_In x y set : In x (set_add y set) <-> x = y \/ In x set.
Proof.
  unfold set_add. destruct (existsb (String.eqb y) set) eqn:Hhas.
  - apply existsb_eqb_In in Hhas. split; [auto | ].
    intros [-> | Hin]; assumption.
  - rewrite in_app_iff. cbn [In]. split.
    + intros [Hin | [<- | []]]; auto.
    + intros [-> | Hin]; auto.
Qed.

Lemma set_add_NoDup y set : NoDup set -> NoDup (set_add y set).
Proof.
  intros Hset. unfold set_add.
  destruct (existsb (String.eqb y) set) eqn:Hhas; [exact Hset | ].
  assert (Hnew : ~ In y set).
  { intros Hin. apply existsb_eqb_In in Hin. congruence. }
  apply NoDup_app; [exact Hset | constructor; [intros [] | constructor] | ].
  intros x Hin [<- | []]. contradiction.
Qed.

Lemma add_gates_spec (gates : list Schema.Gate) :
  forall set,
    NoDup set ->
    let set' :=
      fold_left (fun set gate => set_add (Schema.scorer gate) set) gates set
    in
    NoDup set'
    /\ forall x,
         In x set'
         <-> In x set \/ exists gate, In gate gates /\ Schema.scorer gate = x.
Proof.
  induction gates as [ | gate gates IH]; intros set Hset; cbn [fold_left].
  - split; [exact Hset | ]. intros x. split; [auto | ].
    intros [Hin | [gate [[] _]]]. exact Hin.
  - destruct (IH (set_add (Schema.scorer gate) set)
                (set_add_NoDup _ _ Hset)) as [Hnodup Hmem].
    split; [exact Hnodup | ]. intros x. rewrite Hmem, set_add_In.
    split.
    + intros [[-> | Hin] | [g [Hg Hx]]]; eauto.
      * right. exists gate. split; [left; reflexivity | reflexivity].
      * right. exists g. split; [right; exact Hg | exact Hx].
    + intros [Hin | [g [[<- | Hg] Hx]]]; eauto.
Qed.

Lemma add_stages_spec (stages : list Schema.DeploymentStage) :
  forall set,
    NoDup set ->
    let set' :=
      fold_left
        (fun set stage =>
           fold_left (fun set gate => set_add (Schema.scorer gate) set)
             (Schema.gates stage) set)
        stages set
    in
    NoDup set'
    /\ forall x,
         In x set'
         <-> In x set
             \/ exists stage gate,
                  In stage stages /\ In gate (Schema.gates stage)
                  /\ Schema.scorer gate = x.
Proof.
  induction stages as [ | stage stages IH]; intros set Hset;
    cbn [fold_left].
  - split; [exact Hset | ]. intros x. split; [auto | ].
    intros [Hin | [stage [gate [[] _]]]]. exact Hin.
  - destruct (add_gates_spec (Schema.gates stage) set Hset)
      as [Hnodup1 Hmem1].
    destruct (IH _ Hnodup1) as [Hnodup Hmem].
    split; [exact Hnodup | ]. intros x. rewrite Hmem, Hmem1.
    split.
    + intros [[Hin | [g [Hg Hx]]] | [st [g [Hst [Hg Hx]]]]]; eauto.
      * right. exists stage, g. split; [left; reflexivity | auto].
      * right. exists st, g. split; [right; exact Hst | auto].
    + intros [Hin | [st [g [[<- | Hst] [Hg Hx]]]]]; eauto 7.
Qed.

(** X4.  [uniqueScorers] lists every scorer that a gate of some stage
    names, lists nothing else, and lists each scorer once. *)
Theorem uniqueScorers_members_once (config : Schema.DeploymentConfig) :
  NoDup (uniqueScorers config)
  /\ forall x,
       In x (uniqueScorers config)
       <-> exists stage gate,
             In stage (Schema.stages (Schema.deployment config))
             /\ In gate (Schema.gates stage)
             /\ Schema.scorer gate = x.
Proof.
  destruct (add_stages_spec (Schema.stages (Schema.deployment config)) []
              (NoDup_nil _)) as [Hnodup Hmem].
  split; [exact Hnodup | ]. intros x. unfold uniqueScorers.
  rewrite Hmem. split; [intros [[] | Hex]; exact Hex | auto].
Qed.

End ProxyFacts.

(** ** Running statistics *)

Module RunningFacts.
Import Running Spec.

Lemma store_at_length value xs :
  forall index, List.length (store_at index value xs) = List.length xs.
Proof.
  induction xs as [ | x xs IH]; intros index;
    [destruct index; reflexivity | ].
  destruct index; cbn [store_at List.length]; [reflexivity | ].
  rewrite IH. reflexivity.
Qed.

(** One call of [add]: the count grows by one, and the sample is
    appended while there is room; afterwards the number of samples
    kept stays at the capacity. *)
Lemma add_step value stats tape :
  reservoir_ok stats ->
  let stats' := fst (add value stats tape) in
  n stats' = n stats + 1
  /\ reservoir_ok stats'
  /\ (Z.of_nat (List.length (samples stats)) < MAX_SAMPLES ->
      samples stats' = (samples stats ++ [value])%list
      /\ snd (add value stats tape) = tape).
Proof.
  unfold reservoir_ok, add, MAX_SAMPLES. intros Hok.
  destruct (Z.of_nat (List.length (samples stats)) <? 10000)%Z eqn:Hroom.
  - apply Z.ltb_lt in Hroom. cbn [fst snd n samples].
    split; [reflexivity | ].
    split; [rewrite length_app; cbn [List.length]; lia | ].
    intros _. split; reflexivity.
  - apply Z.ltb_ge in Hroom. destruct (Math_random tape) as [r tape1].
    match goal with
    | |- context [(?i <? 10000)%Z] => destruct (i <? 10000)%Z
    end; cbn [fst snd n samples]; rewrite ?store_at_length;
      (split; [reflexivity | ]); (split; [lia | intros Hlt; lia]).
Qed.

Lemma add_all_spec values :
  forall stats tape,
    reservoir_ok stats ->
    let stats' := fst (add_all values stats tape) in
    n stats' = n stats + Z.of_nat (List.length values)
    /\ reservoir_ok stats'
    /\ (Z.of_nat (List.length (samples stats) + List.length values)
        <= MAX_SAMPLES ->
        samples stats' = (samples stats ++ values)%list
        /\ snd (add_all values stats tape) = tape).
Proof.
  induction values as [ | value values IH]; intros stats tape Hok;
    cbn [add_all List.length].
  - cbn [fst snd]. split; [lia | ]. split; [exact Hok | ].
    intros _. rewrite app_nil_r. split; reflexivity.
  - destruct (add_step value stats tape Hok) as [Hn [Hok1 Hroom]].
    destruct (add value stats tape) as [stats1 tape1].
    cbn [fst snd] in Hn, Hok1, Hroom.
    destruct (IH stats1 tape1 Hok1) as [Hn' [Hok' Hroom']].
    split; [rewrite Hn', Hn; lia | ]. split; [exact Hok' | ].
    intros Hfit. unfold MAX_SAMPLES in *.
    destruct Hroom as [Hsamples ->]; [lia | ].
    rewrite Hsamples in Hroom'. rewrite length_app in Hroom'.
    cbn [List.length] in Hroom'.
    destruct Hroom' as [-> ->]; [lia | ].
    rewrite <- app_assoc. split; reflexivity.
Qed.

(** X5.  A [RunningStats] object that has been given the values
    [values], in this order, since it was made reports their number as
    its count and holds [min(count, 10000)] raw samples; up to 10000
    values the raw samples are the values themselves, in order, and no
    random number has been drawn. *)
Theorem add_all_count_and_samples (values : list float) (tape : Tape) :
  let stats := fst (add_all values empty tape) in
  count stats = Z.of_nat (List.length values)
  /\ Z.of_nat (List.length (rawSamples stats))
     = Z.min (Z.of_nat (List.length values)) MAX_SAMPLES
  /\ (Z.of_nat (List.length values) <= MAX_SAMPLES ->
      rawSamples stats = values
      /\ snd (add_all values empty tape) = tape).
Proof.
  assert (Hempty : reservoir_ok empty) by reflexivity.
  destruct (add_all_spec values empty tape Hempty) as [Hn [Hok Hroom]].
  cbv zeta. unfold count, rawSamples.
  cbn [n samples empty List.length Nat.add app] in Hn, Hroom.
  rewrite Z.add_0_l in Hn.
  split; [exact Hn | ].
  split; [unfold reservoir_ok in Hok; rewrite Hok, Hn; reflexivity | ].
  exact Hroom.
Qed.

End RunningFacts.

(** ** The BTQL client's retry loop *)

Module BtqlFacts.
Import Btql.

Lemma attempt_once_frame outcome d :
  totalRequests (snd (attempt_once outcome d)) = totalRequests d
  /\ consecutiveFailures (snd (attempt_once outcome d))
     = consecutiveFailures d.
Proof.
  unfold attempt_once. destruct outcome as [e | st text json];
    [split; reflexivity | ].
  destruct (st =? 429)%Z; [split; reflexivity | ].
  destruct (negb _); [split; reflexivity | ].
  destruct json; split; reflexivity.
Qed.

(** The loop, entered with [retriesLeft] retries to go. *)
Lemma query_loop_spec backend q retriesLeft :
  forall attempt d tape r d' tape',
    query_loop backend q retriesLeft attempt d tape = (r, d', tape') ->
    (totalRequests d < totalRequests d'
     /\ totalRequests d' <= totalRequests d + retriesLeft + 1)%nat
    /\ match r with
       | Return _ =>
           status d' = healthy /\ consecutiveFailures d' = 0%nat
           /\ lastError d' = None
       | Throw e =>
           status d' = degraded
           /\ consecutiveFailures d' = S (consecutiveFailures d)
           /\ lastError d' = Some (exn_message e)
           /\ (isRetryable e = false
               \/ totalRequests d' = (totalRequests d + retriesLeft + 1)%nat)
       end.
Proof.
  induction retriesLeft as [ | retriesLeft IH];
    intros attempt d tape r d' tape'; cbn [query_loop];
    pose proof (attempt_once_frame
                  (respond backend (totalRequests (count_request d)) q)
                  (count_request d)) as [Hreq Hfail];
    destruct (attempt_once _ (count_request d)) as [[rows | err] d2];
    cbn [snd] in Hreq, Hfail; cbn [totalRequests consecutiveFailures
                                     count_request] in Hreq, Hfail.
  - intros [= <- <- <-]. cbn [totalRequests recordSuccess status
                               consecutiveFailures lastError].
    split; [lia | auto].
  - intros [= <- <- <-]. cbn [totalRequests recordFailure status
                               consecutiveFailures lastError].
    split; [lia | ]. split; [reflexivity | ].
    split; [congruence | ]. split; [reflexivity | right; lia].
  - intros [= <- <- <-]. cbn [totalRequests recordSuccess status
                               consecutiveFailures lastError].
    split; [lia | auto].
  - destruct (isRetryable err) eqn:Hretry; cbn [negb].
    + destruct (Math_random tape) as [x tape1]. intros Hloop.
      apply IH in Hloop.
      cbn [totalRequests consecutiveFailures note_backoff] in Hloop.
      rewrite Hreq, Hfail in Hloop.
      destruct Hloop as [[Hlow Hhigh] Hrest].
      split; [lia | ].
      destruct r as [rows | e]; [exact Hrest | ].
      destruct Hrest as [Hst [Hcf [Herr Hall]]].
      split; [exact Hst | ]. split; [exact Hcf | ].
      split; [exact Herr | ].
      destruct Hall as [Hno | Hall]; [left; exact Hno | right; lia].
    + intros [= <- <- <-]. cbn [totalRequests recordFailure status
                                 consecutiveFailures lastError].
      split; [lia | ]. split; [reflexivity | ].
      split; [congruence | ]. split; [reflexivity | left; exact Hretry].
Qed.

(** X6.  One call of [query] sends at least one request and at most
    [maxRetries + 1].  When it returns rows the client reports itself
    healthy, with no consecutive failure and no last error.  When it
    throws, the client reports itself degraded with one more
    consecutive failure and the error's message as last error; and the
    error thrown is either one that is not retryable, or the one that
    came back from request number [maxRetries + 1]. *)
Theorem query_requests_and_health backend q client tape :
  let '(r, client', _) := query backend q client tape in
  let d := diagnostics client in
  let d' := diagnostics client' in
  config client' = config client
  /\ (totalRequests d < totalRequests d'
      /\ totalRequests d'
         <= totalRequests d + maxRetries (config client) + 1)%nat
  /\ match r with
     | Return _ =>
         status d' = healthy /\ consecutiveFailures d' = 0%nat
         /\ lastError d' = None
     | Throw e =>
         status d' = degraded
         /\ consecutiveFailures d' = S (consecutiveFailures d)
         /\ lastError d' = Some (exn_message e)
         /\ (isRetryable e = false
             \/ totalRequests d'
                = (totalRequests d + maxRetries (config client) + 1)%nat)
     end.
Proof.
  unfold query.
  destruct (query_loop backend q (maxRetries (config client)) 0
              (diagnostics client) tape) as [[r d'] tape'] eqn:Hloop.
  cbn [config diagnostics].
  split; [reflexivity | ].
  exact (query_loop_spec _ _ _ _ _ _ _ _ _ Hloop).
Qed.

End BtqlFacts.

(** ** The monitor's bookkeeping *)

Module MonitorLaws.
Import Btql Monitor Spec.

Section DictLaws.
Context {V : Type}.

Lemma get_set_same (k : string) (v : V) d :
  Dict.get k (Dict.set k v d) = Some v.
Proof.
  induction d as [ | [k' v'] d IH]; cbn [Dict.set Dict.get].
  - rewrite String.eqb_refl. reflexivity.
  - destruct (String.eqb k k') eqn:Heq; cbn [Dict.get]; rewrite Heq;
      [reflexivity | exact IH].
Qed.

Lemma get_set_other (k k' : string) (v : V) d :
  k <> k' -> Dict.get k (Dict.set k' v d) = Dict.get k d.
Proof.
  intros Hneq. induction d as [ | [k0 v0] d IH]; cbn [Dict.set Dict.get].
  - apply String.eqb_neq in Hneq. rewrite Hneq. reflexivity.
  - destruct (String.eqb k' k0) eqn:Heq; cbn [Dict.get].
    + apply String.eqb_eq in Heq. subst k0.
      apply String.eqb_neq in Hneq. rewrite Hneq. reflexivity.
    + rewrite IH. reflexivity.
Qed.

Lemma get_set_defined (k k' : string) (v : V) d :
  Dict.get k d <> None -> Dict.get k (Dict.set k' v d) <> None.
Proof.
  intros Hdef. destruct (string_dec k k') as [-> | Hneq].
  - rewrite get_set_same. discriminate.
  - rewrite get_set_other by exact Hneq. exact Hdef.
Qed.

End DictLaws.

Lemma fresh_stats_defined names :
  forall acc x,
    In x names \/ Dict.get x acc <> None ->
    Dict.get x
      (fold_left (fun stats scorer => Dict.set scorer Running.empty stats)
         names acc) <> None.
Proof.
  induction names as [ | name names IH]; intros acc x Hx; cbn [fold_left].
  - destruct Hx as [[] | Hx]. exact Hx.
  - apply IH. destruct Hx as [[-> | Hin] | Hdef].
    + right. rewrite get_set_same. discriminate.
    + left. exact Hin.
    + right. apply get_set_defined. exact Hdef.
Qed.

Lemma resetStats_ok m :
  0 <= canaryErrors m <= canaryTotal m -> monitor_ok (resetStats m).
Proof.
  intros Hcount. split; [ | exact Hcount].
  intros x Hx. cbn [resetStats baselineStats canaryStats config] in *.
  split; apply fresh_stats_defined; left; exact Hx.
Qed.

Lemma add_n score stats tape :
  Running.n (fst (Running.add score stats tape)) = Running.n stats + 1.
Proof.
  unfold Running.add.
  destruct (_ <? Running.MAX_SAMPLES)%Z; [reflexivity | ].
  destruct (Math_random tape) as [r t0].
  destruct (_ <? Running.MAX_SAMPLES)%Z; reflexivity.
Qed.

(** The first scorer of the inner loop: its entry grows by one when the
    row carries a number for it, and nothing else changes. *)
Lemma consume_scores_cons row name names target tape :
  exists target1 tape1,
    consume_scores row (name :: names) target tape
    = consume_scores row names target1 tape1
    /\ (forall x, Dict.get x target <> None -> Dict.get x target1 <> None)
    /\ (forall x stats,
           Dict.get x target = Some stats ->
           exists stats1,
             Dict.get x target1 = Some stats1
             /\ Running.n stats1
                = Running.n stats
                  + (if String.eqb x name && has_score x row
                     then 1 else 0)).
Proof.
  cbn [consume_scores].
  destruct (Dict.get name (scores row)) as [[score | ] | ] eqn:Hscore;
    [destruct (Dict.get name target) as [stats0 | ] eqn:Hstats | | ].
  - pose proof (add_n score stats0 tape) as Hn.
    destruct (Running.add score stats0 tape) as [stats1 tape1].
    cbn [fst] in Hn.
    exists (Dict.set name stats1 target), tape1.
    split; [reflexivity | ].
    split; [intros x Hdef; apply get_set_defined; exact Hdef | ].
    intros x stats Hget. destruct (String.eqb x name) eqn:Heq.
    + apply String.eqb_eq in Heq. subst x.
      rewrite Hstats in Hget. injection Hget as <-.
      exists stats1. split; [apply get_set_same | ].
      unfold has_score. rewrite Hscore. cbn [andb]. exact Hn.
    + apply String.eqb_neq in Heq. exists stats.
      split; [rewrite get_set_other by exact Heq; exact Hget | ].
      cbn [andb]. lia.
  - exists target, tape. split; [reflexivity | ]. split; [auto | ].
    intros x stats Hget. exists stats. split; [exact Hget | ].
    destruct (String.eqb x name) eqn:Heq; cbn [andb]; [ | lia].
    apply String.eqb_eq in Heq. subst x. congruence.
  - exists target, tape. split; [reflexivity | ]. split; [auto | ].
    intros x stats Hget. exists stats. split; [exact Hget | ].
    unfold has_score.
    destruct (String.eqb x name) eqn:Heq; cbn [andb]; [ | lia].
    apply String.eqb_eq in Heq. subst x. rewrite Hscore. lia.
  - exists target, tape. split; [reflexivity | ]. split; [auto | ].
    intros x stats Hget. exists stats. split; [exact Hget | ].
    unfold has_score.
    destruct (String.eqb x name) eqn:Heq; cbn [andb]; [ | lia].
    apply String.eqb_eq in Heq. subst x. rewrite Hscore. lia.
Qed.

(** What one row does to the statistics of one version: entries stay,
    and the entry of a scorer that is listed, and listed once, grows by
    one exactly when the row carries a number for it. *)
Lemma consume_scores_spec row names :
  forall target tape,
    let target' := fst (consume_scores row names target tape) in
    (forall x, Dict.get x target <> None -> Dict.get x target' <> None)
    /\ (forall x stats,
           NoDup names ->
           Dict.get x target = Some stats ->
           exists stats',
             Dict.get x target' = Some stats'
             /\ Running.n stats'
                = Running.n stats
                  + (if existsb (String.eqb x) names && has_score x row
                     then 1 else 0)).
Proof.
  induction names as [ | name names IH]; intros target tape.
  - cbn [consume_scores fst existsb andb]. split; [auto | ].
    intros x stats _ Hget. exists stats. split; [exact Hget | lia].
  - destruct (consume_scores_cons row name names target tape)
      as [target1 [tape1 [-> [Hkeep1 Hcount1]]]].
    destruct (IH target1 tape1) as [Hkeep Hcount].
    split; [intros x Hdef; apply Hkeep, Hkeep1; exact Hdef | ].
    intros x stats Hnodup Hget.
    inversion Hnodup as [ | ? ? Hnotin Hrest]; subst.
    destruct (Hcount1 x stats Hget) as [stats1 [Hget1 Hn1]].
    destruct (Hcount x stats1 Hrest Hget1) as [stats' [Hget' Hn]].
    exists stats'. split; [exact Hget' | ].
    rewrite Hn, Hn1. cbn [existsb].
    destruct (String.eqb x name) eqn:Heq; cbn [orb andb]; [ | lia].
    apply String.eqb_eq in Heq. subst x.
    assert (Hnot : existsb (String.eqb name) names = false).
    { destruct (existsb (String.eqb name) names) eqn:Hex;
        [ | reflexivity].
      apply ProxyFacts.existsb_eqb_In in Hex. contradiction. }
    rewrite Hnot. cbn [andb]. lia.
Qed.


Lemma consumeRows_spec version rows :
  forall m tape,
    let m' := fst (consumeRows version rows m tape) in
    let stats_of (m0 : ScoreMonitor) :=
      match version with
      | Router.baseline => baselineStats m0
      | Router.canary => canaryStats m0
      end in
    config m' = config m
    /\ (forall x,
           Dict.get x (baselineStats m) <> None ->
           Dict.get x (baselineStats m') <> None)
    /\ (forall x,
           Dict.get x (canaryStats m) <> None ->
           Dict.get x (canaryStats m') <> None)
    /\ match version with
       | Router.baseline =>
           canaryTotal m' = canaryTotal m
           /\ canaryErrors m' = canaryErrors m
           /\ canaryStats m' = canaryStats m
       | Router.canary =>
           canaryTotal m' = canaryTotal m + Z.of_nat (List.length rows)
           /\ canaryErrors m'
              = canaryErrors m
                + Z.of_nat (List.length (filter has_error rows))
           /\ baselineStats m' = baselineStats m
       end
    /\ (forall x stats,
           NoDup (scorerNames (config m)) ->
           In x (scorerNames (config m)) ->
           Dict.get x (stats_of m) = Some stats ->
           exists stats',
             Dict.get x (stats_of m') = Some stats'
             /\ Running.n stats'
                = Running.n stats
                  + Z.of_nat (List.length (filter (has_score x) rows))).
Proof.
  induction rows as [ | row rows IH]; intros m tape; cbv zeta.
  - cbn [consumeRows fst List.length filter].
    split; [reflexivity | ]. split; [auto | ]. split; [auto | ].
    split; [destruct version; repeat split; lia | ].
    intros x stats _ _ Hget. exists stats. split; [exact Hget | lia].
  - cbn [consumeRows]. destruct version.
    + pose proof (consume_scores_spec row (scorerNames (config m))
                    (baselineStats m) tape) as [Hkeep Hcount].
      destruct (consume_scores row _ (baselineStats m) tape)
        as [stats1 tape1].
      cbn [fst] in Hkeep, Hcount.
      match goal with
      | |- context [consumeRows _ rows ?m1 tape1] =>
          specialize (IH m1 tape1); cbv zeta in IH;
          destruct IH as [Hconfig [Hb [Hc [Hcounters Hscores]]]];
          cbn [config baselineStats canaryStats canaryTotal canaryErrors]
            in Hconfig, Hb, Hc, Hcounters, Hscores
      end.
      split; [exact Hconfig | ].
      split; [intros x Hdef; apply Hb, Hkeep; exact Hdef | ].
      split; [exact Hc | ]. split; [exact Hcounters | ].
      intros x stats Hnodup Hin Hget.
      destruct (Hcount x stats Hnodup Hget) as [stats1' [Hget1 Hn1]].
      destruct (Hscores x stats1' Hnodup Hin Hget1) as [stats' [Hget' Hn]].
      exists stats'. split; [exact Hget' | ].
      rewrite Hn, Hn1.
      apply ProxyFacts.existsb_eqb_In in Hin. rewrite Hin.
      cbn [andb filter]. destruct (has_score x row); cbn [List.length]; lia.
    + pose proof (consume_scores_spec row (scorerNames (config m))
                    (canaryStats m) tape) as [Hkeep Hcount].
      destruct (consume_scores row _ (canaryStats m) tape)
        as [stats1 tape1].
      cbn [fst] in Hkeep, Hcount.
      match goal with
      | |- context [consumeRows _ rows ?m1 tape1] =>
          specialize (IH m1 tape1); cbv zeta in IH;
          destruct IH as [Hconfig [Hb [Hc [Hcounters Hscores]]]];
          cbn [config baselineStats canaryStats canaryTotal canaryErrors]
            in Hconfig, Hb, Hc, Hcounters, Hscores
      end.
      split; [exact Hconfig | ]. split; [exact Hb | ].
      split; [intros x Hdef; apply Hc, Hkeep; exact Hdef | ].
      split.
      { destruct Hcounters as [Htotal [Herrors Hbase]].
        cbn [filter List.length].
        split; [rewrite Htotal; lia | ].
        split; [ | exact Hbase].
        rewrite Herrors. destruct (has_error row); cbn [List.length]; lia. }
      intros x stats Hnodup Hin Hget.
      destruct (Hcount x stats Hnodup Hget) as [stats1' [Hget1 Hn1]].
      destruct (Hscores x stats1' Hnodup Hin Hget1) as [stats' [Hget' Hn]].
      exists stats'. split; [exact Hget' | ].
      rewrite Hn, Hn1.
      apply ProxyFacts.existsb_eqb_In in Hin. rewrite Hin.
      cbn [andb filter]. destruct (has_score x row); cbn [List.length]; lia.
Qed.

(** X7.  Consuming canary rows counts every row in [canaryTotal] and
    every row with a non-empty error in [canaryErrors]; consuming
    baseline rows leaves both counters alone. *)
Theorem consumeRows_error_counters rows m tape :
  (let m' := fst (consumeRows Router.canary rows m tape) in
   canaryTotal m' = canaryTotal m + Z.of_nat (List.length rows)
   /\ canaryErrors m'
      = canaryErrors m + Z.of_nat (List.length (filter has_error rows)))
  /\ (let m' := fst (consumeRows Router.baseline rows m tape) in
      canaryTotal m' = canaryTotal m /\ canaryErrors m' = canaryErrors m).
Proof.
  split; cbv zeta.
  - destruct (consumeRows_spec Router.canary rows m tape)
      as [_ [_ [_ [[Htotal [Herrors _]] _]]]].
    split; assumption.
  - destruct (consumeRows_spec Router.baseline rows m tape)
      as [_ [_ [_ [[Htotal [Herrors _]] _]]]].
    split; assumption.
Qed.

(** X8.  When the configured scorer names are free of duplicates (as
    the list [uniqueScorers] builds is), consuming rows raises the
    count of a configured scorer, on the side the rows belong to, by
    the number of rows that carry a number for it: every score is
    counted, and counted once. *)
Theorem consumeRows_counts_each_score_once version rows m tape x stats :
  NoDup (scorerNames (config m)) ->
  In x (scorerNames (config m)) ->
  Dict.get x (match version with
              | Router.baseline => baselineStats m
              | Router.canary => canaryStats m
              end) = Some stats ->
  exists stats',
    Dict.get x
      (match version with
       | Router.baseline =>
           baselineStats (fst (consumeRows version rows m tape))
       | Router.canary =>
           canaryStats (fst (consumeRows version rows m tape))
       end) = Some stats'
    /\ Running.count stats'
       = Running.count stats
         + Z.of_nat (List.length (filter (has_score x) rows)).
Proof.
  intros Hnodup Hin Hget.
  destruct (consumeRows_spec version rows m tape)
    as [_ [_ [_ [_ Hscores]]]].
  destruct (Hscores x stats Hnodup Hin) as [stats' [Hget' Hn]].
  - destruct version; exact Hget.
  - exists stats'. split; [destruct version; exact Hget' | exact Hn].
Qed.

(** X8 at work: the sample monitor consumes the sample baseline row,
    which carries a score for its one scorer. *)
Lemma consumeRows_counts_each_score_once_witness :
  NoDup (scorerNames (config Samples.monitor0))
  /\ In "Q" (scorerNames (config Samples.monitor0))
  /\ Dict.get "Q" (baselineStats Samples.monitor0) = Some Running.empty
  /\ exists stats',
       Dict.get "Q"
         (baselineStats
            (fst (consumeRows Router.baseline [Samples.baseline_row]
                    Samples.monitor0 []))) = Some stats'
       /\ Running.count stats' = 1.
Proof.
  assert (Hnodup : NoDup (scorerNames (config Samples.monitor0)))
    by (constructor; [intros [] | constructor]).
  assert (Hin : In "Q" (scorerNames (config Samples.monitor0)))
    by (left; reflexivity).
  split; [exact Hnodup | ]. split; [exact Hin | ].
  split; [reflexivity | ].
  destruct (consumeRows_counts_each_score_once Router.baseline
              [Samples.baseline_row] Samples.monitor0 [] "Q" Running.empty
              Hnodup Hin eq_refl) as [stats' [Hget Hcount]].
  exists stats'. split; [exact Hget | exact Hcount].
Defined.


Lemma date_le_refl a : date_le a a.
Proof. destruct a; cbn; [lia | exact I]. Qed.

Lemma date_le_trans a b c : date_le a b -> date_le b c -> date_le a c.
Proof. destruct a, b, c; cbn; try tauto; lia. Qed.

(** X9.  [maxCreatedAt] returns the latest of the current watermark and
    the valid creation times of the rows: it is no earlier than any of
    them and is one of them.  Rows whose creation time is no valid date
    are passed over, and an invalid watermark stays as it is. *)
Theorem maxCreatedAt_is_latest (current : JsDate) (rows : list BTQLRow) :
  match current with
  | InvalidDate => maxCreatedAt current rows = InvalidDate
  | DateMs w =>
      exists w',
        maxCreatedAt current rows = DateMs w'
        /\ w <= w'
        /\ (forall row t,
               In row rows -> created row = DateMs t -> t <= w')
        /\ (w' = w \/ exists row, In row rows /\ created row = DateMs w')
  end.
Proof.
  unfold maxCreatedAt. revert current.
  induction rows as [ | row rows IH]; intros current; cbn [fold_left].
  - destruct current as [w | ]; [ | reflexivity].
    exists w. split; [reflexivity | ]. split; [lia | ].
    split; [intros row t [] | left; reflexivity].
  - destruct current as [w | ].
    + destruct (created row) as [t | ] eqn:Hcreated; cbn [date_gtb].
      * destruct (w <? t)%Z eqn:Hlt.
        -- apply Z.ltb_lt in Hlt. specialize (IH (DateMs t)).
           cbn iota in IH.
           destruct IH as [w' [Hfold [Hle [Hall Hone]]]].
           exists w'. split; [exact Hfold | ]. split; [lia | ].
           split.
           ++ intros row0 t0 [<- | Hin] Ht0;
                [rewrite Hcreated in Ht0; injection Ht0 as <-; exact Hle
                | apply (Hall row0 t0 Hin Ht0)].
           ++ right. destruct Hone as [-> | [row0 [Hin Hrow0]]];
                [exists row; split; [left; reflexivity | exact Hcreated]
                | exists row0; split; [right; exact Hin | exact Hrow0]].
        -- apply Z.ltb_ge in Hlt. specialize (IH (DateMs w)).
           cbn iota in IH.
           destruct IH as [w' [Hfold [Hle [Hall Hone]]]].
           exists w'. split; [exact Hfold | ]. split; [exact Hle | ].
           split.
           ++ intros row0 t0 [<- | Hin] Ht0;
                [rewrite Hcreated in Ht0; injection Ht0 as <-; lia
                | apply (Hall row0 t0 Hin Ht0)].
           ++ destruct Hone as [-> | [row0 [Hin Hrow0]]];
                [left; reflexivity
                | right; exists row0; split; [right; exact Hin | exact Hrow0]].
      * specialize (IH (DateMs w)). cbn iota in IH.
        destruct IH as [w' [Hfold [Hle [Hall Hone]]]].
        exists w'. split; [exact Hfold | ]. split; [exact Hle | ].
        split.
        -- intros row0 t0 [<- | Hin] Ht0;
             [rewrite Hcreated in Ht0; discriminate
             | apply (Hall row0 t0 Hin Ht0)].
        -- destruct Hone as [-> | [row0 [Hin Hrow0]]];
             [left; reflexivity
             | right; exists row0; split; [right; exact Hin | exact Hrow0]].
    + assert (Hgt : date_gtb (created row) InvalidDate = false)
        by (destruct (created row); reflexivity).
      rewrite Hgt. apply (IH InvalidDate).
Qed.

Lemma maxCreatedAt_le rows :
  forall current, date_le current (maxCreatedAt current rows).
Proof.
  unfold maxCreatedAt.
  induction rows as [ | row rows IH]; intros current; cbn [fold_left];
    [apply date_le_refl | ].
  eapply date_le_trans; [ | apply IH].
  destruct (created row) as [t | ], current as [w | ]; cbn [date_gtb];
    try apply date_le_refl.
  destruct (w <? t)%Z eqn:Hlt; [ | apply date_le_refl].
  apply Z.ltb_lt in Hlt. cbn. lia.
Qed.

Lemma fetchRows_books backend version watermark m tape :
  let m' := snd (fst (fetchRows backend version watermark m tape)) in
  config m' = config m
  /\ baselineStats m' = baselineStats m
  /\ canaryStats m' = canaryStats m
  /\ canaryTotal m' = canaryTotal m
  /\ canaryErrors m' = canaryErrors m
  /\ baselineWatermark m' = baselineWatermark m
  /\ canaryWatermark m' = canaryWatermark m.
Proof.
  unfold fetchRows. destruct watermark as [after | ];
    [ | cbn; repeat split].
  destruct (query backend _ (btql m) tape) as [[r client] tape'].
  cbn. repeat split.
Qed.

(** The [try] block of a tick keeps the configuration, keeps the books
    in order, and moves no watermark backwards. *)
Lemma poll_try_spec backend m tape :
  let m' := snd (fst (poll_try backend m tape)) in
  config m' = config m
  /\ (monitor_ok m -> monitor_ok m')
  /\ date_le (baselineWatermark m) (baselineWatermark m')
  /\ date_le (canaryWatermark m) (canaryWatermark m').
Proof.
  unfold poll_try.
  pose proof (fetchRows_books backend Router.baseline (baselineWatermark m)
                m tape) as Hf1.
  destruct (fetchRows backend Router.baseline (baselineWatermark m) m tape)
    as [[[baselineRows | e] m1] t1]; cbn [fst snd] in Hf1; cbv zeta in Hf1;
    destruct Hf1 as [Hcfg1 [Hb1 [Hc1 [Htot1 [Herr1 [Hbw1 Hcw1]]]]]].
  2:{ cbn [fst snd]. split; [exact Hcfg1 | ].
      split.
      { unfold monitor_ok. rewrite Hcfg1, Hb1, Hc1, Htot1, Herr1. auto. }
      rewrite Hbw1, Hcw1. split; apply date_le_refl. }
  pose proof (consumeRows_spec Router.baseline baselineRows m1 t1) as Hc.
  pose proof (MonitorFacts.consumeRows_frame Router.baseline baselineRows
                m1 t1) as Hfr.
  destruct (consumeRows Router.baseline baselineRows m1 t1) as [m2 t2].
  cbn [fst] in Hc, Hfr. cbv zeta in Hc.
  destruct Hc as [Hcfg2 [Hb2 [Hc2 [[Htot2 [Herr2 Hcs2]] _]]]].
  destruct Hfr as [Hbw2 [Hcw2 _]].
  match goal with
  | |- context [fetchRows backend Router.canary ?w ?m3 t2] =>
      pose proof (fetchRows_books backend Router.canary w m3 t2) as Hf2;
      destruct (fetchRows backend Router.canary w m3 t2)
        as [[[canaryRows | e] m4] t4]
  end;
    cbn [fst snd] in Hf2; cbv zeta in Hf2;
    cbn [config baselineStats canaryStats canaryTotal canaryErrors
         baselineWatermark canaryWatermark with_baselineWatermark] in Hf2;
    destruct Hf2 as [Hcfg4 [Hb4 [Hc4 [Htot4 [Herr4 [Hbw4 Hcw4]]]]]].
  2:{ cbn [fst snd]. split; [congruence | ].
      split.
      { unfold monitor_ok.
        rewrite Hcfg4, Hb4, Hc4, Htot4, Herr4, Hcfg2, Htot2, Herr2, Hcs2,
          Hcfg1, Htot1, Herr1, Hc1.
        intros [Hcov Hcount]. split; [ | exact Hcount].
        intros x Hx. destruct (Hcov x Hx) as [Hxb Hxc].
        split; [apply Hb2; rewrite Hb1; exact Hxb | exact Hxc]. }
      rewrite Hbw4, Hcw4, Hcw2, Hcw1, Hbw2, Hbw1.
      split; [apply maxCreatedAt_le | apply date_le_refl]. }
  pose proof (consumeRows_spec Router.canary canaryRows m4 t4) as Hc'.
  pose proof (MonitorFacts.consumeRows_frame Router.canary canaryRows
                m4 t4) as Hfr'.
  destruct (consumeRows Router.canary canaryRows m4 t4) as [m5 t5].
  cbn [fst] in Hc', Hfr'. cbv zeta in Hc'.
  destruct Hc' as [Hcfg5 [Hb5 [Hc5 [[Htot5 [Herr5 Hbs5]] _]]]].
  destruct Hfr' as [Hbw5 [Hcw5 _]].
  cbn [fst snd config baselineStats canaryStats canaryTotal canaryErrors
       baselineWatermark canaryWatermark with_canaryWatermark].
  split; [congruence | ].
  split.
  { unfold monitor_ok.
    cbn [config baselineStats canaryStats canaryTotal canaryErrors
         with_canaryWatermark].
    rewrite Hcfg5, Hcfg4, Hcfg2, Hcfg1, Htot5, Herr5, Htot4, Herr4, Htot2,
      Herr2, Htot1, Herr1.
    intros [Hcov Hcount]. split.
    - intros x Hx. destruct (Hcov x Hx) as [Hxb Hxc]. split.
      + apply Hb5. rewrite Hb4. apply Hb2. rewrite Hb1. exact Hxb.
      + apply Hc5. rewrite Hc4. apply Hc2. rewrite Hc1. exact Hxc.
    - pose proof (filter_length_le has_error canaryRows). lia. }
  rewrite Hbw5, Hbw4, Hcw5, Hcw4, Hcw2, Hcw1, Hbw2, Hbw1.
  split; [apply maxCreatedAt_le | apply maxCreatedAt_le].
Qed.

Lemma poll_spec backend m tape :
  let m' := fst (fst (poll backend m tape)) in
  config m' = config m
  /\ (monitor_ok m -> monitor_ok m')
  /\ date_le (baselineWatermark m) (baselineWatermark m')
  /\ date_le (canaryWatermark m) (canaryWatermark m').
Proof.
  unfold poll. destruct (inFlight m).
  - cbn [fst]. split; [reflexivity | ]. split; [auto | ].
    split; apply date_le_refl.
  - pose proof (poll_try_spec backend (with_inFlight true m) tape) as Htry.
    destruct (poll_try backend (with_inFlight true m) tape)
      as [[r m1] tape'].
    cbn [fst snd] in Htry. cbv zeta in Htry.
    cbn [config baselineWatermark canaryWatermark with_inFlight] in Htry.
    destruct Htry as [Hcfg [Hok [Hbw Hcw]]].
    cbn [fst config baselineWatermark canaryWatermark with_inFlight].
    split; [exact Hcfg | ]. split; [ | split; assumption].
    intros Hm. unfold monitor_ok in *.
    cbn [config baselineStats canaryStats canaryTotal canaryErrors
         with_inFlight] in *.
    apply Hok. exact Hm.
Qed.

(** X10.  A tick of the monitor never moves a watermark backwards,
    whatever the backend answers and whether the tick succeeds, fails
    or is dropped: a valid watermark stays valid and does not decrease,
    an invalid one stays invalid. *)
Theorem poll_watermarks_monotone backend m tape :
  let m' := fst (fst (poll backend m tape)) in
  date_le (baselineWatermark m) (baselineWatermark m')
  /\ date_le (canaryWatermark m) (canaryWatermark m').
Proof.
  destruct (poll_spec backend m tape) as [_ [_ Hmono]]. exact Hmono.
Qed.

Lemma live_monitor_ok m : live m -> monitor_ok m.
Proof.
  induction 1 as [client cfg | stageStart m _ IH | backend m tape _ IH].
  - apply resetStats_ok. cbn. lia.
  - apply resetStats_ok. cbn. lia.
  - apply poll_spec. exact IH.
Qed.

Lemma build_from_returns m names :
  forall snapshot,
    (forall x,
        In x names ->
        Dict.get x (baselineStats m) <> None
        /\ Dict.get x (canaryStats m) <> None) ->
    exists snap,
      build_from m names snapshot = Return snap
      /\ (forall x,
             In x names ->
             exists b c,
               Dict.get x (baselineStats m) = Some b
               /\ Dict.get x (canaryStats m) = Some c
               /\ Dict.get x snap
                  = Some {| Types.baseline := summary_of b;
                            Types.canary := summary_of c |})
      /\ (forall x, ~ In x names -> Dict.get x snap = Dict.get x snapshot).
Proof.
  induction names as [ | name names IH]; intros snapshot Hcov;
    cbn [build_from].
  - exists snapshot. split; [reflexivity | ].
    split; [intros x [] | reflexivity].
  - destruct (Hcov name (or_introl eq_refl)) as [Hb Hc].
    destruct (Dict.get name (baselineStats m)) as [b | ] eqn:Hgb;
      [ | contradiction].
    destruct (Dict.get name (canaryStats m)) as [c | ] eqn:Hgc;
      [ | contradiction].
    destruct (IH (Dict.set name
                    {| Types.baseline := summary_of b;
                       Types.canary := summary_of c |} snapshot))
      as [snap [Hbuild [Hin Hout]]].
    { intros x Hx. apply Hcov. right. exact Hx. }
    exists snap. split; [exact Hbuild | ]. split.
    + intros x Hx.
      destruct (in_dec string_dec x names) as [Hlater | Hnot];
        [apply Hin; exact Hlater | ].
      destruct Hx as [<- | Hx]; [ | contradiction].
      exists b, c. split; [exact Hgb | ]. split; [exact Hgc | ].
      rewrite (Hout name Hnot). apply get_set_same.
    + intros x Hx.
      assert (Hneq : x <> name) by (intros ->; apply Hx; left; reflexivity).
      rewrite Hout by (intros Hl; apply Hx; right; exact Hl).
      apply get_set_other. exact Hneq.
Qed.

(** X11.  On a monitor made by the constructor and changed only by
    stage resets and ticks, [buildSnapshot] does not throw: it returns
    a snapshot with exactly one entry per configured scorer, holding the
    summaries of that scorer's two statistics; and the canary's error
    count lies between 0 and its row count. *)
Theorem live_buildSnapshot_returns m :
  live m ->
  (exists snap,
      buildSnapshot m = Return snap
      /\ (forall x,
             In x (scorerNames (config m)) ->
             exists b c,
               Dict.get x (baselineStats m) = Some b
               /\ Dict.get x (canaryStats m) = Some c
               /\ Dict.get x snap
                  = Some {| Types.baseline := summary_of b;
                            Types.canary := summary_of c |})
      /\ (forall x,
             ~ In x (scorerNames (config m)) -> Dict.get x snap = None))
  /\ 0 <= canaryErrors m <= canaryTotal m.
Proof.
  intros Hlive. destruct (live_monitor_ok m Hlive) as [Hcov Hcount].
  split; [ | exact Hcount].
  destruct (build_from_returns m (scorerNames (config m)) [] Hcov)
    as [snap [Hbuild [Hin Hout]]].
  exists snap. split; [exact Hbuild | ]. split; [exact Hin | ].
  intros x Hx. rewrite (Hout x Hx). reflexivity.
Qed.

(** X11 at work: the sample monitor after one tick. *)
Lemma live_buildSnapshot_returns_witness :
  live (fst (fst (poll Samples.backend0 Samples.monitor0 [])))
  /\ exists snap,
       buildSnapshot (fst (fst (poll Samples.backend0 Samples.monitor0 [])))
       = Return snap.
Proof.
  assert (Hlive : live (fst (fst (poll Samples.backend0 Samples.monitor0 []))))
    by (apply live_poll; apply live_create).
  split; [exact Hlive | ].
  destruct (live_buildSnapshot_returns _ Hlive) as [[snap [Hbuild _]] _].
  exists snap. exact Hbuild.
Defined.

End MonitorLaws.

(** ** The steps the controller's methods are made of *)

Module StepFacts.
Import Distributions Types Controller Spec.

Lemma steps_one c c' : primitive c c' -> steps c c'.
Proof. intros Hstep. eapply steps_more; [exact Hstep | apply steps_done]. Qed.

Lemma steps_trans c1 c2 c3 : steps c1 c2 -> steps c2 c3 -> steps c1 c3.
Proof.
  induction 1 as [c | c c1 c2 Hstep _ IH]; intros Hrest; [exact Hrest | ].
  eapply steps_more; [exact Hstep | apply IH; exact Hrest].
Qed.

Lemma walks_ret {A : Type} (a : A) : walks (ret a).
Proof. intros c. apply steps_done. Qed.

(** A computation followed by a continuation, from a given state. *)
Lemma steps_bind {A B : Type} (m : M A) (k : A -> M B) c :
  steps c (snd (m c)) -> (forall a, walks (k a)) ->
  steps c (snd (bind m k c)).
Proof.
  intros Hm Hk. unfold bind.
  destruct (m c) as [[a | e] c1]; cbn [snd] in *; [ | exact Hm].
  eapply steps_trans; [exact Hm | apply Hk].
Qed.

Lemma walks_bind {A B : Type} (m : M A) (k : A -> M B) :
  walks m -> (forall a, walks (k a)) -> walks (bind m k).
Proof. intros Hm Hk c. apply steps_bind; [apply Hm | exact Hk]. Qed.

Lemma walks_emit now type data : walks (emit now type data).
Proof. intros c. apply steps_one, prim_emit. Qed.

(** A patch that names neither identity, state nor stage index may be
    handed to [transition] at any time, except on the way to PAUSED. *)
Lemma walks_transition to why patch :
  p_id patch = None -> p_name patch = None -> p_config patch = None ->
  p_state patch = None -> p_startedAt patch = None ->
  p_stageIndex patch = None -> to <> PAUSED ->
  walks (transition to why patch).
Proof.
  intros Hid Hname Hconfig Hstate Hstarted Hindex Hto c.
  apply steps_one, prim_transition. unfold patch_in_use.
  rewrite Hindex. do 5 (split; [assumption | ]).
  split; [exact I | intros Heq; contradiction].
Qed.

Lemma walks_rollback now why : walks (rollback now why).
Proof.
  intros c. unfold rollback. cbv zeta.
  destruct (snapshot c) as [s | ]; [ | apply steps_done].
  destruct (includes _ (state s)); [apply steps_done | ].
  revert c.
  apply walks_bind;
    [apply walks_transition; (reflexivity || discriminate) | intros _].
  apply walks_bind;
    [apply walks_transition; (reflexivity || discriminate) | intros _].
  apply walks_bind; [ | intros _; apply walks_emit].
  intros c. destruct (snapshot c); [apply walks_emit | apply steps_done].
Qed.

Lemma walks_advanceStage now why : walks (advanceStage now why).
Proof.
  intros c. unfold advanceStage. cbv zeta.
  destruct (snapshot c) as [s | ] eqn:Hsnap; [ | apply steps_done].
  destruct (List.length (stages_of s) <=? S (stageIndex s))%nat.
  - revert c Hsnap. intros c _. revert c.
    apply walks_bind;
      [apply walks_transition; (reflexivity || discriminate)
      | intros _; apply walks_emit].
  - destruct (nth_error (stages_of s) (S (stageIndex s))) as [next | ];
      [ | apply steps_done].
    apply steps_bind.
    + apply steps_one, prim_transition. unfold patch_in_use.
      cbn [p_id p_name p_config p_state p_startedAt p_stageIndex
           p_pausedStageIndex].
      do 5 (split; [reflexivity | ]).
      split; [ | discriminate].
      exists s. split; [exact Hsnap | left; reflexivity].
    + intros _. apply walks_bind; [ | intros _; apply walks_emit].
      intros c1. destruct (monitor c1); [ | apply steps_done].
      destruct (snapshot c1); [ | apply steps_done].
      apply steps_one, prim_monitor.
Qed.

Lemma walks_pause now : walks (pause now).
Proof.
  intros c. unfold pause.
  destruct (snapshot c) as [s | ] eqn:Hsnap; [ | apply steps_done].
  destruct (negb (state_eqb (state s) STAGE)); [apply steps_done | ].
  apply steps_bind.
  - apply steps_one, prim_transition. unfold patch_in_use.
    cbn [p_id p_name p_config p_state p_startedAt p_stageIndex
         p_pausedStageIndex].
    do 5 (split; [reflexivity | ]).
    split; [exact I | intros _].
    split; [reflexivity | ]. exists s. split; [exact Hsnap | reflexivity].
  - intros _ c1. destruct (snapshot c1); [apply walks_emit | apply steps_done].
Qed.

Lemma walks_resume now : walks (resume now).
Proof.
  intros c. unfold resume. cbv zeta.
  destruct (snapshot c) as [s | ] eqn:Hsnap; [ | apply steps_done].
  destruct (state_eqb (state s) PAUSED) eqn:Hstate; cbn [negb];
    [ | apply steps_done].
  destruct (nth_error (stages_of s) _) as [stage | ]; [ | apply steps_done].
  apply steps_bind; [ | intros _; apply walks_emit].
  apply steps_one, prim_transition. unfold patch_in_use.
  cbn [p_id p_name p_config p_state p_startedAt p_stageIndex
       p_pausedStageIndex].
  do 5 (split; [reflexivity | ]).
  split; [ | discriminate].
  exists s. split; [exact Hsnap | right].
  split; [ | reflexivity].
  destruct (state s); (reflexivity || discriminate Hstate).
Qed.

Lemma bind_unfold {A B : Type} (m : M A) (k : A -> M B) c :
  bind m k c
  = match m c with
    | (Return a, c') => k a c'
    | (Throw e, c') => (Throw e, c')
    end.
Proof. reflexivity. Qed.

(** What [startDeployment] comes to: nothing when it throws at once,
    otherwise the insertion of the pending snapshot followed by steps. *)
Lemma startDeployment_steps now config deploymentId c :
  snd (startDeployment now config deploymentId c) = c
  \/ exists c1,
       launched c c1
       /\ steps c1 (snd (startDeployment now config deploymentId c)).
Proof.
  unfold startDeployment.
  destruct (nth_error (Schema.stages (Schema.deployment config)) 0)
    as [firstStage | ]; [ | left; reflexivity].
  cbv zeta. rewrite bind_unfold. cbv beta.
  destruct (Store.createDeployment _ (store c)) as [db | e] eqn:Hcreate;
    [ | left; reflexivity].
  right. eexists. split.
  - eexists _, db. split; [exact Hcreate | ].
    split; [ | split; [ | reflexivity]]; reflexivity.
  - match goal with
    | |- steps ?c1 (snd (bind ?m ?k ?c1)) => generalize c1
    end.
    apply walks_bind; [apply walks_emit | intros _].
    apply walks_bind;
      [apply walks_transition; (reflexivity || discriminate) | intros _].
    intros c1. destruct (snapshot c1); apply steps_done.
Qed.

Section WithKernel.
Context `{BetaKernel}.

Lemma walks_promote now force : walks (promote now force).
Proof.
  intros c. unfold promote. cbv zeta.
  destruct (snapshot c) as [s | ]; [ | apply steps_done].
  destruct (negb (includes [STAGE; PAUSED] (state s)));
    [apply steps_done | ].
  destruct (negb force && state_eqb (state s) STAGE);
    [ | apply walks_advanceStage].
  destruct (evaluateStage now c (latestScores c) (currentCanaryErrorRate c))
    as [decision | e]; [ | apply steps_done].
  destruct (negb (d_promote decision));
    [apply steps_done | apply walks_advanceStage].
Qed.

Lemma walks_onScoreUpdate now scores : walks (onScoreUpdate now scores).
Proof.
  intros c. unfold onScoreUpdate. cbv zeta.
  cbn [snapshot with_latestScores].
  destruct (snapshot c) as [s | ];
    [ | apply steps_one; apply (prim_latestScores scores c)].
  destruct (negb (state_eqb (state s) STAGE));
    [apply steps_one; apply (prim_latestScores scores c) | ].
  eapply steps_more; [apply (prim_latestScores scores c) | ].
  eapply steps_more;
    [apply (prim_recordScoreSnapshot (id s) (stageIndex s) scores
              (with_latestScores scores c)) | ].
  match goal with
  | |- steps ?c1 (snd (bind ?m ?k ?c1')) => generalize c1
  end.
  apply walks_bind; [apply walks_emit | intros _].
  apply walks_bind; [intros c2; apply steps_done | intros decision].
  apply walks_bind;
    [intros c3; apply steps_one, prim_decision | intros _].
  apply walks_bind; [apply walks_emit | intros _].
  destruct (d_rollback decision); [apply walks_rollback | ].
  destruct (d_promote decision); [apply walks_advanceStage | ].
  apply walks_ret.
Qed.

(** Every call that works on the current deployment is a sequence of
    steps. *)
Lemma perform_steps call c :
  on_current call -> steps c (snd (perform call c)).
Proof.
  destruct call; cbn [on_current perform]; intros Hcall;
    [contradiction | apply walks_pause | apply walks_resume
    | apply walks_promote | apply walks_rollback | apply walks_onScoreUpdate
    | apply steps_one, prim_monitor | apply walks_emit | apply walks_emit].
Qed.

Lemma perform_startDeployment now config deploymentId c :
  snd (perform (call_startDeployment now config deploymentId) c)
  = snd (startDeployment now config deploymentId c).
Proof.
  cbn [perform]. unfold bind, ret.
  destruct (startDeployment now config deploymentId c) as [[s | e] c1];
    reflexivity.
Qed.

(** A property that holds of a fresh controller, survives every step,
    and holds once a deployment has been inserted, holds of every
    reachable controller. *)
Lemma reachable_invariant (I : StageController -> Prop) :
  (forall db, I (create db)) ->
  (forall c c', primitive c c' -> I c -> I c') ->
  (forall c c', launched c c' -> I c') ->
  forall c, reachable c -> I c.
Proof.
  intros Hcreate Hstep Hlaunch.
  assert (Hsteps : forall c c', steps c c' -> I c -> I c').
  { induction 1 as [c | c c1 c2 Hprim _ IH]; intros Hc; [exact Hc | ].
    apply IH. apply (Hstep c c1 Hprim Hc). }
  induction 1 as [db | c now config deploymentId _ IH | c now scores _ IH
                 | c now why _ IH | c now _ IH | c now _ IH
                 | c now force _ IH | c now why _ IH | c m _ IH
                 | c now health _ IH | c now e _ IH | c m _ IH _].
  - apply Hcreate.
  - destruct (startDeployment_steps now config deploymentId c)
      as [-> | [c1 [Hl Hs]]]; [exact IH | ].
    apply (Hsteps c1 _ Hs). apply (Hlaunch c c1 Hl).
  - apply (Hsteps c _ (walks_onScoreUpdate now scores c) IH).
  - apply (Hsteps c _ (walks_advanceStage now why c) IH).
  - apply (Hsteps c _ (walks_pause now c) IH).
  - apply (Hsteps c _ (walks_resume now c) IH).
  - apply (Hsteps c _ (walks_promote now force c) IH).
  - apply (Hsteps c _ (walks_rollback now why c) IH).
  - apply (Hstep c _ (prim_monitor (Some m) c) IH).
  - apply (Hsteps c _ (walks_emit now _ _ c) IH).
  - apply (Hsteps c _ (walks_emit now _ _ c) IH).
  - apply (Hstep c _ (prim_monitor (Some m) c) IH).
Qed.

End WithKernel.

End StepFacts.

(** ** The history a controller keeps *)

Module HistoryFacts.
Import Distributions Types Controller Spec.

Lemma extends_refl c : extends c c.
Proof.
  repeat split; exists []; rewrite ?app_nil_r; auto.
Qed.

Lemma extends_trans c1 c2 c3 : extends c1 c2 -> extends c2 c3 -> extends c1 c3.
Proof.
  intros [[t1 Ht1] [[s1 Hs1] [[i1 Hi1] [e1 [He1 Hb1]]]]]
         [[t2 Ht2] [[s2 Hs2] [[i2 Hi2] [e2 [He2 Hb2]]]]].
  split; [exists (t1 ++ t2)%list; rewrite Ht2, Ht1; symmetry; apply app_assoc | ].
  split; [exists (s1 ++ s2)%list; rewrite Hs2, Hs1; symmetry; apply app_assoc | ].
  split; [exists (i1 ++ i2)%list; rewrite Hi2, Hi1; symmetry; apply app_assoc | ].
  exists (e1 ++ e2)%list.
  split; [rewrite He2, He1 | rewrite Hb2, Hb1]; symmetry; apply app_assoc.
Qed.

Lemma extends_same_store c c' :
  store c' = store c -> bus c' = bus c -> extends c c'.
Proof.
  intros Hstore Hbus. unfold extends. rewrite Hstore, Hbus.
  apply extends_refl.
Qed.

(** An update of the deployments table touches no row's id. *)
Lemma update_row_id new old : Store.id (Store.update_row new old) = Store.id old.
Proof.
  unfold Store.update_row.
  destruct (String.eqb (Store.id old) (Store.id new)); reflexivity.
Qed.

Lemma updateDeployment_ids s db :
  map Store.id (Store.deployments (Store.updateDeployment s db))
  = map Store.id (Store.deployments db).
Proof.
  cbn [Store.updateDeployment Store.deployments]. rewrite map_map.
  apply map_ext. intros row. apply update_row_id.
Qed.

Lemma emit_extends now type data c : extends c (snd (emit now type data c)).
Proof.
  unfold emit. destruct (snapshot c) as [s | ]; [ | apply extends_refl].
  cbn [snd]. unfold extends.
  cbn [store bus with_bus with_store Store.recordEvent
       Store.state_transitions Store.score_snapshots Store.deployments
       Store.events].
  split; [exists []; rewrite app_nil_r; reflexivity | ].
  split; [exists []; rewrite app_nil_r; reflexivity | ].
  split; [exists []; rewrite app_nil_r; reflexivity | ].
  eexists. split; reflexivity.
Qed.

Lemma transition_extends to why patch c :
  extends c (snd (transition to why patch c)).
Proof.
  unfold transition. destruct (snapshot c) as [s | ]; [ | apply extends_refl].
  destruct (Machine.transitionSnapshot s to patch) as [s' | e];
    [ | apply extends_refl].
  cbv zeta. cbn [snd]. unfold extends.
  cbn [store bus with_store with_snapshot Store.recordTransition
       Store.state_transitions Store.score_snapshots Store.deployments
       Store.events].
  split; [eexists; reflexivity | ].
  split; [exists []; rewrite app_nil_r; reflexivity | ].
  split; [exists []; rewrite app_nil_r; apply updateDeployment_ids | ].
  exists []. rewrite !app_nil_r. split; reflexivity.
Qed.

Lemma primitive_extends c c' : primitive c c' -> extends c c'.
Proof.
  destruct 1 as [now type data c | to why patch c _ | scores c | d c | m c
                | deploymentId stageIndex scores c].
  - apply emit_extends.
  - apply transition_extends.
  - apply extends_same_store; reflexivity.
  - apply extends_same_store; reflexivity.
  - apply extends_same_store; reflexivity.
  - unfold extends.
    cbn [store bus with_store Store.recordScoreSnapshot
         Store.state_transitions Store.score_snapshots Store.deployments
         Store.events].
    split; [exists []; rewrite app_nil_r; reflexivity | ].
    split; [eexists; reflexivity | ].
    split; [exists []; rewrite app_nil_r; reflexivity | ].
    exists []. rewrite !app_nil_r. split; reflexivity.
Qed.

Lemma steps_extends c c' : steps c c' -> extends c c'.
Proof.
  induction 1 as [c | c c1 c2 Hprim _ IH]; [apply extends_refl | ].
  eapply extends_trans; [apply primitive_extends; exact Hprim | exact IH].
Qed.

Lemma launched_extends c c' : launched c c' -> extends c c'.
Proof.
  intros [pending [db [Hcreate [_ [_ ->]]]]].
  unfold Store.createDeployment in Hcreate.
  destruct (Store.has_deployment (id pending) (store c)); [discriminate | ].
  injection Hcreate as <-. unfold extends.
  cbn [store bus with_store with_snapshot
       Store.state_transitions Store.score_snapshots Store.deployments
       Store.events].
  split; [exists []; rewrite app_nil_r; reflexivity | ].
  split; [exists []; rewrite app_nil_r; reflexivity | ].
  split; [eexists; apply map_app | ].
  exists []. rewrite !app_nil_r. split; reflexivity.
Qed.

Section WithKernel.
Context `{BetaKernel}.

(** X12.  Whatever method or listener of the controller is called, with
    whatever arguments, and whether it returns or throws, the history
    only grows: the transition table, the score-snapshot table and the
    event table keep their rows and may get new ones at the end, the
    deployments table keeps a row for every id it had, and the events
    appended to the event table are, in the same order, the events
    handed to the bus. *)
Theorem perform_extends_history (call : Call) (c : StageController) :
  extends c (snd (perform call c)).
Proof.
  destruct call as [now config deploymentId | | | | | | | | ];
    try (apply steps_extends, StepFacts.perform_steps; exact I).
  rewrite StepFacts.perform_startDeployment.
  destruct (StepFacts.startDeployment_steps now config deploymentId c)
    as [-> | [c1 [Hl Hs]]]; [apply extends_refl | ].
  eapply extends_trans; [apply launched_extends; exact Hl | ].
  apply steps_extends. exact Hs.
Qed.

End WithKernel.

End HistoryFacts.

(** ** The row the store keeps of the current deployment *)

Module PersistenceFacts.
Import Distributions Types Controller Spec.

Lemma find_map_same {A : Type} (p : A -> bool) (f : A -> A) (l : list A) :
  (forall x, p (f x) = p x) ->
  find p (map f l) = option_map f (find p l).
Proof.
  intros Hp. induction l as [ | x l IH]; cbn [map find]; [reflexivity | ].
  rewrite Hp. destruct (p x); [reflexivity | exact IH].
Qed.

Lemma find_new_row {A : Type} (p : A -> bool) (l : list A) (x : A) :
  existsb p l = false -> p x = true -> find p (l ++ [x])%list = Some x.
Proof.
  intros Hnone Hx. induction l as [ | y l IH]; cbn [app find].
  - rewrite Hx. reflexivity.
  - cbn [existsb] in Hnone. apply orb_false_iff in Hnone.
    destruct Hnone as [Hy Hl]. rewrite Hy. apply IH. exact Hl.
Qed.

(** A transition keeps what identifies the deployment, unless its
    patch names it. *)
Lemma transitionSnapshot_identity s to patch s' :
  Machine.transitionSnapshot s to patch = Return s' ->
  p_id patch = None -> p_name patch = None -> p_config patch = None ->
  p_startedAt patch = None ->
  id s' = id s /\ name s' = name s /\ config s' = config s
  /\ startedAt s' = startedAt s.
Proof.
  unfold Machine.transitionSnapshot.
  destruct (Machine.assertTransitionAllowed (state s) to); [ | discriminate].
  intros [= <-] Hid Hname Hconfig Hstarted. cbn.
  rewrite Hid, Hname, Hconfig, Hstarted. repeat split.
Qed.

Lemma emit_same_snapshot now type data c :
  snapshot (snd (emit now type data c)) = snapshot c
  /\ Store.deployments (store (snd (emit now type data c)))
     = Store.deployments (store c).
Proof.
  unfold emit. destruct (snapshot c) eqn:Hsnap; cbn; auto.
Qed.

Lemma primitive_in_sync c c' : primitive c c' -> in_sync c -> in_sync c'.
Proof.
  destruct 1 as [now type data c | to why patch c Hpatch | scores c | d c
                | m c | deploymentId stageIndex scores c];
    intros Hsync; try exact Hsync.
  - destruct (emit_same_snapshot now type data c) as [Hsnap Hrows].
    unfold in_sync. rewrite Hsnap, Hrows. exact Hsync.
  - unfold transition.
    destruct (snapshot c) as [s | ] eqn:Hsnap; [ | exact Hsync].
    destruct (Machine.transitionSnapshot s to patch) as [s' | e] eqn:Htr;
      [ | exact Hsync].
    cbv zeta. cbn [snd]. intros s0 Hs0.
    cbn [snapshot with_store with_snapshot] in Hs0. injection Hs0 as <-.
    cbn [store with_store with_snapshot Store.recordTransition
         Store.updateDeployment Store.deployments].
    destruct Hpatch as [Hid [Hname [Hconfig [_ [Hstarted _]]]]].
    destruct (transitionSnapshot_identity s to patch s' Htr Hid Hname
                Hconfig Hstarted) as [Hid' [Hname' [Hconfig' Hstarted']]].
    rewrite find_map_same by (intros row; rewrite HistoryFacts.update_row_id;
                                reflexivity).
    rewrite Hid'. rewrite (Hsync s Hsnap). cbn [option_map]. f_equal.
    unfold Store.update_row, Store.toRow.
    cbn [Store.id Store.name Store.config_json Store.state Store.stage_index
         Store.stage_entered_at Store.started_at Store.completed_at
         Store.final_state Store.paused_stage_index Store.canary_weight
         Store.reason].
    rewrite Hid', String.eqb_refl, Hname', Hconfig', Hstarted'. reflexivity.
Qed.

Lemma launched_in_sync c c' : launched c c' -> in_sync c'.
Proof.
  intros [pending [db [Hcreate [_ [_ ->]]]]].
  unfold Store.createDeployment in Hcreate.
  destruct (Store.has_deployment (id pending) (store c)) eqn:Hhas;
    [discriminate | ].
  injection Hcreate as <-. intros s0 Hs0.
  cbn [snapshot with_store with_snapshot] in Hs0. injection Hs0 as <-.
  cbn [store with_store with_snapshot Store.deployments].
  apply find_new_row; [exact Hhas | ].
  cbn [Store.id Store.toRow]. apply String.eqb_refl.
Qed.

Section WithKernel.
Context `{BetaKernel}.

Lemma reachable_in_sync c : reachable c -> in_sync c.
Proof.
  apply StepFacts.reachable_invariant.
  - intros db s Hs. discriminate Hs.
  - apply primitive_in_sync.
  - apply launched_in_sync.
Qed.

(** X13.  After any sequence of calls, what the store returns for the
    current deployment's id is the snapshot the controller holds, field
    by field; the one difference is a reason that is the empty string,
    which is read back as no reason. *)
Theorem reachable_getDeployment_current c s :
  reachable c ->
  snapshot c = Some s ->
  Store.getDeployment (id s) (store c)
  = Some {| id := id s;
            name := name s;
            config := config s;
            state := state s;
            stageIndex := stageIndex s;
            stageEnteredAt := stageEnteredAt s;
            startedAt := startedAt s;
            completedAt := completedAt s;
            finalState := finalState s;
            pausedStageIndex := pausedStageIndex s;
            canaryWeight := canaryWeight s;
            reason := match reason s with
                      | Some why => if truthy why then Some why else None
                      | None => None
                      end |}.
Proof.
  intros Hreach Hsnap. unfold Store.getDeployment.
  rewrite (reachable_in_sync c Hreach s Hsnap). reflexivity.
Qed.

End WithKernel.

(** X13 at work: the deployment just started. *)
Lemma reachable_getDeployment_current_witness :
  (forall K : BetaKernel, reachable Samples.started_controller)
  /\ snapshot Samples.started_controller = Some Samples.staged_at_start
  /\ forall K : BetaKernel,
       Store.getDeployment "dep-1" (store Samples.started_controller)
       = Some Samples.staged_at_start.
Proof.
  assert (Hreach : forall K : BetaKernel,
             reachable Samples.started_controller)
    by (intros K; apply reach_startDeployment, reach_create).
  assert (Hsnap : snapshot Samples.started_controller
                  = Some Samples.staged_at_start)
    by (vm_compute; reflexivity).
  split; [exact Hreach | ]. split; [exact Hsnap | ].
  intros K.
  exact (@reachable_getDeployment_current K Samples.started_controller
           Samples.staged_at_start (Hreach K) Hsnap).
Defined.

End PersistenceFacts.

(** ** The deployment a controller holds, and the order of its stages *)

Module StageOrderFacts.
Import Distributions Types Controller Spec.

Lemma onward_refl c : onward c c.
Proof.
  intros s Hs. exists s. split; [exact Hs | ]. repeat split. lia.
Qed.

Lemma onward_trans c1 c2 c3 : onward c1 c2 -> onward c2 c3 -> onward c1 c3.
Proof.
  intros H12 H23 s Hs.
  destruct (H12 s Hs) as [s2 [Hs2 [Hid2 [Hname2 [Hcfg2 [Hst2 Hle2]]]]]].
  destruct (H23 s2 Hs2) as [s3 [Hs3 [Hid3 [Hname3 [Hcfg3 [Hst3 Hle3]]]]]].
  exists s3. split; [exact Hs3 | ].
  repeat split; try congruence. lia.
Qed.

Lemma onward_same_snapshot c c' : snapshot c' = snapshot c -> onward c c'.
Proof.
  intros Hsame s Hs. exists s. rewrite Hsame.
  split; [exact Hs | ]. repeat split. lia.
Qed.

Lemma paused_same_snapshot c c' :
  snapshot c' = snapshot c -> paused_index_ok c -> paused_index_ok c'.
Proof. intros Hsame Hok s Hs. rewrite Hsame in Hs. apply Hok. exact Hs. Qed.

Lemma primitive_onward c c' :
  primitive c c' -> paused_index_ok c -> paused_index_ok c' /\ onward c c'.
Proof.
  destruct 1 as [now type data c | to why patch c Hpatch | scores c | d c
                | m c | deploymentId stageIndex scores c];
    intros Hok;
    try (split; [apply (paused_same_snapshot c); [reflexivity | exact Hok]
                | apply onward_same_snapshot; reflexivity]).
  - destruct (PersistenceFacts.emit_same_snapshot now type data c)
      as [Hsnap _].
    split; [apply (paused_same_snapshot c); assumption
           | apply onward_same_snapshot; exact Hsnap].
  - unfold transition.
    destruct (snapshot c) as [s | ] eqn:Hsnap;
      [ | split; [exact Hok | apply onward_refl]].
    destruct (Machine.transitionSnapshot s to patch) as [s' | e] eqn:Htr;
      [ | split; [exact Hok | apply onward_refl]].
    cbv zeta. cbn [snd].
    destruct Hpatch
      as [Hid [Hname [Hconfig [Hstate [Hstarted [Hindex Hpaused]]]]]].
    destruct (PersistenceFacts.transitionSnapshot_identity s to patch s' Htr
                Hid Hname Hconfig Hstarted)
      as [Hid' [Hname' [Hconfig' Hstarted']]].
    unfold Machine.transitionSnapshot in Htr.
    destruct (Machine.assertTransitionAllowed (state s) to);
      [ | discriminate].
    injection Htr as Hs'.
    assert (Hto : state s' = to) by (rewrite <- Hs'; cbn; rewrite Hstate; reflexivity).
    assert (Hidx : stageIndex s'
                   = Machine.spread (p_stageIndex patch) (stageIndex s))
      by (rewrite <- Hs'; reflexivity).
    assert (Hps : pausedStageIndex s'
                  = Machine.spread (p_pausedStageIndex patch)
                      (pausedStageIndex s))
      by (rewrite <- Hs'; reflexivity).
    split.
    + intros s0 Hs0 Hst0.
      cbn [snapshot with_store with_snapshot] in Hs0. injection Hs0 as <-.
      rewrite Hto in Hst0.
      destruct (Hpaused Hst0) as [Hnone [s1 [Hs1 Hpatched]]].
      rewrite Hsnap in Hs1. injection Hs1 as <-.
      rewrite Hps, Hidx, Hnone, Hpatched. reflexivity.
    + intros s0 Hs0. rewrite Hsnap in Hs0. injection Hs0 as <-.
      exists s'. cbn [snapshot with_store with_snapshot].
      split; [reflexivity | ].
      split; [exact Hid' | ]. split; [exact Hname' | ].
      split; [exact Hconfig' | ]. split; [exact Hstarted' | ].
      rewrite Hidx.
      destruct (p_stageIndex patch) as [i | ]; cbn [Machine.spread]; [ | lia].
      destruct Hindex as [s1 [Hs1 Hi]].
      rewrite Hsnap in Hs1. injection Hs1 as <-.
      destruct Hi as [-> | [Hwas ->]]; [lia | ].
      rewrite (Hok s Hsnap Hwas). cbn [nullish]. lia.
Qed.

Lemma steps_onward c c' :
  steps c c' -> paused_index_ok c -> paused_index_ok c' /\ onward c c'.
Proof.
  induction 1 as [c | c c1 c2 Hprim _ IH]; intros Hok;
    [split; [exact Hok | apply onward_refl] | ].
  destruct (primitive_onward c c1 Hprim Hok) as [Hok1 Hon1].
  destruct (IH Hok1) as [Hok2 Hon2].
  split; [exact Hok2 | apply (onward_trans c c1 c2); assumption].
Qed.

Lemma launched_paused_index_ok c c' : launched c c' -> paused_index_ok c'.
Proof.
  intros [pending [db [_ [Hstate [_ ->]]]]] s Hs Hpaused.
  cbn [snapshot with_store with_snapshot] in Hs. injection Hs as <-.
  congruence.
Qed.

Section WithKernel.
Context `{BetaKernel}.

Lemma reachable_paused_index_ok c : reachable c -> paused_index_ok c.
Proof.
  apply StepFacts.reachable_invariant.
  - intros db s Hs. discriminate Hs.
  - intros c0 c' Hprim Hok. apply (primitive_onward c0 c' Hprim Hok).
  - apply launched_paused_index_ok.
Qed.

(** X14.  Once a controller holds a deployment, every call other than
    [startDeployment] leaves it holding that deployment: the id, the
    name, the configuration and the start time stay as they are, and
    the stage index stays or grows; no call moves a deployment back to
    an earlier stage. *)
Theorem perform_keeps_deployment_and_stage_order c call s :
  reachable c ->
  on_current call ->
  snapshot c = Some s ->
  exists s',
    snapshot (snd (perform call c)) = Some s'
    /\ id s' = id s /\ name s' = name s /\ config s' = config s
    /\ startedAt s' = startedAt s
    /\ (stageIndex s <= stageIndex s')%nat.
Proof.
  intros Hreach Hcall Hsnap.
  destruct (steps_onward c _ (StepFacts.perform_steps call c Hcall)
              (reachable_paused_index_ok c Hreach)) as [_ Hon].
  exact (Hon s Hsnap).
Qed.

(** A paused deployment knows the stage it was paused at: [resume]
    reads the index from there. *)
Lemma reachable_paused_index c s :
  reachable c -> snapshot c = Some s -> state s = PAUSED ->
  pausedStageIndex s = Some (stageIndex s).
Proof. intros Hreach. apply (reachable_paused_index_ok c Hreach). Qed.

End WithKernel.

(** X14 at work: pausing the deployment just started. *)
Lemma perform_keeps_deployment_and_stage_order_witness :
  (forall K : BetaKernel, reachable Samples.started_controller)
  /\ on_current (call_pause 2000)
  /\ snapshot Samples.started_controller = Some Samples.staged_at_start
  /\ forall K : BetaKernel,
       exists s',
         snapshot (snd (perform (call_pause 2000) Samples.started_controller))
         = Some s'
         /\ id s' = "dep-1" /\ (0 <= stageIndex s')%nat.
Proof.
  assert (Hreach : forall K : BetaKernel,
             reachable Samples.started_controller)
    by (intros K; apply reach_startDeployment, reach_create).
  assert (Hsnap : snapshot Samples.started_controller
                  = Some Samples.staged_at_start)
    by (vm_compute; reflexivity).
  split; [exact Hreach | ]. split; [exact I | ]. split; [exact Hsnap | ].
  intros K.
  destruct (@perform_keeps_deployment_and_stage_order K
              Samples.started_controller (call_pause 2000)
              Samples.staged_at_start (Hreach K) I Hsnap)
    as [s' [Hs' [Hid [_ [_ [_ Hle]]]]]].
  exists s'. split; [exact Hs' | ]. split; [exact Hid | exact Hle].
Defined.

End StageOrderFacts.

(** ** What the operator's calls come to *)

Module OutcomeFacts.
Import Distributions Types Controller Spec.

(** X15.  [rollback] on a deployment that is pending, in a stage or
    paused returns; the deployment is then ROLLED_BACK with canary
    weight 0, the time of the call as its completion time and the
    reason given (or manual_rollback) on record; two transitions are
    written, into ROLLING_BACK and on into ROLLED_BACK, and the events
    rollback_triggered and deployment_complete are emitted, in this
    order.  Everything else about the deployment stays. *)
Theorem rollback_outcome now why c s :
  snapshot c = Some s ->
  In (state s) [PENDING; STAGE; PAUSED] ->
  let text := nullish why "manual_rollback" in
  let c' := snd (rollback now why c) in
  fst (rollback now why c) = Return tt
  /\ snapshot c'
     = Some {| id := id s;
               name := name s;
               config := config s;
               state := ROLLED_BACK;
               stageIndex := stageIndex s;
               stageEnteredAt := stageEnteredAt s;
               startedAt := startedAt s;
               completedAt := Some now;
               finalState := Some FinalRolledBack;
               pausedStageIndex := pausedStageIndex s;
               canaryWeight := 0;
               reason := Some text |}
  /\ Store.state_transitions (store c')
     = (Store.state_transitions (store c)
        ++ [ {| Store.t_deployment_id := id s;
                Store.from_state := state s;
                Store.to_state := ROLLING_BACK;
                Store.t_reason := Some text;
                Store.scores_snapshot := Some (latestScores c) |};
             {| Store.t_deployment_id := id s;
                Store.from_state := ROLLING_BACK;
                Store.to_state := ROLLED_BACK;
                Store.t_reason := Some text;
                Store.scores_snapshot := Some (latestScores c) |} ])%list
  /\ bus c'
     = (bus c
        ++ [ {| Events.type := Events.rollback_triggered;
                Events.timestamp_ := now;
                Events.deployment_id_ := id s;
                Events.data :=
                  Events.RollbackTriggered text (stageIndex s) 0 |};
             {| Events.type := Events.deployment_complete;
                Events.timestamp_ := now;
                Events.deployment_id_ := id s;
                Events.data :=
                  Events.DeploymentComplete FinalRolledBack |} ])%list
  /\ monitor c' = monitor c.
Proof.
  intros Hsnap Hstate. cbv zeta. unfold rollback. cbv zeta. rewrite Hsnap.
  assert (Hgo : includes [ROLLED_BACK; PROMOTED; IDLE] (state s) = false
                /\ includes (Machine.ALLOWED (state s)) ROLLING_BACK = true).
  { destruct Hstate as [<- | [<- | [<- | []]]]; split; reflexivity. }
  destruct Hgo as [Hactive Hallowed]. rewrite Hactive.
  unfold bind, transition, Machine.transitionSnapshot,
    Machine.assertTransitionAllowed.
  rewrite Hsnap, Hallowed. cbn.
  split; [reflexivity | ]. split; [reflexivity | ].
  split; [rewrite <- app_assoc; reflexivity | ].
  split; [rewrite <- app_assoc; reflexivity | reflexivity].
Qed.

(** X15 at work: the started deployment, rolled back by hand. *)
Lemma rollback_outcome_witness :
  snapshot Samples.started_controller = Some Samples.staged_at_start
  /\ In (state Samples.staged_at_start) [PENDING; STAGE; PAUSED]
  /\ fst (rollback 3000 None Samples.started_controller) = Return tt
  /\ snapshot (snd (rollback 3000 None Samples.started_controller))
     = Some Samples.rolled_back_snapshot.
Proof.
  assert (Hsnap : snapshot Samples.started_controller
                  = Some Samples.staged_at_start)
    by (vm_compute; reflexivity).
  assert (Hstate : In (state Samples.staged_at_start) [PENDING; STAGE; PAUSED])
    by (right; left; reflexivity).
  split; [exact Hsnap | ]. split; [exact Hstate | ].
  destruct (rollback_outcome 3000 None Samples.started_controller
              Samples.staged_at_start Hsnap Hstate) as [Hret [Hafter _]].
  split; [exact Hret | exact Hafter].
Defined.

(** X16.  Pausing a deployment that is in a stage and resuming it
    later both return, and bring the deployment back into the same
    stage with the weight of that stage; the pause is on record while
    it lasts, and the stage's clock starts afresh at the time of the
    resume call, so the time spent in the stage before the pause no
    longer counts towards its duration. *)
Theorem pause_then_resume_outcome t1 t2 c s stage :
  snapshot c = Some s ->
  state s = STAGE ->
  nth_error (stages_of s) (stageIndex s) = Some stage ->
  let c1 := snd (pause t1 c) in
  let c2 := snd (resume t2 c1) in
  fst (pause t1 c) = Return tt
  /\ snapshot c1
     = Some {| id := id s;
               name := name s;
               config := config s;
               state := PAUSED;
               stageIndex := stageIndex s;
               stageEnteredAt := stageEnteredAt s;
               startedAt := startedAt s;
               completedAt := completedAt s;
               finalState := finalState s;
               pausedStageIndex := Some (stageIndex s);
               canaryWeight := canaryWeight s;
               reason := reason s |}
  /\ fst (resume t2 c1) = Return tt
  /\ snapshot c2
     = Some {| id := id s;
               name := name s;
               config := config s;
               state := STAGE;
               stageIndex := stageIndex s;
               stageEnteredAt := t2;
               startedAt := startedAt s;
               completedAt := completedAt s;
               finalState := finalState s;
               pausedStageIndex := None;
               canaryWeight := Schema.weight stage;
               reason := reason s |}
  /\ bus c2
     = (bus c
        ++ [ {| Events.type := Events.paused;
                Events.timestamp_ := t1;
                Events.deployment_id_ := id s;
                Events.data := Events.Paused (stageIndex s) |};
             {| Events.type := Events.resumed;
                Events.timestamp_ := t2;
                Events.deployment_id_ := id s;
                Events.data := Events.Resumed (stageIndex s) |} ])%list.
Proof.
  intros Hsnap Hstate Hstage. cbv zeta.
  assert (Hpause :
            pause t1 c
            = (Return tt,
               snd (pause t1 c))
            /\ snapshot (snd (pause t1 c))
               = Some {| id := id s;
                         name := name s;
                         config := config s;
                         state := PAUSED;
                         stageIndex := stageIndex s;
                         stageEnteredAt := stageEnteredAt s;
                         startedAt := startedAt s;
                         completedAt := completedAt s;
                         finalState := finalState s;
                         pausedStageIndex := Some (stageIndex s);
                         canaryWeight := canaryWeight s;
                         reason := reason s |}
            /\ bus (snd (pause t1 c))
               = (bus c
                  ++ [ {| Events.type := Events.paused;
                          Events.timestamp_ := t1;
                          Events.deployment_id_ := id s;
                          Events.data := Events.Paused (stageIndex s) |} ])%list).
  { unfold pause. rewrite Hsnap, Hstate.
    unfold bind, transition, Machine.transitionSnapshot,
      Machine.assertTransitionAllowed.
    rewrite Hsnap, Hstate. cbn. repeat split. }
  destruct Hpause as [Hreturn [Hsnap1 Hbus1]].
  split; [rewrite Hreturn; reflexivity | ]. split; [exact Hsnap1 | ].
  unfold resume. rewrite Hsnap1. cbv zeta.
  cbn [state pausedStageIndex stageIndex nullish state_eqb negb stages_of
       config].
  unfold stages_of in *. cbn [config]. rewrite Hstage.
  unfold bind, transition, Machine.transitionSnapshot,
    Machine.assertTransitionAllowed.
  rewrite Hsnap1. cbn. rewrite Hbus1, <- app_assoc. repeat split.
Qed.

(** X16 at work: the started deployment, paused and resumed. *)
Lemma pause_then_resume_outcome_witness :
  snapshot Samples.started_controller = Some Samples.staged_at_start
  /\ state Samples.staged_at_start = STAGE
  /\ fst (resume 4000 (snd (pause 2000 Samples.started_controller)))
     = Return tt.
Proof.
  assert (Hsnap : snapshot Samples.started_controller
                  = Some Samples.staged_at_start)
    by (vm_compute; reflexivity).
  split; [exact Hsnap | ]. split; [reflexivity | ].
  destruct (pause_then_resume_outcome 2000 4000 Samples.started_controller
              Samples.staged_at_start _ Hsnap eq_refl eq_refl)
    as [_ [_ [Hret _]]].
  exact Hret.
Defined.


(** The two branches of [advanceStage] are told apart by whether a
    stage follows the current one. *)
Lemma last_stage_test (s : DeploymentSnapshot) :
  (List.length (stages_of s) <=? S (stageIndex s))%nat
  = match nth_error (stages_of s) (S (stageIndex s)) with
    | Some _ => false
    | None => true
    end.
Proof.
  destruct (nth_error (stages_of s) (S (stageIndex s))) as [next | ] eqn:Hnext.
  - apply Nat.leb_gt. apply nth_error_Some. congruence.
  - apply Nat.leb_le. apply nth_error_None. exact Hnext.
Qed.

Section WithKernel.
Context `{BetaKernel}.

(** X17.  A forced [promote] on a deployment that is in a stage
    evaluates no gate.  When a stage follows, the deployment enters it:
    the stage index grows by one, the canary weight becomes that
    stage's weight, the stage's clock starts at the time of the call,
    the attached monitor is reset to that time, and stage_change is
    emitted.  When the current stage is the last one, the deployment
    becomes PROMOTED with canary weight 100 and the time of the call
    as completion time, and deployment_complete is emitted. *)
Theorem promote_forced_outcome now c s :
  snapshot c = Some s ->
  state s = STAGE ->
  let c' := snd (promote now true c) in
  fst (promote now true c) = Return tt
  /\ match nth_error (stages_of s) (S (stageIndex s)) with
     | Some next =>
         snapshot c'
         = Some {| id := id s;
                   name := name s;
                   config := config s;
                   state := STAGE;
                   stageIndex := S (stageIndex s);
                   stageEnteredAt := now;
                   startedAt := startedAt s;
                   completedAt := completedAt s;
                   finalState := finalState s;
                   pausedStageIndex := pausedStageIndex s;
                   canaryWeight := Schema.weight next;
                   reason := reason s |}
         /\ monitor c'
            = match monitor c with
              | Some m => Some (Monitor.resetForStage (DateMs now) m)
              | None => None
              end
         /\ bus c'
            = (bus c
               ++ [ {| Events.type := Events.stage_change;
                       Events.timestamp_ := now;
                       Events.deployment_id_ := id s;
                       Events.data :=
                         Events.StageChange (stageIndex s)
                           (S (stageIndex s)) (Schema.weight next) |} ])%list
     | None =>
         snapshot c'
         = Some {| id := id s;
                   name := name s;
                   config := config s;
                   state := PROMOTED;
                   stageIndex := stageIndex s;
                   stageEnteredAt := stageEnteredAt s;
                   startedAt := startedAt s;
                   completedAt := Some now;
                   finalState := Some FinalPromoted;
                   pausedStageIndex := pausedStageIndex s;
                   canaryWeight := 100;
                   reason := reason s |}
         /\ monitor c' = monitor c
         /\ bus c'
            = (bus c
               ++ [ {| Events.type := Events.deployment_complete;
                       Events.timestamp_ := now;
                       Events.deployment_id_ := id s;
                       Events.data :=
                         Events.DeploymentComplete FinalPromoted |} ])%list
     end.
Proof.
  intros Hsnap Hstate. cbv zeta. unfold promote. cbv zeta.
  rewrite Hsnap, Hstate. cbn [includes existsb state_eqb orb negb andb].
  unfold advanceStage. cbv zeta. rewrite Hsnap, last_stage_test.
  destruct (nth_error (stages_of s) (S (stageIndex s))) as [next | ];
    unfold bind, transition, Machine.transitionSnapshot,
      Machine.assertTransitionAllowed;
    rewrite Hsnap, Hstate; cbn.
  - destruct (monitor c) eqn:Hmonitor; cbn; rewrite ?Hmonitor; repeat split.
  - repeat split.
Qed.

(** X18.  [promote] on a paused deployment evaluates no gate either,
    forced or not.  When a stage follows the one the deployment was
    paused in, the deployment enters it and is in STAGE again.  When it
    was paused in its last stage, [promote] throws, the state machine
    having no transition from PAUSED to PROMOTED, and nothing has
    changed. *)
Theorem promote_paused_outcome now force c s :
  snapshot c = Some s ->
  state s = PAUSED ->
  match nth_error (stages_of s) (S (stageIndex s)) with
  | Some next =>
      fst (promote now force c) = Return tt
      /\ snapshot (snd (promote now force c))
         = Some {| id := id s;
                   name := name s;
                   config := config s;
                   state := STAGE;
                   stageIndex := S (stageIndex s);
                   stageEnteredAt := now;
                   startedAt := startedAt s;
                   completedAt := completedAt s;
                   finalState := finalState s;
                   pausedStageIndex := pausedStageIndex s;
                   canaryWeight := Schema.weight next;
                   reason := reason s |}
  | None =>
      promote now force c
      = (Throw (Error "Error" "Invalid transition: PAUSED -> PROMOTED"), c)
  end.
Proof.
  intros Hsnap Hstate. unfold promote. cbv zeta.
  rewrite Hsnap, Hstate.
  cbn [includes existsb state_eqb orb negb andb].
  rewrite andb_false_r.
  unfold advanceStage. cbv zeta. rewrite Hsnap, last_stage_test.
  destruct (nth_error (stages_of s) (S (stageIndex s))) as [next | ];
    unfold bind, transition, Machine.transitionSnapshot,
      Machine.assertTransitionAllowed;
    rewrite Hsnap, Hstate; cbn.
  - destruct (monitor c) eqn:Hmonitor; cbn; rewrite ?Hmonitor; repeat split.
  - reflexivity.
Qed.

End WithKernel.

(** X17 at work: the started deployment, promoted by force into its
    second and last stage. *)
Lemma promote_forced_outcome_witness :
  snapshot Samples.started_controller = Some Samples.staged_at_start
  /\ state Samples.staged_at_start = STAGE
  /\ forall K : BetaKernel,
       fst (promote 5000 true Samples.started_controller) = Return tt.
Proof.
  assert (Hsnap : snapshot Samples.started_controller
                  = Some Samples.staged_at_start)
    by (vm_compute; reflexivity).
  split; [exact Hsnap | ]. split; [reflexivity | ].
  intros K.
  exact (proj1 (@promote_forced_outcome K 5000 Samples.started_controller
                  Samples.staged_at_start Hsnap eq_refl)).
Defined.

(** X18 at work: the sample deployment paused in its first stage, which
    a second stage follows. *)
Lemma promote_paused_outcome_witness :
  snapshot Samples.paused_controller = Some Samples.paused_snapshot
  /\ state Samples.paused_snapshot = PAUSED
  /\ forall K : BetaKernel,
       fst (promote 5000 false Samples.paused_controller) = Return tt.
Proof.
  assert (Hsnap : snapshot Samples.paused_controller
                  = Some Samples.paused_snapshot)
    by (vm_compute; reflexivity).
  split; [exact Hsnap | ]. split; [reflexivity | ].
  intros K.
  exact (proj1 (@promote_paused_outcome K 5000 false Samples.paused_controller
                  Samples.paused_snapshot Hsnap eq_refl)).
Defined.

(** X19.  [startDeployment] throws a TypeError when the configuration
    has no stage, and the store's error when the id is taken, in both
    cases before anything has changed.  Otherwise it returns the
    snapshot it leaves current: in STAGE, at stage 0, with the weight
    of the first stage and the time of the call as start of the
    deployment and of the stage; deployment_started has been emitted
    and the transition from PENDING to STAGE written.  It does not look
    at the deployment the controller held before. *)
Theorem startDeployment_outcome now config deploymentId c :
  let r := startDeployment now config deploymentId c in
  match nth_error (Schema.stages (Schema.deployment config)) 0 with
  | None => r = (Throw (undefined_property "weight"), c)
  | Some firstStage =>
      if Store.has_deployment deploymentId (store c) then
        r = (Throw (Error "SqliteError"
                      "UNIQUE constraint failed: deployments.id"), c)
      else
        let started :=
          {| id := deploymentId;
             name := Schema.name (Schema.deployment config);
             config := config;
             state := STAGE;
             stageIndex := 0;
             stageEnteredAt := now;
             startedAt := now;
             completedAt := None;
             finalState := None;
             pausedStageIndex := None;
             canaryWeight := Schema.weight firstStage;
             reason := None |} in
        fst r = Return started
        /\ snapshot (snd r) = Some started
        /\ Store.getDeployment deploymentId (store (snd r)) = Some started
        /\ Store.state_transitions (store (snd r))
           = (Store.state_transitions (store c)
              ++ [ {| Store.t_deployment_id := deploymentId;
                      Store.from_state := PENDING;
                      Store.to_state := STAGE;
                      Store.t_reason := Some "deployment_initialized";
                      Store.scores_snapshot := Some (latestScores c) |} ])%list
        /\ bus (snd r)
           = (bus c
              ++ [ {| Events.type := Events.deployment_started;
                      Events.timestamp_ := now;
                      Events.deployment_id_ := deploymentId;
                      Events.data :=
                        Events.DeploymentStarted deploymentId
                          (Schema.name (Schema.deployment config)) 0
                          (Schema.weight firstStage) |} ])%list
  end.
Proof.
  cbv zeta. unfold startDeployment.
  destruct (nth_error (Schema.stages (Schema.deployment config)) 0)
    as [firstStage | ]; [ | reflexivity].
  cbv zeta. rewrite StepFacts.bind_unfold. cbv beta.
  unfold Store.createDeployment. cbn [id].
  destruct (Store.has_deployment deploymentId (store c)) eqn:Hhas;
    [reflexivity | ].
  unfold bind, emit, transition, Machine.transitionSnapshot,
    Machine.assertTransitionAllowed.
  cbn.
  split; [reflexivity | ]. split; [reflexivity | ].
  split; [ | split; reflexivity].
  unfold Store.getDeployment.
  cbn [Store.deployments Store.recordTransition Store.updateDeployment
       Store.recordEvent].
  rewrite PersistenceFacts.find_map_same
    by (intros row; rewrite HistoryFacts.update_row_id; reflexivity).
  rewrite PersistenceFacts.find_new_row;
    [ | exact Hhas | cbn; apply String.eqb_refl].
  cbn [option_map]. unfold Store.update_row, Store.toRow. cbn.
  rewrite String.eqb_refl. reflexivity.
Qed.


Section WithKernel.
Context `{BetaKernel}.

(** X20.  A deployment that is PROMOTED or ROLLED_BACK stays as it is:
    whatever is called on the controller, short of starting a new
    deployment, the snapshot is the same afterwards, no transition is
    written and the deployments table is untouched; [pause], [resume],
    [promote] and [rollback] throw and change nothing at all. *)
Theorem terminal_state_is_final call c s :
  on_current call ->
  snapshot c = Some s ->
  state s = PROMOTED \/ state s = ROLLED_BACK ->
  snapshot (snd (perform call c)) = Some s
  /\ Store.deployments (store (snd (perform call c)))
     = Store.deployments (store c)
  /\ Store.state_transitions (store (snd (perform call c)))
     = Store.state_transitions (store c)
  /\ (manual call ->
      exists message, perform call c = (Throw (Error "Error" message), c)).
Proof.
  intros Hcall Hsnap Hstate.
  destruct call as [now config deploymentId | now | now | now force
                   | now why | now scores | m | now health | now e];
    cbn [on_current perform manual] in *; try contradiction.
  - unfold pause. rewrite Hsnap.
    destruct Hstate as [-> | ->]; cbn; (repeat split; try assumption);
      intros _; eexists; reflexivity.
  - unfold resume. rewrite Hsnap.
    destruct Hstate as [-> | ->]; cbn; (repeat split; try assumption);
      intros _; eexists; reflexivity.
  - unfold promote. rewrite Hsnap.
    destruct Hstate as [-> | ->]; cbn; (repeat split; try assumption);
      intros _; eexists; reflexivity.
  - unfold rollback. rewrite Hsnap.
    destruct Hstate as [-> | ->]; cbn; (repeat split; try assumption);
      intros _; eexists; reflexivity.
  - unfold onScoreUpdate. cbv zeta. cbn [snapshot with_latestScores].
    rewrite Hsnap.
    destruct Hstate as [-> | ->]; cbn; (repeat split; try assumption);
      intros [].
  - cbn. repeat split; try assumption. intros [].
  - unfold onMonitorHealth, emit. rewrite Hsnap. cbn.
    repeat split; try assumption. intros [].
  - unfold onMonitorError, emit. rewrite Hsnap. cbn.
    repeat split; try assumption. intros [].
Qed.

End WithKernel.

(** X20 at work: pausing the deployment that was rolled back. *)
Lemma terminal_state_is_final_witness :
  on_current (call_pause 4000)
  /\ snapshot Samples.rolled_back_controller
     = Some Samples.rolled_back_snapshot
  /\ state Samples.rolled_back_snapshot = ROLLED_BACK
  /\ forall K : BetaKernel,
       snapshot (snd (perform (call_pause 4000)
                        Samples.rolled_back_controller))
       = Some Samples.rolled_back_snapshot.
Proof.
  assert (Hsnap : snapshot Samples.rolled_back_controller
                  = Some Samples.rolled_back_snapshot)
    by (vm_compute; reflexivity).
  split; [exact I | ]. split; [exact Hsnap | ]. split; [reflexivity | ].
  intros K.
  exact (proj1 (@terminal_state_is_final K (call_pause 4000)
                  Samples.rolled_back_controller
                  Samples.rolled_back_snapshot I Hsnap
                  (or_intror eq_refl))).
Defined.

End OutcomeFacts.

(** ** Gates and stage decisions in the controller *)

Module DecisionFacts.
Import Distributions Types Controller Spec.

Lemma synthetic_samples_length mean std todo :
  forall i, List.length (synthetic_samples mean std i todo) = todo.
Proof.
  induction todo as [ | todo IH]; intros i; cbn [synthetic_samples List.length];
    [reflexivity | ].
  rewrite IH. reflexivity.
Qed.

(** The stand-in statistics always offer Welch's test two samples or
    more. *)
Lemma makeRunningStats_raw mean std n :
  (2 <= List.length (EvaluateGate.rawSamples (makeRunningStats mean std n)))%nat
  /\ EvaluateGate.count (makeRunningStats mean std n) = n
  /\ EvaluateGate.average (makeRunningStats mean std n) = mean.
Proof.
  unfold makeRunningStats. cbv zeta.
  cbn [EvaluateGate.rawSamples EvaluateGate.count EvaluateGate.average].
  split; [ | split; reflexivity].
  destruct (n <=? 1)%Z eqn:Hsmall.
  - destruct (n =? 1)%Z; cbn; lia.
  - apply Z.leb_gt in Hsmall.
    rewrite synthetic_samples_length.
    assert (Hlen : (2 <= Z.to_nat n)%nat) by lia.
    destruct (1 <? Z.to_nat n)%nat eqn:Hlt;
      [rewrite synthetic_samples_length; exact Hlen | cbn; lia].
Qed.

Section WithKernel.
Context `{BetaKernel}.

(** With two raw samples on each side [evaluateGate] returns, and its
    result carries the gate's scorer and the counts and means it was
    given; it reports insufficient data exactly when a count is short. *)
Lemma evaluateGate_total gate b c minSamples :
  (2 <= List.length (EvaluateGate.rawSamples b))%nat ->
  (2 <= List.length (EvaluateGate.rawSamples c))%nat ->
  exists r,
    EvaluateGate.evaluateGate gate b c minSamples = Return r
    /\ EvaluateGate.scorer r = Schema.scorer gate
    /\ EvaluateGate.baselineN r = EvaluateGate.count b
    /\ EvaluateGate.canaryN r = EvaluateGate.count c
    /\ EvaluateGate.baselineMean r = EvaluateGate.average b
    /\ EvaluateGate.canaryMean r = EvaluateGate.average c
    /\ (EvaluateGate.status r = EvaluateGate.insufficient_data
        <-> EvaluateGate.count c < minSamples
            \/ EvaluateGate.count b < 10).
Proof.
  intros Hb Hc. unfold EvaluateGate.evaluateGate. cbv zeta.
  destruct ((EvaluateGate.count c <? minSamples)%Z
            || (EvaluateGate.count b <? 10)%Z) eqn:Hguard.
  - eexists. split; [reflexivity | ]. cbn.
    do 5 (split; [reflexivity | ]).
    split; [intros _ | reflexivity].
    apply orb_true_iff in Hguard. rewrite !Z.ltb_lt in Hguard. exact Hguard.
  - assert (Hcounts : ~ (EvaluateGate.count c < minSamples
                         \/ EvaluateGate.count b < 10)).
    { apply orb_false_iff in Hguard. rewrite !Z.ltb_ge in Hguard. lia. }
    destruct (WelchFacts.welchTTest_returns _ _ Hb Hc) as [t Ht].
    destruct (Schema.comparison gate); rewrite ?Ht;
      (eexists; split; [reflexivity | ]); cbn;
      do 5 (split; [reflexivity | ]);
      (split; [ | intros Hshort; contradiction]);
      match goal with
      | |- context [if ?x && ?y then _ else _] => destruct (x && y)
      end; discriminate.
Qed.

(** The controller's [evaluateGate] on the entry of a score snapshot. *)
Lemma evaluateGate_entry gate stage scores :
  exists r,
    evaluateGate gate stage scores = Return r
    /\ EvaluateGate.scorer r = Schema.scorer gate
    /\ match Dict.get (Schema.scorer gate) scores with
       | Some summary =>
           EvaluateGate.baselineN r = n (baseline summary)
           /\ EvaluateGate.canaryN r = n (canary summary)
           /\ EvaluateGate.baselineMean r = mean (baseline summary)
           /\ EvaluateGate.canaryMean r = mean (canary summary)
       | None =>
           EvaluateGate.baselineN r = 0 /\ EvaluateGate.canaryN r = 0
           /\ EvaluateGate.status r = EvaluateGate.insufficient_data
       end
    /\ (EvaluateGate.status r = EvaluateGate.insufficient_data
        <-> EvaluateGate.canaryN r < Schema.min_samples stage
            \/ EvaluateGate.baselineN r < 10).
Proof.
  unfold evaluateGate. cbv zeta.
  destruct (Dict.get (Schema.scorer gate) scores) as [summary | ].
  - destruct (makeRunningStats_raw (mean (baseline summary))
                (std (baseline summary)) (n (baseline summary)))
      as [Hb [Hbn Hbm]].
    destruct (makeRunningStats_raw (mean (canary summary))
                (std (canary summary)) (n (canary summary)))
      as [Hc [Hcn Hcm]].
    destruct (evaluateGate_total gate _ _ (Schema.min_samples stage) Hb Hc)
      as [r [Hr [Hs [HbN [HcN [HbM [HcM Hstatus]]]]]]].
    exists r. split; [exact Hr | ]. split; [exact Hs | ].
    rewrite Hbn in HbN. rewrite Hcn in HcN. rewrite Hbm in HbM.
    rewrite Hcm in HcM.
    split; [repeat split; assumption | ].
    rewrite Hstatus, HbN, HcN, Hbn, Hcn. reflexivity.
  - destruct (makeRunningStats_raw 0 0 0) as [Hraw [Hn Hm]].
    destruct (evaluateGate_total gate _ _ (Schema.min_samples stage)
                Hraw Hraw)
      as [r [Hr [Hs [HbN [HcN [HbM [HcM Hstatus]]]]]]].
    exists r. split; [exact Hr | ]. split; [exact Hs | ].
    rewrite Hn in HbN, HcN.
    split.
    + split; [exact HbN | ]. split; [exact HcN | ].
      apply Hstatus. right. rewrite Hn. lia.
    + rewrite Hstatus, HbN, HcN, Hn. reflexivity.
Qed.

(** X21.  The controller's [evaluateGate] never throws.  Its result
    carries the gate's scorer, and the counts and means of the scorer's
    entry in the score snapshot, or zero counts when the snapshot has
    no entry for the scorer; its status is insufficient_data exactly
    when the canary count is below the stage's [min_samples] or the
    baseline count is below 10, which covers the scorer without an
    entry. *)
Theorem controller_evaluateGate_returns gate stage scores :
  exists r,
    evaluateGate gate stage scores = Return r
    /\ EvaluateGate.scorer r = Schema.scorer gate
    /\ match Dict.get (Schema.scorer gate) scores with
       | Some summary =>
           EvaluateGate.baselineN r = n (baseline summary)
           /\ EvaluateGate.canaryN r = n (canary summary)
           /\ EvaluateGate.baselineMean r = mean (baseline summary)
           /\ EvaluateGate.canaryMean r = mean (canary summary)
       | None =>
           EvaluateGate.baselineN r = 0 /\ EvaluateGate.canaryN r = 0
           /\ EvaluateGate.status r = EvaluateGate.insufficient_data
       end
    /\ (EvaluateGate.status r = EvaluateGate.insufficient_data
        <-> EvaluateGate.canaryN r < Schema.min_samples stage
            \/ EvaluateGate.baselineN r < 10).
Proof. exact (evaluateGate_entry gate stage scores). Qed.

Lemma map_result_returns {A B : Type} (f : A -> result B)
    (P : A -> B -> Prop) (xs : list A) :
  (forall x, In x xs -> exists y, f x = Return y /\ P x y) ->
  exists ys, map_result f xs = Return ys /\ Forall2 P xs ys.
Proof.
  induction xs as [ | x xs IH]; intros Hall; cbn [map_result].
  - exists []. split; [reflexivity | constructor].
  - destruct (Hall x (or_introl eq_refl)) as [y [Hy Hp]].
    destruct IH as [ys [Hys Hps]];
      [intros x' Hx'; apply Hall; right; exact Hx' | ].
    rewrite Hy, Hys. exists (y :: ys).
    split; [reflexivity | constructor; assumption].
Qed.

Lemma Forall2_In_left {A B : Type} (P : A -> B -> Prop) xs ys x :
  Forall2 P xs ys -> In x xs -> exists y, In y ys /\ P x y.
Proof.
  induction 1 as [ | x0 y0 xs ys Hp _ IH]; intros Hin; [contradiction | ].
  destruct Hin as [-> | Hin].
  - exists y0. split; [left; reflexivity | exact Hp].
  - destruct (IH Hin) as [y [Hy Hpy]]. exists y.
    split; [right; exact Hy | exact Hpy].
Qed.

(** Every reason [evaluateRollback] gives is a non-empty string. *)
Lemma evaluateRollback_truthy c gates rate why :
  evaluateRollback c gates rate = Some why -> truthy why = true.
Proof.
  unfold evaluateRollback. destruct (snapshot c) as [s | ]; [ | discriminate].
  cbv zeta. destruct (find is_regressing gates);
    [intros [= <-]; reflexivity | ].
  destruct (find (is_absolute_drop _) gates);
    [intros [= <-]; reflexivity | ].
  destruct (JsNumber.gtb rate _); [intros [= <-]; reflexivity | discriminate].
Qed.

(** [evaluateStage], for a deployment whose current stage exists and
    has a duration that parses. *)
Lemma evaluateStage_spec now c scores rate s stage durationMs :
  snapshot c = Some s ->
  nth_error (stages_of s) (stageIndex s) = Some stage ->
  match Schema.duration stage with
  | Some d => if truthy d then Duration.parseDuration d else Return 0
  | None => Return 0
  end = Return durationMs ->
  exists decision,
    evaluateStage now c scores rate = Return decision
    /\ Forall2 (fun gate r => evaluateGate gate stage scores = Return r)
         (Schema.gates stage) (d_gateResults decision)
    /\ d_timeRemainingMs decision
       = Z.max 0 (durationMs - (now - stageEnteredAt s))
    /\ d_reason decision
       = evaluateRollback c (d_gateResults decision) rate
    /\ d_rollback decision
       = match evaluateRollback c (d_gateResults decision) rate with
         | Some _ => true
         | None => false
         end
    /\ d_promote decision
       = negb (d_rollback decision)
         && ((0 <? List.length (d_gateResults decision))%nat
             && forallb
                  (fun r =>
                     match EvaluateGate.status r with
                     | EvaluateGate.passing => true
                     | _ => false
                     end) (d_gateResults decision)
             && (durationMs <=? now - stageEnteredAt s)%Z
             && forallb
                  (fun r => (Schema.min_samples stage
                             <=? EvaluateGate.canaryN r)%Z)
                  (d_gateResults decision))
    /\ d_nextAction decision
       = (if d_rollback decision then Events.rollback
          else if d_promote decision then Events.auto_promote
               else Events.hold).
Proof.
  intros Hsnap Hstage Hduration. unfold evaluateStage.
  rewrite Hsnap, Hstage.
  destruct (map_result_returns
              (fun gate => evaluateGate gate stage scores)
              (fun gate r => evaluateGate gate stage scores = Return r)
              (Schema.gates stage)) as [results [Hresults Hall]].
  { intros gate _. destruct (evaluateGate_entry gate stage scores)
      as [r [Hr _]]. exists r. split; exact Hr. }
  rewrite Hresults, Hduration. cbv zeta.
  destruct (evaluateRollback c results rate) as [why | ] eqn:Hrollback.
  - rewrite (evaluateRollback_truthy c results rate why Hrollback).
    eexists. split; [reflexivity | ].
    cbn [d_gateResults d_timeRemainingMs d_reason d_rollback d_promote
         d_nextAction].
    rewrite Hrollback. repeat split. exact Hall.
  - eexists. split; [reflexivity | ].
    cbn [d_gateResults d_timeRemainingMs d_reason d_rollback d_promote
         d_nextAction negb andb].
    rewrite Hrollback. repeat split. exact Hall.
Qed.

Lemma forallb_Forall {A : Type} (f : A -> bool) (l : list A) :
  forallb f l = true <-> Forall (fun x => f x = true) l.
Proof. rewrite forallb_forall, Forall_forall. reflexivity. Qed.

(** X22.  For a deployment whose current stage exists and has a
    duration that parses, [evaluateStage] returns a decision and does
    not throw.  The decision holds one gate result per gate of the
    stage, in the order of the gates.  It never asks for promotion and
    rollback at once.  It asks for promotion only if the stage has a
    gate, every gate result is passing with the stage's [min_samples]
    reached, and the stage's duration has elapsed; a decision to roll
    back carries a non-empty reason; and the next action it names is
    rollback, auto_promote or hold accordingly. *)
Theorem evaluateStage_decision now c scores rate s stage durationMs :
  snapshot c = Some s ->
  nth_error (stages_of s) (stageIndex s) = Some stage ->
  match Schema.duration stage with
  | Some d => if truthy d then Duration.parseDuration d else Return 0
  | None => Return 0
  end = Return durationMs ->
  exists decision,
    evaluateStage now c scores rate = Return decision
    /\ Forall2 (fun gate r => EvaluateGate.scorer r = Schema.scorer gate)
         (Schema.gates stage) (d_gateResults decision)
    /\ (d_promote decision = true -> d_rollback decision = false)
    /\ (d_promote decision = true ->
        Schema.gates stage <> []
        /\ Forall
             (fun r =>
                EvaluateGate.status r = EvaluateGate.passing
                /\ Schema.min_samples stage <= EvaluateGate.canaryN r)
             (d_gateResults decision)
        /\ durationMs <= now - stageEnteredAt s
        /\ d_timeRemainingMs decision = 0)
    /\ (d_rollback decision = true ->
        exists why, d_reason decision = Some why /\ why <> "")
    /\ d_nextAction decision
       = (if d_rollback decision then Events.rollback
          else if d_promote decision then Events.auto_promote
               else Events.hold).
Proof.
  intros Hsnap Hstage Hduration.
  destruct (evaluateStage_spec now c scores rate s stage durationMs
              Hsnap Hstage Hduration)
    as [decision [Hreturn [Hgates [Htime [Hreason [Hrollback
                                                     [Hpromote Hnext]]]]]]].
  exists decision. split; [exact Hreturn | ].
  split.
  { clear - Hgates. induction Hgates as [ | gate r gates results Hr _ IH];
      constructor; [ | exact IH].
    destruct (evaluateGate_entry gate stage scores) as [r' [Hr' [Hs _]]].
    rewrite Hr in Hr'. injection Hr' as <-. exact Hs. }
  split.
  { intros Hp. rewrite Hp in Hpromote. symmetry in Hpromote.
    apply andb_true_iff in Hpromote. destruct Hpromote as [Hno _].
    destruct (d_rollback decision); [discriminate | reflexivity]. }
  split.
  { intros Hp. rewrite Hp in Hpromote. symmetry in Hpromote.
    apply andb_true_iff in Hpromote. destruct Hpromote as [_ Hp1].
    apply andb_true_iff in Hp1. destruct Hp1 as [Hp1 Hsamples].
    apply andb_true_iff in Hp1. destruct Hp1 as [Hp1 Helapsed].
    apply andb_true_iff in Hp1. destruct Hp1 as [Hsome Hpassing].
    apply Z.leb_le in Helapsed.
    split.
    { intros Hnone. apply Forall2_length in Hgates.
      rewrite Hnone in Hgates. cbn [List.length] in Hgates.
      rewrite <- Hgates in Hsome. discriminate. }
    split.
    { apply forallb_Forall in Hpassing. apply forallb_Forall in Hsamples.
      rewrite Forall_forall in *. intros r Hr. split.
      - specialize (Hpassing r Hr).
        destruct (EvaluateGate.status r); (reflexivity || discriminate).
      - apply Z.leb_le. exact (Hsamples r Hr). }
    split; [exact Helapsed | rewrite Htime; lia]. }
  split; [ | exact Hnext].
  intros Hr. rewrite Hreason.
  destruct (evaluateRollback c (d_gateResults decision) rate) as [why | ]
    eqn:Hwhy; [ | rewrite Hr in Hrollback; discriminate].
  exists why. split; [reflexivity | ].
  apply evaluateRollback_truthy in Hwhy. intros ->. discriminate.
Qed.

(** X23.  The rollback on an absolute drop does not wait for samples.
    When, for some gate of the current stage, the baseline mean in the
    score snapshot exceeds the canary mean by more than
    [rollback.on_score_drop], [evaluateStage] decides to roll back,
    whatever the counts are: also while every gate reports
    insufficient data, and also when the canary mean is the 0 of a
    canary without a single scored row. *)
Theorem absolute_drop_ignores_sample_counts
    now c scores rate s stage durationMs gate summary :
  snapshot c = Some s ->
  nth_error (stages_of s) (stageIndex s) = Some stage ->
  match Schema.duration stage with
  | Some d => if truthy d then Duration.parseDuration d else Return 0
  | None => Return 0
  end = Return durationMs ->
  In gate (Schema.gates stage) ->
  Dict.get (Schema.scorer gate) scores = Some summary ->
  JsNumber.gtb (mean (baseline summary) - mean (canary summary))%float
    (Schema.on_score_drop (Schema.rollback (Schema.deployment (config s))))
  = true ->
  exists decision why,
    evaluateStage now c scores rate = Return decision
    /\ d_rollback decision = true
    /\ d_promote decision = false
    /\ d_nextAction decision = Events.rollback
    /\ d_reason decision = Some why.
Proof.
  intros Hsnap Hstage Hduration Hgate Hentry Hdrop.
  destruct (evaluateStage_spec now c scores rate s stage durationMs
              Hsnap Hstage Hduration)
    as [decision [Hreturn [Hgates [_ [Hreason [Hrollback
                                                 [Hpromote Hnext]]]]]]].
  destruct (Forall2_In_left _ _ _ gate Hgates Hgate) as [r [Hr Heval]].
  destruct (evaluateGate_entry gate stage scores)
    as [r' [Hr' [_ [Hfields _]]]].
  rewrite Heval in Hr'. injection Hr' as <-. rewrite Hentry in Hfields.
  destruct Hfields as [_ [_ [Hbm Hcm]]].
  assert (Hsome : evaluateRollback c (d_gateResults decision) rate <> None).
  { unfold evaluateRollback. rewrite Hsnap. cbv zeta.
    destruct (find is_regressing (d_gateResults decision));
      [discriminate | ].
    destruct (find (is_absolute_drop _) (d_gateResults decision)) eqn:Hfind;
      [discriminate | ].
    pose proof (find_none _ _ Hfind r Hr) as Hnot.
    unfold is_absolute_drop in Hnot. rewrite Hbm, Hcm, Hdrop in Hnot.
    discriminate. }
  destruct (evaluateRollback c (d_gateResults decision) rate) as [why | ];
    [ | contradiction].
  exists decision, why. rewrite Hrollback in Hpromote, Hnext.
  repeat split; assumption.
Qed.

End WithKernel.

(** X22 at work: the started deployment, four seconds into its first
    stage, with no score yet. *)
Lemma evaluateStage_decision_witness :
  snapshot Samples.started_controller = Some Samples.staged_at_start
  /\ nth_error (stages_of Samples.staged_at_start)
       (stageIndex Samples.staged_at_start) = Some Samples.first_stage
  /\ Duration.parseDuration "1ms" = Return 1
  /\ forall K : BetaKernel,
       exists decision,
         evaluateStage 5000 Samples.started_controller [] 0%float
         = Return decision.
Proof.
  assert (Hsnap : snapshot Samples.started_controller
                  = Some Samples.staged_at_start)
    by (vm_compute; reflexivity).
  split; [exact Hsnap | ]. split; [reflexivity | ].
  split; [reflexivity | ].
  intros K.
  destruct (@evaluateStage_decision K 5000 Samples.started_controller []
              0%float Samples.staged_at_start Samples.first_stage 1
              Hsnap eq_refl eq_refl) as [decision [Hreturn _]].
  exists decision. exact Hreturn.
Defined.

(** X23 at work: ten baseline scores around 0.9 and no canary score
    yet, against a tolerated drop of 0.1. *)
Lemma absolute_drop_ignores_sample_counts_witness :
  snapshot Samples.started_controller = Some Samples.staged_at_start
  /\ In Samples.gateQ (Schema.gates Samples.first_stage)
  /\ JsNumber.gtb (0.9 - 0)%float 0.1%float = true
  /\ forall K : BetaKernel,
       exists decision,
         evaluateStage 5000 Samples.started_controller
           Samples.scores_no_canary 0%float = Return decision
         /\ d_rollback decision = true.
Proof.
  assert (Hsnap : snapshot Samples.started_controller
                  = Some Samples.staged_at_start)
    by (vm_compute; reflexivity).
  assert (Hgate : In Samples.gateQ (Schema.gates Samples.first_stage))
    by (left; reflexivity).
  assert (Hdrop : JsNumber.gtb (0.9 - 0)%float 0.1%float = true)
    by (vm_compute; reflexivity).
  split; [exact Hsnap | ]. split; [exact Hgate | ]. split; [exact Hdrop | ].
  intros K.
  destruct (@absolute_drop_ignores_sample_counts K 5000
              Samples.started_controller Samples.scores_no_canary 0%float
              Samples.staged_at_start Samples.first_stage 1 Samples.gateQ
              _ Hsnap eq_refl eq_refl Hgate eq_refl Hdrop)
    as [decision [why [Hreturn [Hrollback _]]]].
  exists decision. split; [exact Hreturn | exact Hrollback].
Defined.

End DecisionFacts.
